(** * ssq_backend: generation strategies, selection manager and backtest

    A shallow embedding of the Python sources under [compute/], [models/],
    [services/backtest_service.py] and [tasks/backtest_tasks.py].

    Conventions of the embedding.
    - Python [int] is [Z]; a Python [float] (or [Decimal]) is the rational
      it denotes, compared with [==].  Where only bounds, orderings or
      memberships are read off a result, float arithmetic is written as
      exact arithmetic on [Q]; where the value itself matters (the Bayesian
      posteriors) every float64 operation is followed by the rounding
      [fl64].
    - A [dict] with string keys that is used as a map (the parameters of a
      model) is a [gmap string pyval]; [{**a, **b}] is the union in which
      [b] wins.
    - Code that may raise returns a [result]; code that also draws random
      numbers runs in the monad [M], which threads the random source. *)

From Stdlib Require Import ZArith QArith Qround Qabs Lia Lqa List Permutation Sorted.
From stdpp Require Import gmap strings list fin_maps.

Set Warnings "-register-all".
Local Open Scope Z_scope.

(** ** Python values, exceptions and results *)

Module Py.

Inductive exn : Type :=
  | KeyError (key : string)
  | IndexError
  | TypeError
  | ValueError
  | NameError
  | AttributeError
  | ZeroDivisionError
  | Retry (cause : exn)
  | NonTermination.

Inductive result (A : Type) : Type :=
  | Ok (a : A)
  | Raise (e : exn).
Arguments Ok {A} a.
Arguments Raise {A} e.

Definition rbind {A B} (r : result A) (k : A → result B) : result B :=
  match r with
  | Ok a => k a
  | Raise e => Raise e
  end.

Inductive pyval : Type :=
  | VNone
  | VBool (b : bool)
  | VInt (z : Z)
  | VFloat (q : Q)
  | VStr (s : string)
  | VList (l : list pyval)
  | VDict (d : list (string * pyval)).

(** [bool(v)]. *)
Definition truthy (v : pyval) : bool :=
  match v with
  | VNone => false
  | VBool b => b
  | VInt z => negb (z =? 0)
  | VFloat q => negb (Qeq_bool q 0)
  | VStr s => negb (String.eqb s "")
  | VList l => negb (Nat.eqb (length l) 0)
  | VDict d => negb (Nat.eqb (length d) 0)
  end.

(** The number a value stands for in a comparison or in arithmetic with a
    number; anything else makes Python raise [TypeError]. *)
Definition num (v : pyval) : result Q :=
  match v with
  | VInt z => Ok (inject_Z z)
  | VFloat q => Ok q
  | VBool b => Ok (inject_Z (Z.b2z b))
  | _ => Raise TypeError
  end.

(** The integer a value stands for where Python insists on one
    ([range(n)], an index). *)
Definition int (v : pyval) : result Z :=
  match v with
  | VInt z => Ok z
  | VBool b => Ok (Z.b2z b)
  | _ => Raise TypeError
  end.

(** [d[k]] on a parameter dictionary. *)
Definition getitem (d : gmap string pyval) (k : string) : result pyval :=
  match d !! k with
  | Some v => Ok v
  | None => Raise (KeyError k)
  end.

Definition getnum (d : gmap string pyval) (k : string) : result Q :=
  rbind (getitem d k) num.

Definition getint (d : gmap string pyval) (k : string) : result Z :=
  rbind (getitem d k) int.

(** [{**a, **b}]: the keys of both, [b]'s value where both have one. *)
Definition merge_params (a b : gmap string pyval) : gmap string pyval := b ∪ a.

(** [l[start:]]: a negative [start] counts from the end, and both ends are
    clipped to the list. *)
Definition slice_from {A} (start : Z) (l : list A) : list A :=
  if start <? 0
  then drop (Z.to_nat (Z.max 0 (Z.of_nat (length l) + start))) l
  else drop (Z.to_nat start) l.

(** [l[:stop]]. *)
Definition slice_to {A} (stop : Z) (l : list A) : list A :=
  if stop <? 0
  then take (Z.to_nat (Z.max 0 (Z.of_nat (length l) + stop))) l
  else take (Z.to_nat stop) l.

(** [l[i]], with Python's negative indices. *)
Definition index {A} (l : list A) (i : Z) : result A :=
  let j := if i <? 0 then Z.of_nat (length l) + i else i in
  if j <? 0 then Raise IndexError
  else match l !! Z.to_nat j with
       | Some x => Ok x
       | None => Raise IndexError
       end.

Definition sumZ (l : list Z) : Z := foldr Z.add 0 l.

Definition sumQ (l : list Q) : Q := foldr Qplus 0%Q l.

(** [sum(1 for x in l if p x)]. *)
Definition count_if {A} (p : A → bool) (l : list A) : Z :=
  Z.of_nat (length (filter (λ x, Is_true (p x)) l)).

Definition is_odd (x : Z) : bool := x mod 2 =? 1.

Definition Qlt_bool (a b : Q) : bool := negb (Qle_bool b a).

(** A float has one representation: a value that is stored and accumulated
    is kept in lowest terms, which leaves the number unchanged. *)
Definition fl (q : Q) : Q := Qred q.

(** [np.mean] of a non-empty list. *)
Definition mean (l : list Q) : Q := (sumQ l / inject_Z (Z.of_nat (length l)))%Q.

End Py.
Import Py.

Notation "'let?' x ':=' r 'in' k" := (rbind r (λ x, k))
  (at level 10, x name, r at level 100, k at level 200).

(** ** The random source

    [random] is the only source of nondeterminism in a generation call.  It
    is an explicit tape of raw draws; every call of a [random] function takes
    the next entry, and beyond the end of the tape every draw reads [0].  A
    statement over all tapes is a statement over all outcomes of the random
    calls. *)

Module Rng.

Definition tape : Type := list N.

Definition M (A : Type) : Type := tape → result A * tape.

Definition ret {A} (a : A) : M A := λ t, (Ok a, t).

Definition raise {A} (e : exn) : M A := λ t, (Raise e, t).

Definition bind {A B} (m : M A) (k : A → M B) : M B :=
  λ t, match m t with
       | (Ok a, t') => k a t'
       | (Raise e, t') => (Raise e, t')
       end.

Definition lift {A} (r : result A) : M A := λ t, (r, t).

(** [try: m except Exception: h]. *)
Definition catch {A} (m : M A) (h : exn → M A) : M A :=
  λ t, match m t with
       | (Ok a, t') => (Ok a, t')
       | (Raise e, t') => h e t'
       end.

Definition next : M N :=
  λ t, match t with
       | [] => (Ok 0%N, [])
       | n :: t' => (Ok n, t')
       end.

End Rng.
Import Rng.

Notation "'let!' x ':=' m 'in' k" := (bind m (λ x, k))
  (at level 10, x name, m at level 100, k at level 200).

Module Random.

(** [random.randint(a, b)]: an integer of [a..b]. *)
Definition randint (a b : Z) : M Z :=
  if b <? a then raise ValueError
  else let! n := next in ret (a + Z.of_N n mod (b - a + 1)).

(** [random.random()]: a multiple of [2^-53] in [0, 1). *)
Definition random : M Q :=
  let! n := next in ret (Z.of_N n mod 2 ^ 53 # 2 ^ 53).

(** [random.uniform(a, b)] is [a + (b - a) * random()]. *)
Definition uniform (a b : Q) : M Q :=
  let! u := random in ret (a + (b - a) * u)%Q.

(** [random.choice(l)]. *)
Definition choice {A} (l : list A) : M A :=
  match l with
  | [] => raise IndexError
  | x :: _ =>
      let! n := next in
      ret (nth (Z.to_nat (Z.of_N n mod Z.of_nat (length l))) l x)
  end.

(** [random.sample(pool, k)]: [k] picks, each among the entries not picked
    yet. *)
Fixpoint sample_go {A} (pool : list A) (k : nat) : M (list A) :=
  match k with
  | O => ret []
  | S k' =>
      match pool with
      | [] => raise ValueError
      | x0 :: _ =>
          let! n := next in
          let j := Z.to_nat (Z.of_N n mod Z.of_nat (length pool)) in
          let! rest := sample_go (delete j pool) k' in
          ret (nth j pool x0 :: rest)
      end
  end.

Definition sample {A} (pool : list A) (k : Z) : M (list A) :=
  if (k <? 0) || (Z.of_nat (length pool) <? k) then raise ValueError
  else sample_go pool (Z.to_nat k).

End Random.

(** ** Sorting

    [sorted] and [list.sort] are stable; on a list this is the stable
    insertion sort for the order [leb]. *)

Section Sorting.
Context {A : Type} (leb : A → A → bool).

Fixpoint insert_sorted (x : A) (l : list A) : list A :=
  match l with
  | [] => [x]
  | y :: l' => if leb x y then x :: l else y :: insert_sorted x l'
  end.

Definition sorted_by (l : list A) : list A := foldr insert_sorted [] l.
End Sorting.

(** [sorted(l)] on integers. *)
Definition sorted (l : list Z) : list Z := sorted_by Z.leb l.

(** [sorted(set(l))] on integers: the distinct values, ascending. *)
Definition sorted_set (l : list Z) : list Z := sorted (remove_dups l).

(** ** Draws and candidates *)

(** One entry of a history: a [dict] read through the keys ["reds"],
    ["red"] and ["blue"]; a field is [None] when the key is absent. *)
Record draw : Type := Draw {
  d_reds : option (list Z);
  d_red : option (list Z);
  d_blue : option Z
}.

(** [draw.get("reds") or draw.get("red", [])]. *)
Definition get_reds (d : draw) : list Z :=
  match d_reds d with
  | Some (x :: l) => x :: l
  | _ => default [] (d_red d)
  end.

(** The [dict] a [generate] returns.  The label is display text and is kept
    in ASCII; [extra_info] carries the diagnostic entries. *)
Record candidate : Type := Candidate {
  reds : list Z;
  blue : Z;
  strategy : string;
  extra_info : list (string * pyval)
}.

Definition in_range (lo hi x : Z) : Prop := lo ≤ x ≤ hi.

(** Six distinct integers of [1..33], ascending. *)
Definition ValidReds (l : list Z) : Prop :=
  length l = 6%nat ∧ NoDup l ∧ Forall (in_range 1 33) l ∧ Sorted Z.le l.

(** The structural validity of a candidate. *)
Definition ValidCandidate (c : candidate) : Prop :=
  ValidReds (reds c) ∧ in_range 1 16 (blue c).

(** [list(range(1, 34))]. *)
Definition all_reds : list Z := seqZ 1 33.

(** [params_used]: the parameter dictionary as stored in the metadata. *)
Definition params_used (p : gmap string pyval) : pyval := VDict (map_to_list p).

(** ** compute/random_model.py *)

Module RandomLotteryModel.

Definition default_params : gmap string pyval :=
  list_to_map
    [("prefer_odd_red", VBool false); ("prefer_odd_blue", VBool false);
     ("min_odd_count", VInt 2); ("max_odd_count", VInt 4);
     ("min_sum", VInt 70); ("max_sum", VInt 140);
     ("max_consecutive", VInt 2); ("max_attempts", VInt 50)].

Record t : Type := Self {
  history : list draw;
  params : gmap string pyval;
  prefer_odd_red : pyval;
  prefer_odd_blue : pyval;
  max_attempts : pyval
}.

(** [__init__], with [BaseLotteryModel.__init__] inlined: [params] is
    [{**default_params, **(params or {})}]. *)
Definition init (history : list draw) (overrides : gmap string pyval) : result t :=
  let p := merge_params default_params overrides in
  let? a := getitem p "prefer_odd_red" in
  let? b := getitem p "prefer_odd_blue" in
  let? c := getitem p "max_attempts" in
  Ok (Self history p a b c).

(** The loop over adjacent entries: [consecutive] counts the pairs that
    differ by one, and the first count above [max_consecutive] rejects. *)
Fixpoint consecutive_loop (p : gmap string pyval) (consecutive : Z) (l : list Z)
  : result bool :=
  match l with
  | x :: ((y :: _) as l') =>
      if y - x =? 1 then
        let? m := getnum p "max_consecutive" in
        if Qlt_bool m (inject_Z (consecutive + 1)) then Ok false
        else consecutive_loop p (consecutive + 1) l'
      else consecutive_loop p consecutive l'
  | _ => Ok true
  end.

Definition _check_constraints (self : t) (reds : list Z) : result bool :=
  if negb (Nat.eqb (length reds) 6) then Ok false else
  let odd_count := inject_Z (count_if is_odd reds) in
  let? lo := getnum (params self) "min_odd_count" in
  let? out :=
    (if Qlt_bool odd_count lo then Ok true
     else let? hi := getnum (params self) "max_odd_count" in
          Ok (Qlt_bool hi odd_count)) in
  if out : bool then Ok false else
  let total := inject_Z (sumZ reds) in
  let? lo := getnum (params self) "min_sum" in
  let? out :=
    (if Qlt_bool total lo then Ok true
     else let? hi := getnum (params self) "max_sum" in
          Ok (Qlt_bool hi total)) in
  if out : bool then Ok false else
  consecutive_loop (params self) 0 reds.

(** One pass of the body of [for attempt in range(self.max_attempts)]: the
    state is the pair of loop variables [reds] and [attempt], unset before
    the first pass. *)
Definition draw_reds (self : t) : M (list Z) :=
  let odds := filter (λ x, Is_true (is_odd x)) all_reds in
  let evens := filter (λ x, Is_true (x mod 2 =? 0)) all_reds in
  let! reds :=
    (if truthy (prefer_odd_red self) then
       let! num_odd := Random.randint 3 4 in
       let! selected_odd := Random.sample odds num_odd in
       let! selected_even := Random.sample evens (6 - num_odd) in
       ret (selected_odd ++ selected_even)
     else Random.sample all_reds 6) in
  ret (sorted reds).

Fixpoint attempt_loop (self : t) (passes : nat) (attempt : Z)
    (st : option (list Z * Z)) : M (option (list Z * Z)) :=
  match passes with
  | O => ret st
  | S passes' =>
      let! reds := draw_reds self in
      let! ok := lift (_check_constraints self reds) in
      if ok : bool then ret (Some (reds, attempt))
      else attempt_loop self passes' (attempt + 1) (Some (reds, attempt))
  end.

Definition pick_blue (prefer_odd_blue : pyval) : M Z :=
  if truthy prefer_odd_blue then
    let odd_blues := filter (λ b, Is_true (is_odd b)) (seqZ 1 16) in
    match odd_blues with
    | [] => Random.randint 1 16
    | _ => Random.choice odd_blues
    end
  else Random.randint 1 16.

Definition generate (self : t) : M candidate :=
  let! n := lift (int (max_attempts self)) in
  let! st := attempt_loop self (Z.to_nat n) 0 None in
  let! reds :=
    (match st with
     | Some (reds, _) => ret reds
     | None => let! reds := Random.sample all_reds 6 in ret (sorted reds)
     end) in
  let! blue := pick_blue (prefer_odd_blue self) in
  let! attempts :=
    (match reds with
     | [] => ret (VStr "unconstrained")
     | _ => match st with
            | Some (_, attempt) => ret (VInt (attempt + 1))
            | None => raise NameError
            end
     end) in
  ret (Candidate reds blue
         (if truthy (prefer_odd_red self) then "random (prefer odd)" else "random")
         [("params_used", params_used (params self));
          ("attempts", attempts);
          ("odd_count", VInt (count_if is_odd reds));
          ("sum_reds", VInt (sumZ reds))]).

(** [RandomLotteryModel().generate()]: no history, no overrides. *)
Definition generate_default : M candidate :=
  let! self := lift (init [] ∅) in generate self.

End RandomLotteryModel.

(** ** Floating point *)

(** [round(x)] on a float: to the nearest integer, a tie to the even one. *)
Definition pyround (q : Q) : Z :=
  let f := Qfloor q in
  let r := (q - inject_Z f)%Q in
  if Qlt_bool r (1 # 2) then f
  else if Qlt_bool (1 # 2) r then f + 1
  else if Z.even f then f else f + 1.

(** The exponent of the spacing of the floats around [X >= 0], both in units
    of [2^-1074]: a float has at most 53 significant bits, and below
    [2^-1022] the floats are the multiples of [2^-1074]. *)
Definition ulp_exp (X : Q) : Z := Z.max 0 (Z.log2 (Qfloor X) - 52).

(** The nearest multiple of the spacing, for [X >= 0] in units of
    [2^-1074]: the significand rounded to the nearest integer, a tie to the
    even one, times the spacing. *)
Definition round53 (X : Q) : Z :=
  pyround (X / inject_Z (2 ^ ulp_exp X)) * 2 ^ ulp_exp X.

(** Rounding to the nearest float, a tie to the even significand: what every
    float64 addition, multiplication and conversion does to its exact
    result (IEEE 754 binary64, for finite operands and results that do not
    overflow; [inf] and [nan] are no values of the embedding). *)
Definition fl64 (x : Q) : Q :=
  let m := round53 (Qabs x * inject_Z (2 ^ 1074)) in
  Qred (inject_Z (if Qlt_bool x 0 then - m else m) / inject_Z (2 ^ 1074)).

(** A value that a float holds. *)
Definition is_float (q : Q) : Prop := (fl64 q == q)%Q.

(** Python's numbers: an [int], which is exact, or a [float]. *)
Module PyNum.

Inductive t : Type :=
  | Int (z : Z)
  | Float (q : Q).

(** The number a value stands for in arithmetic; a [float] value is the
    float nearest to the rational that denotes it. *)
Definition of_value (v : pyval) : result t :=
  match v with
  | VInt z => Ok (Int z)
  | VBool b => Ok (Int (Z.b2z b))
  | VFloat q => Ok (Float (fl64 q))
  | _ => Raise TypeError
  end.

(** [float(n)]. *)
Definition to_float (n : t) : Q :=
  match n with
  | Int z => fl64 (inject_Z z)
  | Float q => q
  end.

(** [a + b] and [a * b]: exact on two ints, otherwise the float64 operation
    on the operands as floats. *)
Definition add (a b : t) : t :=
  match a, b with
  | Int x, Int y => Int (x + y)
  | _, _ => Float (fl64 (to_float a + to_float b))
  end.

Definition mul (a b : t) : t :=
  match a, b with
  | Int x, Int y => Int (x * y)
  | _, _ => Float (fl64 (to_float a * to_float b))
  end.

(** The rational a number is. *)
Definition value (n : t) : Q :=
  match n with
  | Int z => inject_Z z
  | Float q => q
  end.

End PyNum.

(** ** compute/bayesian_model.py *)

Module BayesianModel.

Definition default_params : gmap string pyval :=
  list_to_map
    [("prior_alpha", VFloat 1); ("likelihood_weight", VFloat 1);
     ("blue_prior_alpha", VFloat 1); ("blue_prior_beta", VFloat 1);
     ("temperature", VFloat 1); ("min_prob_threshold", VFloat (1 # 1000));
     ("history_window", VInt 100);
     ("min_odd_count", VInt 2); ("max_odd_count", VInt 4);
     ("min_sum", VInt 70); ("max_sum", VInt 140);
     ("max_consecutive", VInt 2)].

(** [self.history[-self.history_window:] if self.history else []]. *)
Definition recent_window (history : list draw) (history_window : pyval)
  : result (list draw) :=
  match history with
  | [] => Ok []
  | _ => let? w := int history_window in Ok (slice_from (- w) history)
  end.

(** The body of [for r in reds]: [counts[r-1] += 1] for [r] in [1..33]. *)
Definition count_red (counts : list Q) (r : Z) : list Q :=
  if (1 <=? r) && (r <=? 33)
  then alter (λ c, c + 1)%Q (Z.to_nat (r - 1)) counts
  else counts.

(** The two nested loops over the window. *)
Definition count_window (recent : list draw) : list Q :=
  foldl (λ counts d, foldl count_red counts (get_reds d)) (replicate 33 0%Q) recent.

(** [alpha + counts * self.likelihood_weight], elementwise on float64
    arrays: the prior and the weight are converted to float64, and every
    product and every sum is rounded.  The counts are whole numbers, which
    [counts[r-1] += 1] keeps exact. *)
Definition _build_red_posterior (history : list draw)
    (prior_alpha likelihood_weight history_window : pyval) : result (list Q) :=
  let? a := num prior_alpha in
  let alpha := replicate 33 (fl64 a) in
  let? recent := recent_window history history_window in
  let counts := count_window recent in
  let? w := num likelihood_weight in
  Ok (zip_with (λ x c, fl64 (x + fl64 (c * fl64 w))) alpha counts).

(** [_build_blue_posterior]: the Beta posterior of "blue is 1", in Python's
    own arithmetic: exact while everything is an [int], float64 as soon as a
    [float] takes part. *)
Definition _build_blue_posterior (history : list draw)
    (blue_prior_alpha blue_prior_beta likelihood_weight history_window : pyval)
  : result (Q * Q) :=
  let? alpha := PyNum.of_value blue_prior_alpha in
  let? beta := PyNum.of_value blue_prior_beta in
  let? recent := recent_window history history_window in
  let count_appear :=
    count_if (λ d, match d_blue d with Some b => b =? 1 | None => false end) recent in
  let? w := PyNum.of_value likelihood_weight in
  Ok (PyNum.value (PyNum.add alpha (PyNum.mul (PyNum.Int count_appear) w)),
      PyNum.value
        (PyNum.add beta
           (PyNum.mul (PyNum.Int (Z.of_nat (length recent) - count_appear)) w))).

Record t : Type := Self {
  history : list draw;
  params : gmap string pyval;
  prior_alpha : pyval;
  likelihood_weight : pyval;
  temperature : pyval;
  min_prob_threshold : pyval;
  history_window : pyval;
  red_posterior : list Q;
  blue_posterior : Q * Q
}.

Definition init (history : list draw) (overrides : gmap string pyval) : result t :=
  let p := merge_params default_params overrides in
  let? pa := getitem p "prior_alpha" in
  let? lw := getitem p "likelihood_weight" in
  let? ba := getitem p "blue_prior_alpha" in
  let? bb := getitem p "blue_prior_beta" in
  let? te := getitem p "temperature" in
  let? mp := getitem p "min_prob_threshold" in
  let? hw := getitem p "history_window" in
  let? red := _build_red_posterior history pa lw hw in
  let? blu := _build_blue_posterior history ba bb lw hw in
  Ok (Self history p pa lw te mp hw red blu).

Definition _check_constraints (self : t) (reds : list Z) : result bool :=
  if negb (Nat.eqb (length reds) 6) then Ok false else
  let odd_count := inject_Z (count_if is_odd reds) in
  let? lo := getnum (params self) "min_odd_count" in
  let? out :=
    (if Qlt_bool odd_count lo then Ok true
     else let? hi := getnum (params self) "max_odd_count" in
          Ok (Qlt_bool hi odd_count)) in
  if out : bool then Ok false else
  let zone1 := count_if (λ x, x <=? 11) reds in
  let zone2 := count_if (λ x, (12 <=? x) && (x <=? 22)) reds in
  let zone3 := count_if (λ x, 23 <=? x) reds in
  if (zone1 =? 0) || (zone2 =? 0) || (zone3 =? 0) then Ok false else
  let total := inject_Z (sumZ reds) in
  let? lo := getnum (params self) "min_sum" in
  let? out :=
    (if Qlt_bool total lo then Ok true
     else let? hi := getnum (params self) "max_sum" in
          Ok (Qlt_bool hi total)) in
  if out : bool then Ok false else
  RandomLotteryModel.consecutive_loop (params self) 0 reds.

End BayesianModel.

(** ** compute/genetic_model.py *)

(** [int(x)] on a float: truncation towards zero. *)
Definition trunc (q : Q) : Z := Z.quot (Qnum q) (Z.pos (Qden q)).

(** [max(a, b)] and [min(a, b)] of Python, which keep the first argument on
    a tie. *)
Definition pymax (a b : Q) : Q := if Qlt_bool a b then b else a.
Definition pymin (a b : Q) : Q := if Qlt_bool b a then b else a.

(** [sum(l)], from the left. *)
Definition pysum (l : list Q) : Q := foldl (λ a b, fl (a + b)) 0%Q l.

Definition memZ (x : Z) (l : list Z) : bool := existsb (Z.eqb x) l.

(** [len(set(a) & set(b))]. *)
Definition overlap_count (a b : list Z) : Z :=
  Z.of_nat (length (remove_dups (filter (λ x, Is_true (memZ x b)) a))).

(** The number of [i] with [reds[i] - reds[i-1] == 1]. *)
Fixpoint adjacent_pairs (l : list Z) : Z :=
  match l with
  | x :: ((y :: _) as l') => (if y - x =? 1 then 1 else 0) + adjacent_pairs l'
  | _ => 0
  end.

(** [d["reds"] or d["red"]]. *)
Definition item_reds (d : draw) : result (list Z) :=
  match d_reds d with
  | None => Raise (KeyError "reds")
  | Some (x :: l) => Ok (x :: l)
  | Some [] => match d_red d with
               | None => Raise (KeyError "red")
               | Some l => Ok l
               end
  end.

Module GeneticModel.

Definition default_params : gmap string pyval :=
  list_to_map
    [("population_size", VInt 120); ("generations", VInt 60);
     ("crossover_rate", VFloat (85 # 100)); ("mutation_rate", VFloat (8 # 100));
     ("elite_rate", VFloat (12 # 100));
     ("history_match_weight", VFloat (45 # 100)); ("trend_weight", VFloat (25 # 100));
     ("odd_even_weight", VFloat (15 # 100)); ("zone_weight", VFloat (10 # 100));
     ("sum_weight", VFloat (5 # 100));
     ("min_odd_count", VInt 2); ("max_odd_count", VInt 4);
     ("min_sum", VInt 70); ("max_sum", VInt 140); ("max_consecutive", VInt 2);
     ("adaptive_mutation", VBool true); ("history_window", VInt 80)].

Record t : Type := Self {
  history : list draw;
  params : gmap string pyval;
  pop_size : Z;
  generations : Z;
  crossover_rate : pyval;
  mutation_rate : Q;
  elite_rate : Q;
  history_window : Z;
  history_match_weight : Q;
  trend_weight : Q;
  odd_even_weight : Q;
  zone_weight : Q;
  sum_weight : Q;
  elite_count : Z
}.

Definition init (history : list draw) (overrides : gmap string pyval) : result t :=
  let p := merge_params default_params overrides in
  let? ps := getint p "population_size" in
  let? ge := getint p "generations" in
  let? cr := getitem p "crossover_rate" in
  let? mr := getnum p "mutation_rate" in
  let? er := getnum p "elite_rate" in
  let? hw := getint p "history_window" in
  let? hm := getnum p "history_match_weight" in
  let? tw := getnum p "trend_weight" in
  let? ow := getnum p "odd_even_weight" in
  let? zw := getnum p "zone_weight" in
  let? sw := getnum p "sum_weight" in
  Ok (Self history p ps ge cr mr er hw hm tw ow zw sw
        (Z.max 2 (trunc (inject_Z ps * er)))).

(** The part of [_fitness] under [if self.history:]. *)
Definition history_score (self : t) (reds : list Z) : result Q :=
  match history self with
  | [] => Ok 0%Q
  | _ =>
      let recent := slice_from (- history_window self) (history self) in
      let? last := index recent (-1) in
      let last_reds := get_reds last in
      let overlap := (inject_Z (overlap_count reds last_reds) / 6)%Q in
      let score := (0 + history_match_weight self * overlap)%Q in
      if 3 <=? Z.of_nat (length recent) then
        let avg_last := mean (map (λ d, inject_Z (sumZ (get_reds d))) (slice_from (-3) recent)) in
        let current_sum := inject_Z (sumZ reds) in
        let? d4 := index recent (-4) in
        let? r4 := item_reds d4 in
        let trend_match :=
          if Qlt_bool 0 ((current_sum - avg_last) * (avg_last - inject_Z (sumZ r4)))
          then 1%Q else (4 # 10)%Q in
        Ok (score + trend_weight self * trend_match)%Q
      else Ok score
  end.

Definition sum_score (self : t) (total : Q) : result Q :=
  let? lo := getnum (params self) "min_sum" in
  let? inside :=
    (if Qle_bool lo total
     then let? hi := getnum (params self) "max_sum" in Ok (Qle_bool total hi)
     else Ok false) in
  if inside : bool then Ok 1%Q
  else
    let? lo := getnum (params self) "min_sum" in
    let? hi := getnum (params self) "max_sum" in
    let distance := pymin (Qabs (total - lo)) (Qabs (total - hi)) in
    Ok (pymax 0 (1 - distance / 50))%Q.

Definition _fitness (self : t) (reds : list Z) : result Q :=
  let? score := history_score self reds in
  let odd_count := count_if is_odd reds in
  let odd_score := (1 - inject_Z (Z.abs (odd_count - 3)) / 3)%Q in
  let score := (score + odd_even_weight self * odd_score)%Q in
  let z1 := count_if (λ x, x <=? 11) reds in
  let z2 := count_if (λ x, (12 <=? x) && (x <=? 22)) reds in
  let z3 := count_if (λ x, 23 <=? x) reds in
  let zone_score := Z.min 1 z1 + Z.min 1 z2 + Z.min 1 z3 in
  let score := (score + zone_weight self * (inject_Z zone_score / 3))%Q in
  let? ss := sum_score self (inject_Z (sumZ reds)) in
  let score := (score + sum_weight self * ss)%Q in
  let score := (score - inject_Z (adjacent_pairs reds) * (25 # 100))%Q in
  Ok (fl (pymax (1 # 100) (pymin 1 score))).

Definition _crossover (p1 p2 : list Z) : M (list Z * list Z) :=
  let! point := Random.randint 1 5 in
  let c1 := sorted_set (slice_to point p1 ++ slice_from point p2) in
  let c2 := sorted_set (slice_to point p2 ++ slice_from point p1) in
  ret (c1, c2).

(** [new_num = random.randint(1, 33)] followed by
    [while new_num in ind: new_num = random.randint(1, 33)].  Every pass
    takes one entry of the tape; past its end the draw is [0] for ever, so
    the loop ends there with [1] or never ends. *)
Fixpoint fresh_number (ind : list Z) (t : tape) : result Z * tape :=
  match t with
  | [] => if memZ 1 ind then (Raise NonTermination, []) else (Ok 1, [])
  | n :: t' =>
      let new_num := 1 + Z.of_N n mod 33 in
      if memZ new_num ind then fresh_number ind t' else (Ok new_num, t')
  end.

(** [ind[idx] = v]. *)
Definition setitem (ind : list Z) (idx : Z) (v : Z) : result (list Z) :=
  let j := if idx <? 0 then Z.of_nat (length ind) + idx else idx in
  if (j <? 0) || (Z.of_nat (length ind) <=? j) then Raise IndexError
  else Ok (<[Z.to_nat j := v]> ind).

Fixpoint mutate_loop (passes : nat) (ind : list Z) : M (list Z) :=
  match passes with
  | O => ret ind
  | S passes' =>
      let! idx := Random.randint 0 5 in
      let! new_num := fresh_number ind in
      let! ind' := lift (setitem ind idx new_num) in
      mutate_loop passes' ind'
  end.

Definition _mutate (individual : list Z) : M (list Z) :=
  let! n := Random.randint 1 2 in
  let! ind := mutate_loop (Z.to_nat n) individual in
  ret (sorted ind).

(** The [for ind, fit in zip(population, fitnesses)] loop of [_select]. *)
Fixpoint roulette (pick current : Q) (pairs : list (list Z * Q)) : option (list Z) :=
  match pairs with
  | [] => None
  | (ind, fit) :: rest =>
      let current := fl (current + fit) in
      if Qle_bool pick current then Some ind else roulette pick current rest
  end.

Definition _select (population : list (list Z)) (fitnesses : list Q) : M (list Z) :=
  let total := pysum fitnesses in
  if Qle_bool total 0 then Random.choice population
  else
    let! pick := Random.uniform 0 total in
    match roulette pick 0 (zip population fitnesses) with
    | Some ind => ret ind
    | None => lift (index population (-1))
    end.

(** [[f(x) for x in l]] for an [f] that may raise. *)
Fixpoint map_result {A B} (f : A → result B) (l : list A) : result (list B) :=
  match l with
  | [] => Ok []
  | x :: l' => let? y := f x in let? ys := map_result f l' in Ok (y :: ys)
  end.

(** [fitnesses.index(max(fitnesses))] and the maximum: the first position
    that holds the largest value. *)
Fixpoint argmax_go (best_i : nat) (best : Q) (i : nat) (l : list Q) : nat * Q :=
  match l with
  | [] => (best_i, best)
  | x :: l' =>
      if Qlt_bool best x then argmax_go i x (S i) l'
      else argmax_go best_i best (S i) l'
  end.

Definition index_of_max (l : list Q) : result (nat * Q) :=
  match l with
  | [] => Raise ValueError
  | x :: l' => Ok (argmax_go 0 x 1 l')
  end.

(** [[population[i][:] for i in sorted(range(n), key=fitnesses[i],
    reverse=True)[:elite_count]]]: the individuals in the stable descending
    order of their fitness, cut at [elite_count]. *)
Definition elites (self : t) (population : list (list Z)) (fitnesses : list Q)
  : list (list Z) :=
  map fst (slice_to (elite_count self)
             (sorted_by (λ a b, Qle_bool (snd b) (snd a)) (zip population fitnesses))).

(** [self.mutation_rate * (1 - gen / self.generations)] when
    [adaptive_mutation] is on. *)
Definition current_mutation_rate (self : t) (gen : Z) : Q :=
  if truthy (default (VBool true) (params self !! "adaptive_mutation"))
  then (mutation_rate self * (1 - inject_Z gen / inject_Z (generations self)))%Q
  else mutation_rate self.

(** [while len(new_population) < self.pop_size]: every pass appends two
    children, so [pop_size] passes are never used up. *)
Fixpoint breed (self : t) (gen : Z) (population : list (list Z)) (fitnesses : list Q)
    (fuel : nat) (new_population : list (list Z)) : M (list (list Z)) :=
  if pop_size self <=? Z.of_nat (length new_population) then ret new_population
  else
    match fuel with
    | O => raise NonTermination
    | S fuel' =>
        let! p1 := _select population fitnesses in
        let! p2 := _select population fitnesses in
        let! cs := _crossover p1 p2 in
        let rate := current_mutation_rate self gen in
        let! r1 := Random.random in
        let! c1 := (if Qlt_bool r1 rate then _mutate (fst cs) else ret (fst cs)) in
        let! r2 := Random.random in
        let! c2 := (if Qlt_bool r2 rate then _mutate (snd cs) else ret (snd cs)) in
        breed self gen population fitnesses fuel' (new_population ++ [c1; c2])
    end.

Record search_state : Type := SearchState {
  population : list (list Z);
  best_individual : option (list Z);
  best_fitness : Q
}.

(** The body of [for gen in range(self.generations)]. *)
Definition generation (self : t) (gen : Z) (st : search_state) : M search_state :=
  let! fitnesses := lift (map_result (_fitness self) (population st)) in
  let! mx := lift (index_of_max fitnesses) in
  let st1 :=
    if Qlt_bool (best_fitness st) (snd mx)
    then SearchState (population st) (population st !! fst mx) (snd mx)
    else st in
  let! new_population :=
    breed self gen (population st) fitnesses (Z.to_nat (pop_size self))
      (elites self (population st) fitnesses) in
  ret (SearchState (slice_to (pop_size self) new_population)
         (best_individual st1) (best_fitness st1)).

Fixpoint evolve (self : t) (gens : nat) (gen : Z) (st : search_state) : M search_state :=
  match gens with
  | O => ret st
  | S gens' => let! st' := generation self gen st in evolve self gens' (gen + 1) st'
  end.

(** [[sorted(random.sample(range(1, 34), 6)) for _ in range(n)]]. *)
Fixpoint initial_population (n : nat) : M (list (list Z)) :=
  match n with
  | O => ret []
  | S n' =>
      let! ind := Random.sample all_reds 6 in
      let! rest := initial_population n' in
      ret (sorted ind :: rest)
  end.

Definition generate (self : t) : M candidate :=
  if Nat.ltb (length (history self)) 10 then RandomLotteryModel.generate_default
  else
    let! population := initial_population (Z.to_nat (pop_size self)) in
    let! st := evolve self (Z.to_nat (generations self)) 0
                 (SearchState population None (-1)) in
    let! reds :=
      (match best_individual st with
       | Some b => ret b
       | None => lift (index (GeneticModel.population st) 0)
       end) in
    let! blue := Random.randint 1 16 in
    ret (Candidate reds blue "genetic"
           [("params_used", params_used (params self));
            ("fitness_score", VFloat (best_fitness st));
            ("odd_count", VInt (count_if is_odd reds));
            ("sum_reds", VInt (sumZ reds));
            ("history_match_weight", VFloat (history_match_weight self))]).

End GeneticModel.

(** ** compute/markov_model.py: the NSGA-II model *)

(** A crowding distance: a float or [float('inf')]. *)
Inductive dist : Type :=
  | Fin (q : Q)
  | Inf.

Module Nsga2Model.

(** [np.all(a >= b) and np.any(a > b)] on two vectors of one length. *)
Definition dominates (a b : list Q) : bool :=
  forallb (λ xy, Qle_bool (snd xy) (fst xy)) (zip a b)
  && existsb (λ xy, Qlt_bool (snd xy) (fst xy)) (zip a b).

(** The first pass of [_nsga2_select], for the row [i]: the set
    [dominated_sets[i]] and the counter [domination_count[i]]. *)
Definition dominated_set (fv : list (list Q)) (i : nat) (vi : list Q) : list nat :=
  map fst (filter (λ jv, Is_true (negb (Nat.eqb i (fst jv)) && dominates vi (snd jv)))
             (zip (seq 0 (length fv)) fv)).

Definition domination_count (fv : list (list Q)) (i : nat) (vi : list Q) : Z :=
  count_if (λ jv, negb (Nat.eqb i (fst jv)) && negb (dominates vi (snd jv))
                  && dominates (snd jv) vi)
    (zip (seq 0 (length fv)) fv).

(** [fronts[0]] after the first pass: the rows nobody dominates. *)
Definition first_front (fv : list (list Q)) : list nat :=
  map fst (filter (λ iv, Is_true (domination_count fv (fst iv) (snd iv) =? 0))
             (zip (seq 0 (length fv)) fv)).

(** [[v[obj] for v in front_fitness]]. *)
Definition column (front_fitness : list (list Q)) (obj : nat) : result (list Q) :=
  GeneticModel.map_result
    (λ v, match v !! obj with Some x => Ok x | None => Raise IndexError end)
    front_fitness.

(** [sorted(range(n), key=lambda i: front_fitness[i][obj])], each index with
    its key. *)
Definition sorted_idx (keys : list Q) : list (nat * Q) :=
  sorted_by (λ a b, Qle_bool (snd a) (snd b)) (zip (seq 0 (length keys)) keys).

Definition dist_add (q : Q) (d : dist) : dist :=
  match d with
  | Fin x => Fin (x + q)
  | Inf => Inf
  end.

(** [for i in range(1, n-1)]: every inner position of the sorted order gains
    the normalised gap between its two neighbours. *)
Fixpoint interior (width : Q) (s : list (nat * Q)) (distance : list dist) : list dist :=
  match s with
  | a :: ((b :: (c :: _)) as rest) =>
      interior width rest
        (alter (dist_add ((snd c - snd a) / width)) (fst b) distance)
  | _ => distance
  end.

(** The body of [for obj in range(m)]. *)
Definition objective_pass (keys : list Q) (distance : list dist) : list dist :=
  let s := sorted_idx keys in
  match s, last s with
  | lo :: _, Some hi =>
      let distance := <[fst hi := Inf]> (<[fst lo := Inf]> distance) in
      if Qeq_bool (snd hi) (snd lo) then distance
      else interior (snd hi - snd lo) s distance
  | _, _ => distance
  end.

Fixpoint objectives (front_fitness : list (list Q)) (objs : list nat)
    (distance : list dist) : result (list dist) :=
  match objs with
  | [] => Ok distance
  | obj :: objs' =>
      let? keys := column front_fitness obj in
      objectives front_fitness objs' (objective_pass keys distance)
  end.

Definition _crowding_distance (front_fitness : list (list Q)) : result (list dist) :=
  let n := length front_fitness in
  if Nat.leb n 2 then Ok (replicate n Inf)
  else
    match front_fitness with
    | [] => Raise IndexError
    | v0 :: _ => objectives front_fitness (seq 0 (length v0)) (replicate n (Fin 0))
    end.

Definition _crossover (p1 p2 : list Z) : M (list Z * list Z) :=
  let! point := Random.randint 1 5 in
  let c1 := sorted_set (slice_to point p1 ++ slice_from point p2) in
  let c2 := sorted_set (slice_to point p2 ++ slice_from point p1) in
  ret (c1, c2).

(** One entry of the mutant:
    [max(1, min(33, int(a[i] + de_scale * (b[i] - c[i]))))]. *)
Definition de_entry (de_scale : Q) (a b c : list Z) (i : nat) : result Z :=
  match a !! i, b !! i, c !! i with
  | Some x, Some y, Some z =>
      Ok (Z.max 1 (Z.min 33 (trunc (inject_Z x + de_scale * inject_Z (y - z)))))
  | _, _, _ => Raise IndexError
  end.

Definition _differential_mutation (de_scale : Q) (population : list (list Z))
    (idx : nat) : M (list Z) :=
  let others := filter (λ i, i ≠ idx) (seq 0 (length population)) in
  let! abc := Random.sample others 3 in
  match abc with
  | [a; b; c] =>
      match population !! a, population !! b, population !! c with
      | Some pa, Some pb, Some pc =>
          let! mutant := lift (GeneticModel.map_result (de_entry de_scale pa pb pc) (seq 0 6)) in
          ret (sorted mutant)
      | _, _, _ => raise IndexError
      end
  | _ => raise ValueError
  end.

End Nsga2Model.

(** ** compute/odd_even_balance_model.py *)

Module OddEvenBalanceModel.

Definition default_params : gmap string pyval :=
  list_to_map
    [("target_odd_count", VInt 3); ("odd_tolerance", VInt 1);
     ("use_history_trend", VBool true); ("history_window", VInt 50);
     ("prefer_odd_blue", VBool false);
     ("min_sum", VInt 70); ("max_sum", VInt 140); ("max_consecutive", VInt 2)].

Record t : Type := Self {
  history : list draw;
  params : gmap string pyval;
  target_odd : pyval;
  odd_tolerance : pyval;
  use_history_trend : pyval;
  history_window : pyval;
  prefer_odd_blue : pyval
}.

Definition init (history : list draw) (overrides : gmap string pyval) : result t :=
  let p := merge_params default_params overrides in
  let? a := getitem p "target_odd_count" in
  let? b := getitem p "odd_tolerance" in
  let? c := getitem p "use_history_trend" in
  let? d := getitem p "history_window" in
  let? e := getitem p "prefer_odd_blue" in
  Ok (Self history p a b c d e).

(** [odd_ratios]: one entry for every draw of the window with six reds. *)
Definition odd_ratios (recent : list draw) : list Q :=
  map (λ d, inject_Z (count_if is_odd (get_reds d)) / 6)%Q
    (filter (λ d, length (get_reds d) = 6%nat) recent).

Definition _get_historical_odd_preference (self : t) : result Q :=
  match history self with
  | [] => Ok (1 # 2)
  | _ =>
      if negb (truthy (use_history_trend self)) then Ok (1 # 2)
      else
        let? w := int (history_window self) in
        let ratios := odd_ratios (slice_from (- w) (history self)) in
        match ratios with
        | [] => Ok (1 # 2)
        | _ => Ok (mean ratios)
        end
  end.

Definition _check_constraints (self : t) (reds : list Z) : result bool :=
  if negb (Nat.eqb (length reds) 6) then Ok false else
  let odd_count := inject_Z (count_if is_odd reds) in
  let? target := num (target_odd self) in
  let? tol := num (odd_tolerance self) in
  if Qlt_bool tol (Qabs (odd_count - target)) then Ok false else
  let total := inject_Z (sumZ reds) in
  let? lo := getnum (params self) "min_sum" in
  let? out :=
    (if Qlt_bool total lo then Ok true
     else let? hi := getnum (params self) "max_sum" in
          Ok (Qlt_bool hi total)) in
  if out : bool then Ok false else
  RandomLotteryModel.consecutive_loop (params self) 0 reds.

(** [new_num = random.choice(all_reds)] followed by
    [while new_num in reds: new_num = random.choice(all_reds)]. *)
Fixpoint fresh_choice (reds : list Z) (t : tape) : result Z * tape :=
  match t with
  | [] => if memZ (nth 0 all_reds 1) reds then (Raise NonTermination, [])
          else (Ok (nth 0 all_reds 1), [])
  | n :: t' =>
      let new_num := nth (Z.to_nat (Z.of_N n mod Z.of_nat (length all_reds))) all_reds 1 in
      if memZ new_num reds then fresh_choice reds t' else (Ok new_num, t')
  end.

(** [for _ in range(20)]: replace one entry and sort until the constraints
    hold. *)
Fixpoint retry_loop (self : t) (passes : nat) (reds : list Z) : M (list Z) :=
  match passes with
  | O => ret reds
  | S passes' =>
      let! ok := lift (_check_constraints self reds) in
      if ok : bool then ret reds
      else
        let! idx := Random.randint 0 5 in
        let! new_num := fresh_choice reds in
        let! reds' := lift (GeneticModel.setitem reds idx new_num) in
        retry_loop self passes' (sorted reds')
  end.

Definition generate (self : t) : M candidate :=
  match history self with
  | [] => RandomLotteryModel.generate_default
  | _ =>
      let odds := filter (λ x, Is_true (is_odd x)) all_reds in
      let evens := filter (λ x, Is_true (x mod 2 =? 0)) all_reds in
      let! trend_odd_ratio := lift (_get_historical_odd_preference self) in
      let! target := lift (num (target_odd self)) in
      let adjusted_odd := pyround (target + (trend_odd_ratio - (1 # 2)) * 2) in
      let! lo := lift (getint (params self) "min_odd_count") in
      let! hi := lift (getint (params self) "max_odd_count") in
      let adjusted_odd := Z.max lo (Z.min hi adjusted_odd) in
      let num_odd := adjusted_odd in
      let! selected_odds := Random.sample odds (Z.min num_odd (Z.of_nat (length odds))) in
      let num_even := 6 - Z.of_nat (length selected_odds) in
      let! selected_evens := Random.sample evens (Z.min num_even (Z.of_nat (length evens))) in
      let reds := sorted (selected_odds ++ selected_evens) in
      let! reds := retry_loop self 20 reds in
      let! blue := RandomLotteryModel.pick_blue (prefer_odd_blue self) in
      ret (Candidate reds blue "odd_even_balance"
             [("params_used", params_used (params self));
              ("history_length", VInt (Z.of_nat (length (history self))));
              ("odd_count", VInt (count_if is_odd reds));
              ("sum_reds", VInt (sumZ reds));
              ("trend_odd_ratio", VFloat trend_odd_ratio)])
  end.

End OddEvenBalanceModel.

(** ** models/fusion_engine.py *)

(** The result [dict] of a [generate], as the Python value it is: its keys
    in the order of the literal. *)
Definition candidate_value (c : candidate) : pyval :=
  VDict [("reds", VList (map VInt (reds c)));
         ("blue", VInt (blue c));
         ("strategy", VStr (strategy c));
         ("extra_info", VDict (extra_info c))].

Module PyOps.

Fixpoint chars (s : string) : list pyval :=
  match s with
  | EmptyString => []
  | String a s' => VStr (String a EmptyString) :: chars s'
  end.

(** [for r in v]: the entries of a list, the keys of a dict, the characters
    of a string. *)
Definition iterate (v : pyval) : result (list pyval) :=
  match v with
  | VList l => Ok l
  | VDict d => Ok (map (λ kv, VStr (fst kv)) d)
  | VStr s => Ok (chars s)
  | _ => Raise TypeError
  end.

Fixpoint repeat_string (n : nat) (s : string) : string :=
  match n with
  | O => ""
  | S n' => s +:+ repeat_string n' s
  end.

(** [a * b]. *)
Definition mul (a b : pyval) : result pyval :=
  match a, b with
  | VInt x, VInt y => Ok (VInt (x * y))
  | VInt x, VBool y => Ok (VInt (x * Z.b2z y))
  | VBool x, VInt y => Ok (VInt (Z.b2z x * y))
  | VBool x, VBool y => Ok (VInt (Z.b2z x * Z.b2z y))
  | (VInt _ | VBool _ | VFloat _), VFloat _ | VFloat _, (VInt _ | VBool _) =>
      let? x := num a in let? y := num b in Ok (VFloat (x * y))
  | VStr s, (VInt _ | VBool _) | (VInt _ | VBool _), VStr s =>
      let? n := int (match a with VStr _ => b | _ => a end) in
      Ok (VStr (repeat_string (Z.to_nat n) s))
  | VList l, (VInt _ | VBool _) | (VInt _ | VBool _), VList l =>
      let? n := int (match a with VList _ => b | _ => a end) in
      Ok (VList (concat (replicate (Z.to_nat n) l)))
  | _, _ => Raise TypeError
  end.

(** [a + b]. *)
Definition add (a b : pyval) : result pyval :=
  match a, b with
  | VInt x, VInt y => Ok (VInt (x + y))
  | VInt x, VBool y => Ok (VInt (x + Z.b2z y))
  | VBool x, VInt y => Ok (VInt (Z.b2z x + y))
  | VBool x, VBool y => Ok (VInt (Z.b2z x + Z.b2z y))
  | (VInt _ | VBool _ | VFloat _), VFloat _ | VFloat _, (VInt _ | VBool _) =>
      let? x := num a in let? y := num b in Ok (VFloat (x + y))
  | VStr s, VStr s' => Ok (VStr (s +:+ s'))
  | VList l, VList l' => Ok (VList (l ++ l'))
  | _, _ => Raise TypeError
  end.

(** [sum(x)]: from [0], left to right. *)
Fixpoint sum_from (acc : pyval) (x : list pyval) : result pyval :=
  match x with
  | [] => Ok acc
  | v :: x' => let? acc' := add acc v in sum_from acc' x'
  end.

(** [a / n] for a number [a] and a length [n]. *)
Definition truediv (a : pyval) (n : Z) : result pyval :=
  let? x := num a in
  if n =? 0 then Raise ZeroDivisionError else Ok (VFloat (x / inject_Z n)).

(** [zip] over the unpacked rows: the columns, as long as the shortest
    row. *)
Fixpoint zip_star (rows : list (list pyval)) : list (list pyval) :=
  match rows with
  | [] => []
  | [r] => map (λ x, [x]) r
  | r :: rows' => zip_with cons r (zip_star rows')
  end.

(** [v[k] = x] for a string key [k]. *)
Fixpoint dict_set (d : list (string * pyval)) (k : string) (x : pyval)
  : list (string * pyval) :=
  match d with
  | [] => [(k, x)]
  | (k', y) :: d' => if String.eqb k k' then (k, x) :: d' else (k', y) :: dict_set d' k x
  end.

Definition setitem (v : pyval) (k : string) (x : pyval) : result pyval :=
  match v with
  | VDict d => Ok (VDict (dict_set d k x))
  | _ => Raise TypeError
  end.

End PyOps.

(** A model instance as its users see it: its [model_code] and its
    [generate]. *)
Record instance : Type := Instance {
  inst_code : string;
  inst_generate : M pyval
}.

Module FusionEngine.

Definition _apply_weight (result_ weight : pyval) : result (list pyval) :=
  let? rs := PyOps.iterate result_ in
  GeneticModel.map_result (λ r, PyOps.mul r weight) rs.

Definition _combine_results (results : list (list pyval)) : result (list pyval) :=
  GeneticModel.map_result
    (λ x, let? s := PyOps.sum_from (VInt 0) x in
          PyOps.truediv s (Z.of_nat (length x)))
    (PyOps.zip_star results).

(** The loop over [zip(self.models, self.weights)]. *)
Fixpoint weighted_results (pairs : list (instance * pyval)) : M (list (list pyval)) :=
  match pairs with
  | [] => ret []
  | (model, weight) :: pairs' =>
      let! r := inst_generate model in
      let! w := lift (_apply_weight r weight) in
      let! rest := weighted_results pairs' in
      ret (w :: rest)
  end.

Definition generate (models : list instance) (weights : list pyval) : M pyval :=
  let! weighted := weighted_results (zip models weights) in
  let! combined := lift (_combine_results weighted) in
  ret (VList combined).

End FusionEngine.

(** ** models/registry.py *)

Module Str.

(** ASCII white space, as [str.strip] removes it. *)
Definition is_space (a : Ascii.ascii) : bool :=
  let n := Ascii.nat_of_ascii a in
  Nat.eqb n 32 || (Nat.leb 9 n && Nat.leb n 13) || (Nat.leb 28 n && Nat.leb n 31).

Fixpoint lstrip (s : string) : string :=
  match s with
  | String a s' => if is_space a then lstrip s' else s
  | EmptyString => EmptyString
  end.

Fixpoint rstrip (s : string) : string :=
  match s with
  | String a s' =>
      match rstrip s' with
      | EmptyString => if is_space a then EmptyString else String a EmptyString
      | r => String a r
      end
  | EmptyString => EmptyString
  end.

Definition strip (s : string) : string := rstrip (lstrip s).

(** [str.lower] on ASCII letters. *)
Definition lower_ascii (a : Ascii.ascii) : Ascii.ascii :=
  let n := Ascii.nat_of_ascii a in
  if Nat.leb 65 n && Nat.leb n 90 then Ascii.ascii_of_nat (n + 32) else a.

Fixpoint lower (s : string) : string :=
  match s with
  | String a s' => String (lower_ascii a) (lower s')
  | EmptyString => EmptyString
  end.

End Str.

(** A model class: its name (the identity of the class object), its
    [model_code], its [default_params] and its constructor. *)
Record model_class : Type := ModelClass {
  cls_name : string;
  model_code : string;
  cls_default_params : gmap string pyval;
  cls_new : list draw → gmap string pyval → result instance
}.

Module ModelRegistry.

(** What [register] writes to the log. *)
Inductive event : Type :=
  | Skipped
  | Overwrote (old : string)
  | Registered.

Definition normalize (code : string) : string := Str.lower (Str.strip code).

Definition register (_models : gmap string model_class) (model_cls : model_class)
  : gmap string model_class * event :=
  let code := normalize (model_code model_cls) in
  match _models !! code with
  | Some old =>
      if String.eqb (cls_name old) (cls_name model_cls) then (_models, Skipped)
      else (<[code := model_cls]> _models, Overwrote (cls_name old))
  | None => (<[code := model_cls]> _models, Registered)
  end.

Definition get (_models : gmap string model_class) (model_code : string)
  : option model_class :=
  _models !! normalize model_code.

Definition exists_ (_models : gmap string model_class) (model_code : string) : bool :=
  bool_decide (is_Some (_models !! normalize model_code)).

End ModelRegistry.

(** ** compute/model_manager.py *)

(** One row of the permission table. *)
Record perm : Type := Perm {
  perm_model_code : string;
  perm_weight : pyval;
  perm_params : option (gmap string pyval)
}.

Module ModelManager.

(** [RandomLotteryModel().generate()], the fallback of every branch. *)
Definition random_baseline : M pyval :=
  let! c := RandomLotteryModel.generate_default in ret (candidate_value c).

(** The loop over the permissions: the classes that are registered and
    whose construction does not raise, with their weights. *)
Fixpoint load_models (_models : gmap string model_class) (history : list draw)
    (global_model_params : gmap string pyval) (permissions : list perm)
  : list instance * list pyval :=
  match permissions with
  | [] => ([], [])
  | p :: rest =>
      let loaded := load_models _models history global_model_params rest in
      match ModelRegistry.get _models (perm_model_code p) with
      | None => loaded
      | Some model_cls =>
          let model_params :=
            merge_params
              (merge_params (cls_default_params model_cls) (default ∅ (perm_params p)))
              global_model_params in
          match cls_new model_cls history model_params with
          | Ok model => (model :: fst loaded, perm_weight p :: snd loaded)
          | Raise _ => loaded
          end
      end
  end.

Definition single (model : instance) (weight : pyval) : M pyval :=
  catch
    (let! r := inst_generate model in
     let! r := lift (PyOps.setitem r "model_used" (VStr (inst_code model))) in
     lift (PyOps.setitem r "weight" weight))
    (λ _, random_baseline).

Definition fused (models : list instance) (weights : list pyval) : M pyval :=
  catch
    (let! r := FusionEngine.generate models weights in
     let! r := lift (PyOps.setitem r "model_used" (VStr "fusion")) in
     let! r := lift (PyOps.setitem r "models" (VList (map (λ m, VStr (inst_code m)) models))) in
     lift (PyOps.setitem r "weights" (VList weights)))
    (λ _, random_baseline).

(** [execute]: [history] is what [HistoryService.get_last_n_draws] returned
    and [permissions] what [get_permissions_by_role] returned for the role. *)
Definition execute (role : string) (history : list draw) (permissions : list perm)
    (_models : gmap string model_class) (global_model_params : gmap string pyval)
  : M pyval :=
  if String.eqb role "normal" then random_baseline
  else
    match history with
    | [] => random_baseline
    | _ =>
        match permissions with
        | [] => random_baseline
        | _ =>
            let loaded := load_models _models history global_model_params permissions in
            match fst loaded, snd loaded with
            | [], _ => random_baseline
            | [model], weight :: _ => single model weight
            | [_], [] => random_baseline
            | models, weights => fused models weights
            end
        end
    end.

End ModelManager.

(** ** services/backtest_service.py and tasks/backtest_tasks.py *)

(** A row of the draw table ([models/kaijiang.py]). *)
Record kaijiang : Type := Kaijiang {
  qi_shu : string;
  red1 : Z; red2 : Z; red3 : Z; red4 : Z; red5 : Z; red6 : Z;
  k_blue : Z
}.

Definition actual_red (a : kaijiang) : list Z :=
  [red1 a; red2 a; red3 a; red4 a; red5 a; red6 a].

(** What [generate_with_custom_history] returns, read through ["reds"] and
    ["blue"]. *)
Record prediction : Type := Prediction {
  pred_reds : list Z;
  pred_blue : Z
}.

(** One entry of [curve]. *)
Record curve_point : Type := CurvePoint {
  c_qi_shu : string;
  c_pred_red : list Z;
  c_pred_blue : Z;
  c_actual_red : list Z;
  c_actual_blue : Z;
  c_red_hit : Z;
  c_blue_hit : Z;
  c_profit : Q;
  c_cum_profit : Q
}.

(** A row of [backtest_records] ([models/backtest_records.py]). *)
Record BacktestRecord : Type := MkBacktestRecord {
  params_version : string;
  start_qi_shu : string;
  end_qi_shu : string;
  periods : Z;
  avg_hit : Q;
  hit_rate : Q;
  total_profit : Q;
  roi : Q;
  max_streak : Z;
  curve_data : list curve_point;
  status : string;
  task_id : option string;
  created_by : Z;
  bet_amount : Q;
  model_mode : string;
  finished_at : option Z
}.

(** The two tables the service touches: the parameter snapshots by version
    and the backtest records by id, with the next id of the latter. *)
Record DB : Type := MkDB {
  snapshots : gmap string (gmap string pyval);
  records : gmap Z BacktestRecord;
  next_id : Z
}.

(** [round(x, ndigits)]. *)
Definition round_to (q : Q) (ndigits : Z) : Q :=
  (inject_Z (pyround (q * inject_Z (10 ^ ndigits))) / inject_Z (10 ^ ndigits))%Q.

Module BacktestService.

Definition PRIZE_RULES (red_hit blue_hit : Z) : option Q :=
  match red_hit, blue_hit with
  | 6, 1 => Some 5000000%Q
  | 6, 0 => Some 1000000%Q
  | 5, 1 => Some 300000%Q
  | 5, 0 => Some 100000%Q
  | 4, 1 => Some 3000%Q
  | 4, 0 => Some 200%Q
  | 3, 1 => Some 200%Q
  | 2, 1 => Some 10%Q
  | 1, 1 => Some 5%Q
  | 0, 1 => Some 5%Q
  | _, _ => None
  end.

(** The variables the replay loop updates. *)
Record run : Type := Run {
  curve : list curve_point;
  r_total_profit : Q;
  total_bets : Q;
  win_3plus : Z;
  current_streak : Z;
  r_max_streak : Z;
  red_hits : list Z
}.

Definition run0 : run := Run [] 0 0 0 0 0 [].

(** The strategy under replay: [engine.generate_with_custom_history] on a
    history slice, the snapshot parameters and the mode. *)
Definition engine_t : Type :=
  list kaijiang → gmap string pyval → string → M prediction.

(** The scoring of one period, after the prediction. *)
Definition score (bet_amount : Q) (actual : kaijiang) (pred : prediction) (st : run) : run :=
  let red_hit := overlap_count (pred_reds pred) (actual_red actual) in
  let blue_hit := if pred_blue pred =? k_blue actual then 1 else 0 in
  let prize := default 0%Q (PRIZE_RULES red_hit blue_hit) in
  let profit := (prize - bet_amount)%Q in
  let total_profit := fl (r_total_profit st + profit) in
  let streak := if 3 <=? red_hit then current_streak st + 1 else 0 in
  Run (curve st ++
         [CurvePoint (qi_shu actual) (pred_reds pred) (pred_blue pred)
            (actual_red actual) (k_blue actual) red_hit blue_hit profit total_profit])
      total_profit
      (fl (total_bets st + bet_amount))
      (if 3 <=? red_hit then win_3plus st + 1 else win_3plus st)
      streak
      (if 3 <=? red_hit then Z.max (r_max_streak st) streak else r_max_streak st)
      (red_hits st ++ [red_hit]).

(** The body of [for i in range(history_window, len(all_draws))]. *)
Definition period (engine : engine_t) (all_draws : list kaijiang)
    (params : gmap string pyval) (bet_amount : Q) (model_mode : string)
    (i : Z) (st : run) : M run :=
  let history_slice := slice_to i all_draws in
  let! actual := lift (index all_draws i) in
  let! pred := engine history_slice params model_mode in
  ret (score bet_amount actual pred st).

Fixpoint replay (engine : engine_t) (all_draws : list kaijiang)
    (params : gmap string pyval) (bet_amount : Q) (model_mode : string)
    (idxs : list Z) (st : run) : M run :=
  match idxs with
  | [] => ret st
  | i :: idxs' =>
      let! st' := period engine all_draws params bet_amount model_mode i st in
      replay engine all_draws params bet_amount model_mode idxs' st'
  end.

(** The returned statistics. *)
Record stats : Type := Stats {
  s_periods : Z;
  s_avg_hit : Q;
  s_hit_rate : Q;
  s_total_profit : Q;
  s_roi : Q;
  s_max_streak : Z
}.

(** The three locals computed after the loop. *)
Definition final_avg_hit (st : run) : Q :=
  let periods := Z.of_nat (length (curve st)) in
  if periods =? 0 then 0%Q else (inject_Z (sumZ (red_hits st)) / inject_Z periods)%Q.

Definition final_hit_rate (st : run) : Q :=
  let periods := Z.of_nat (length (curve st)) in
  if periods =? 0 then 0%Q else (inject_Z (win_3plus st) / inject_Z periods * 100)%Q.

Definition final_roi (st : run) : Q :=
  if Qlt_bool 0 (total_bets st) then (r_total_profit st / total_bets st * 100)%Q else 0%Q.

Definition finalize (st : run) : stats :=
  Stats (Z.of_nat (length (curve st)))
    (round_to (final_avg_hit st) 4) (round_to (final_hit_rate st) 2)
    (r_total_profit st) (round_to (final_roi st) 2) (r_max_streak st).

(** The assignments to the record before [db.commit()]. *)
Definition complete (now : Z) (st : run) (r : BacktestRecord) : BacktestRecord :=
  let s := finalize st in
  MkBacktestRecord (params_version r) (start_qi_shu r) (end_qi_shu r)
    (s_periods s) (s_avg_hit s) (s_hit_rate s) (s_total_profit s) (s_roi s)
    (s_max_streak s) (curve st) "completed" (task_id r) (created_by r)
    (bet_amount r) (model_mode r) (Some now).

(** [execute_backtest]: [all_draws] is what the range query returned and
    [now] the clock at completion.  The result carries the database as the
    call leaves it. *)
Definition execute_backtest (engine : engine_t) (all_draws : list kaijiang) (now : Z)
    (db : DB) (record_id : Z) (version : string) (bet : Q) (mode : string)
  : tape → result stats * DB * tape :=
  λ t,
  let params := default ∅ (snapshots db !! version) in
  if Nat.ltb (length all_draws) 50 then (Raise ValueError, db, t)
  else
    match int (default (VInt 50) (params !! "history_window")) with
    | Raise e => (Raise e, db, t)
    | Ok hw =>
        let idxs := seqZ hw (Z.of_nat (length all_draws) - hw) in
        match replay engine all_draws params bet mode idxs run0 t with
        | (Raise e, t') => (Raise e, db, t')
        | (Ok st, t') =>
            let db' :=
              match records db !! record_id with
              | Some r => MkDB (snapshots db)
                            (<[record_id := complete now st r]> (records db)) (next_id db)
              | None => db
              end in
            (Ok (finalize st), db', t')
        end
    end.

(** [start_backtest]: the record is created with status ["running"]. *)
Definition start_backtest (db : DB) (task : string) (user_id : Z) (version start_ end_ : string)
    (bet : Q) (mode : string) : result Z * DB :=
  match snapshots db !! version with
  | None => (Raise ValueError, db)
  | Some _ =>
      let r := MkBacktestRecord version start_ end_ 0 0 0 0 0 0 [] "running"
                 (Some task) user_id bet mode None in
      (Ok (next_id db),
       MkDB (snapshots db) (<[next_id db := r]> (records db)) (next_id db + 1))
  end.

End BacktestService.

Module BacktestTasks.

Definition max_retries : Z := 3.

(** [self.retry(exc=exc, countdown=30)] of celery: the exception to raise,
    [Retry] while retries are left and [exc] itself after the last one. *)
Definition retry (retries : Z) (exc : exn) : exn :=
  if retries <? max_retries then Retry exc else exc.

(** [run_backtest_task]: the task hands its own request id over as the
    record id. *)
Definition run_backtest_task (engine : BacktestService.engine_t)
    (all_draws : list kaijiang) (now : Z) (db : DB) (request_id retries : Z)
    (version : string) (bet : Q) (mode : string)
  : tape → result BacktestService.stats * DB * tape :=
  λ t,
  match BacktestService.execute_backtest engine all_draws now db request_id version bet mode t with
  | (Ok r, db', t') => (Ok r, db', t')
  | (Raise exc, db', t') => (Raise (retry retries exc), db', t')
  end.

End BacktestTasks.

(** ** Reference predicates *)

(** The rules on the odd count and on the sum: six entries, both numbers
    within their bounds. *)
Definition count_and_sum_ok (lo hi smin smax : Q) (reds : list Z) : bool :=
  Nat.eqb (length reds) 6
  && Qle_bool lo (inject_Z (count_if is_odd reds))
  && Qle_bool (inject_Z (count_if is_odd reds)) hi
  && Qle_bool smin (inject_Z (sumZ reds))
  && Qle_bool (inject_Z (sumZ reds)) smax.

(** The rule on adjacent values: no more adjacent pairs in the whole
    combination than [mc] (nothing is compared when there is no pair). *)
Definition pairs_ok (mc : Q) (reds : list Z) : bool :=
  (adjacent_pairs reds =? 0) || Qle_bool (inject_Z (adjacent_pairs reds)) mc.

(** The acceptance rule the constraint checks implement. *)
Definition accepts (lo hi smin smax mc : Q) (reds : list Z) : bool :=
  count_and_sum_ok lo hi smin smax reds && pairs_ok mc reds.

(** The zone rule of the Bayesian check: every third of [1..33] is hit. *)
Definition zones_hit (reds : list Z) : bool :=
  negb (count_if (λ x, x <=? 11) reds =? 0)
  && negb (count_if (λ x, (12 <=? x) && (x <=? 22)) reds =? 0)
  && negb (count_if (λ x, 23 <=? x) reds =? 0).

(** The run length as the specification words it: the adjacent pairs of one
    run, counted afresh after every break; [longest_run] is the largest
    count reached. *)
Fixpoint longest_run_go (current best : Z) (l : list Z) : Z :=
  match l with
  | x :: ((y :: _) as l') =>
      if y - x =? 1 then longest_run_go (current + 1) (Z.max best (current + 1)) l'
      else longest_run_go 0 best l'
  | _ => best
  end.

Definition longest_run (l : list Z) : Z := longest_run_go 0 0 l.

(** The historical occurrences of the red number [r] in a window. *)
Definition occurrences (r : Z) (recent : list draw) : Z :=
  sumZ (map (λ d, count_if (Z.eqb r) (get_reds d)) recent).

(** A permission resolves when its code is registered and the construction
    of the model returns. *)
Definition resolves (_models : gmap string model_class) (history : list draw)
    (global_model_params : gmap string pyval) (p : perm) : Prop :=
  ∃ model_cls model,
    ModelRegistry.get _models (perm_model_code p) = Some model_cls
    ∧ cls_new model_cls history
        (merge_params
           (merge_params (cls_default_params model_cls) (default ∅ (perm_params p)))
           global_model_params) = Ok model.

(** The classes of [compute/] as the registry holds them. *)
Module Classes.

Definition of_generate {T} (code : string) (init : list draw → gmap string pyval → result T)
    (generate : T → M candidate) (history : list draw) (params : gmap string pyval)
  : result instance :=
  let? self := init history params in
  Ok (Instance code (let! c := generate self in ret (candidate_value c))).

Definition RandomLotteryModel : model_class :=
  ModelClass "RandomLotteryModel" "random" RandomLotteryModel.default_params
    (of_generate "random" RandomLotteryModel.init RandomLotteryModel.generate).

Definition OddEvenBalanceModel : model_class :=
  ModelClass "OddEvenBalanceModel" "odd_even_balance" OddEvenBalanceModel.default_params
    (of_generate "odd_even_balance" OddEvenBalanceModel.init OddEvenBalanceModel.generate).

Definition GeneticModel : model_class :=
  ModelClass "GeneticModel" "genetic_model" GeneticModel.default_params
    (of_generate "genetic_model" GeneticModel.init GeneticModel.generate).

(** The registry after these three registrations. *)
Definition registered : gmap string model_class :=
  foldl (λ m c, fst (ModelRegistry.register m c)) ∅
    [RandomLotteryModel; OddEvenBalanceModel; GeneticModel].

End Classes.

(** ** Statistics of a per-period log *)

Module Curve.



(** The cumulative profit over the cumulative bet, in percent. *)
Definition roi (bet : Q) (curve : list curve_point) : Q :=
  (sumQ (map c_profit curve) / (inject_Z (Z.of_nat (length curve)) * bet) * 100)%Q.

(** A log entry is scored by the prize table. *)
Definition scored (bet : Q) (c : curve_point) : Prop :=
  c_red_hit c = overlap_count (c_pred_red c) (c_actual_red c)
  ∧ c_blue_hit c = (if c_pred_blue c =? c_actual_blue c then 1 else 0)
  ∧ c_profit c = (default 0%Q (BacktestService.PRIZE_RULES (c_red_hit c) (c_blue_hit c)) - bet)%Q.

(** The longest run of consecutive entries with at least three red hits. *)
Fixpoint longest_streak_go (current best : Z) (curve : list curve_point) : Z :=
  match curve with
  | [] => best
  | c :: curve' =>
      if 3 <=? c_red_hit c
      then longest_streak_go (current + 1) (Z.max best (current + 1)) curve'
      else longest_streak_go 0 best curve'
  end.

Definition longest_streak (curve : list curve_point) : Z := longest_streak_go 0 0 curve.

End Curve.

(** A strategy that always predicts the draw that follows the history it is
    shown, out of [all_draws]. *)
Definition perfect_engine (all_draws : list kaijiang) : BacktestService.engine_t :=
  λ history_slice _ _,
    match all_draws !! length history_slice with
    | Some a => ret (Prediction (actual_red a) (k_blue a))
    | None => raise IndexError
    end.

(** A strategy that raises on every call. *)
Definition failing_engine (e : exn) : BacktestService.engine_t := λ _ _ _, raise e.



(** ** Fixtures *)

Module Fixture.

(** Fifty-one draws with six distinct reds each. *)
Definition draws : list kaijiang :=
  map (λ k, Kaijiang "p" (1 + k mod 5) (7 + k mod 5) (13 + k mod 5) (19 + k mod 5)
              (25 + k mod 5) (31 + k mod 3) (1 + k mod 16))
    (seqZ 0 51).

Definition record0 : BacktestRecord :=
  MkBacktestRecord "v1" "p" "p" 0 0 0 0 0 0 [] "running" (Some "task") 1 2 "entropy" None.

(** A database with one running record and a snapshot without parameters. *)
Definition db0 : DB := MkDB {["v1" := ∅]} {[1 := record0]} 2.


End Fixture.

(** The failing run of the single-objective genetic model: ten identical
    valid draws, the default parameters, and the outcomes of the random
    calls that make the first two individuals [2,3,8,15,20,27] and
    [3,4,15,20,27,32], pair them once at crossover point 1 and never
    mutate. *)
Module GeneticRun.

Definition last_reds : list Z := [3; 8; 15; 20; 27; 32].

Definition history : list draw := replicate 10 (Draw (Some last_reds) None (Some 5)).

(** [random()] read from this entry is about 0.3, from [half] it is 0.5. *)
Definition third : N := 2702159776422298%N.
Definition half : N := (2 ^ 52)%N.

Definition outcomes : tape :=
  [1; 1; 5; 11; 15; 21; 2; 2; 12; 16; 22; 26]%N ++ replicate 708 0%N
  ++ [0; third; 0; half; half]%N
  ++ concat (replicate 3179 [0; 0; 0; half; half]%N).

End GeneticRun.

(** ** Invariants used in the proofs *)

Module Replay.

(** The streak counters after one more log entry. *)
Definition streak_step (s : Z * Z) (c : curve_point) : Z * Z :=
  if 3 <=? c_red_hit c then (fst s + 1, Z.max (snd s) (fst s + 1)) else (0, snd s).

(** What the replay loop keeps true of its variables. *)
Record Inv (bet : Q) (st : BacktestService.run) : Prop := {
  inv_hits : BacktestService.red_hits st = map c_red_hit (BacktestService.curve st);
  inv_win : BacktestService.win_3plus st
            = count_if (λ c, 3 <=? c_red_hit c) (BacktestService.curve st);
  inv_bets : (BacktestService.total_bets st
              == inject_Z (Z.of_nat (length (BacktestService.curve st))) * bet)%Q;
  inv_profit : (BacktestService.r_total_profit st
                == sumQ (map c_profit (BacktestService.curve st)))%Q;
  inv_scored : Forall (Curve.scored bet) (BacktestService.curve st);
  inv_streak : (BacktestService.current_streak st, BacktestService.r_max_streak st)
               = foldl streak_step (0, 0) (BacktestService.curve st)
}.

End Replay.

(** The order of the keys in [sorted_idx]. *)
Definition key_le (a b : nat * Q) : Prop := (snd a <= snd b)%Q.

(** ** Predicates used in the further properties *)

(** A genetic individual between mutation and sorting: six distinct
    numbers of [1..33] in any order. *)
Definition Individual (l : list Z) : Prop :=
  length l = 6%nat ∧ NoDup l ∧ Forall (in_range 1 33) l.

(** [d.get(k)] on the key-value list of a dict. *)
Fixpoint dict_get (d : list (string * pyval)) (k : string) : option pyval :=
  match d with
  | [] => None
  | (k', v) :: d' => if String.eqb k k' then Some v else dict_get d' k
  end.


(** ** compute/markov_model.py: the objective vector *)

Module Nsga2Fitness.

(** Objective 1 of [_fitness_vector], the history match. *)
Definition history_match (history : list draw) (params : gmap string pyval)
    (history_window : Z) (reds : list Z) : result Q :=
  match history with
  | [] => Ok 0%Q
  | _ =>
      let recent := slice_from (- history_window) history in
      let? last := index recent (-1) in
      let overlap := (inject_Z (overlap_count reds (get_reds last)) / 6)%Q in
      let? w := getnum params "history_match_weight" in
      Ok (overlap * w)%Q
  end.

(** Objective 4, the plausibility of the sum. *)
Definition sum_fit (params : gmap string pyval) (total : Q) : result Q :=
  let? lo := getnum params "min_sum" in
  let? inside :=
    (if Qle_bool lo total
     then let? hi := getnum params "max_sum" in Ok (Qle_bool total hi)
     else Ok false) in
  if inside : bool then let? w := getnum params "sum_weight" in Ok (1 * w)%Q
  else
    let? lo := getnum params "min_sum" in
    let? hi := getnum params "max_sum" in
    let dist := pymin (Qabs (total - lo)) (Qabs (total - hi)) in
    let? w := getnum params "sum_weight" in
    Ok (pymax 0 (1 - dist / 50) * w)%Q.

(** [_fitness_vector]: the five objectives, on the attributes of [self] it
    reads. *)
Definition _fitness_vector (history : list draw) (params : gmap string pyval)
    (history_window : Z) (reds : list Z) : result (list Q) :=
  let? v0 := history_match history params history_window reds in
  let odd := count_if is_odd reds in
  let? w1 := getnum params "odd_even_weight" in
  let v1 := ((1 - inject_Z (Z.abs (odd - 3)) / 3) * w1)%Q in
  let z1 := count_if (λ x, x <=? 11) reds in
  let z2 := count_if (λ x, (12 <=? x) && (x <=? 22)) reds in
  let z3 := count_if (λ x, 23 <=? x) reds in
  let zone_score := Z.min 1 z1 + Z.min 1 z2 + Z.min 1 z3 in
  let? w2 := getnum params "zone_weight" in
  let v2 := (inject_Z zone_score / 3 * w2)%Q in
  let? v3 := sum_fit params (inject_Z (sumZ reds)) in
  let consecutive := adjacent_pairs reds in
  let? w4 := getnum params "consecutive_penalty" in
  let v4 := (- inject_Z consecutive * w4)%Q in
  Ok [v0; v1; v2; v3; v4].

End Nsga2Fitness.

(** * Proofs *)


(** ** Sorting *)

Section SortingFacts.
Context {A : Type} (leb : A → A → bool).

Lemma insert_sorted_perm (x : A) (l : list A) :
  Permutation (insert_sorted leb x l) (x :: l).
Proof.
  induction l as [|y l IH]; simpl; [done|].
  destruct (leb x y); [done|].
  rewrite IH. apply perm_swap.
Qed.

Lemma sorted_by_perm (l : list A) : Permutation (sorted_by leb l) l.
Proof.
  induction l as [|x l IH]; simpl; [done|].
  rewrite insert_sorted_perm. by rewrite IH.
Qed.

Lemma sorted_by_length (l : list A) : length (sorted_by leb l) = length l.
Proof. apply Permutation_length, sorted_by_perm. Qed.

Context (R : A → A → Prop).
Hypothesis leb_true : ∀ x y, leb x y = true → R x y.
Hypothesis leb_false : ∀ x y, leb x y = false → R y x.

Lemma insert_sorted_hdrel (a x : A) (l : list A) :
  R a x → HdRel R a l → HdRel R a (insert_sorted leb x l).
Proof.
  intros Hax Hal. destruct l as [|y l]; simpl; [by constructor|].
  destruct (leb x y); constructor; [done|].
  by inversion Hal.
Qed.

Lemma insert_sorted_sorted (x : A) (l : list A) :
  Sorted R l → Sorted R (insert_sorted leb x l).
Proof.
  induction 1 as [|y l Hs IH Hhd]; simpl.
  - repeat constructor.
  - destruct (leb x y) eqn:E.
    + constructor; [by constructor|]. constructor. by apply leb_true.
    + constructor; [done|]. apply insert_sorted_hdrel; [|done].
      by apply leb_false.
Qed.

Lemma sorted_by_sorted (l : list A) : Sorted R (sorted_by leb l).
Proof.
  induction l as [|x l IH]; simpl; [constructor|].
  by apply insert_sorted_sorted.
Qed.
End SortingFacts.

Lemma sorted_Sorted (l : list Z) : Sorted Z.le (sorted l).
Proof.
  apply (sorted_by_sorted Z.leb Z.le); intros x y H; lia.
Qed.

Lemma sorted_perm (l : list Z) : Permutation (sorted l) l.
Proof. apply sorted_by_perm. Qed.

(** ** Sampling *)

Lemma next_ok (t : tape) : ∃ n t', next t = (Ok n, t').
Proof. destruct t; simpl; eauto. Qed.

Lemma sample_go_step {A} (x0 : A) (rest : list A) (k : nat) (t : tape) :
  Random.sample_go (x0 :: rest) (S k) t =
  (let! n := next in
   let j := Z.to_nat (Z.of_N n mod Z.of_nat (length (x0 :: rest))) in
   let! r := Random.sample_go (delete j (x0 :: rest)) k in
   ret (nth j (x0 :: rest) x0 :: r)) t.
Proof. reflexivity. Qed.

Lemma sample_go_spec {A} (k : nat) : ∀ (pool : list A) (t : tape),
  (k ≤ length pool)%nat → NoDup pool →
  ∃ xs t', Random.sample_go pool k t = (Ok xs, t')
           ∧ length xs = k ∧ NoDup xs ∧ xs ⊆ pool.
Proof.
  induction k as [|k IH]; intros pool t Hk Hnd.
  - exists [], t. repeat split; [constructor|]. set_solver.
  - destruct pool as [|x0 pool0]; [simpl in Hk; lia|].
    rewrite sample_go_step. remember (x0 :: pool0) as pool eqn:Hp.
    assert (Hlen : (0 < length pool)%nat) by (rewrite Hp; simpl; lia).
    destruct (next_ok t) as (n & t1 & Hn).
    unfold bind at 1. rewrite Hn. cbv zeta.
    set (j := Z.to_nat (Z.of_N n mod Z.of_nat (length pool))).
    assert (Hj : (j < length pool)%nat).
    { subst j. pose proof (Z.mod_pos_bound (Z.of_N n) (Z.of_nat (length pool))). lia. }
    destruct (IH (delete j pool) t1) as (xs & t' & Hgo & Hl & Hnd' & Hsub).
    { rewrite length_delete; [lia|]. by apply lookup_lt_is_Some. }
    { eapply sublist_NoDup; [done|apply sublist_delete]. }
    exists (nth j pool x0 :: xs), t'.
    unfold bind. rewrite Hgo. unfold ret.
    destruct (lookup_lt_is_Some_2 pool j Hj) as [y Hy].
    assert (Hnth : nth j pool x0 = y) by (by apply nth_lookup_Some).
    rewrite Hnth.
    split; [done|]. split; [simpl; lia|]. split.
    + constructor; [|done]. intros Hin. apply Hsub in Hin.
      rewrite delete_take_drop in Hin.
      rewrite <- (take_drop_middle pool j y Hy) in Hnd.
      apply NoDup_app in Hnd as (_ & Hd1 & Hd2). apply NoDup_cons in Hd2 as [Hd2 _].
      apply elem_of_app in Hin as [Hi|Hi].
      * apply (Hd1 _ Hi). left.
      * done.
    + intros z Hz. apply elem_of_cons in Hz as [->|Hz].
      * by eapply list_elem_of_lookup_2.
      * apply Hsub in Hz. eapply elem_of_sublist; [done|apply sublist_delete].
Qed.

Lemma sample_spec {A} (pool : list A) (k : Z) (t : tape) :
  0 ≤ k ≤ Z.of_nat (length pool) → NoDup pool →
  ∃ xs t', Random.sample pool k t = (Ok xs, t')
           ∧ Z.of_nat (length xs) = k ∧ NoDup xs ∧ xs ⊆ pool.
Proof.
  intros Hk Hnd. unfold Random.sample.
  replace ((k <? 0) || (Z.of_nat (length pool) <? k)) with false by lia.
  destruct (sample_go_spec (Z.to_nat k) pool t) as (xs & t' & -> & Hl & ? & ?); [lia|done|].
  exists xs, t'. repeat split; [lia|done|done].
Qed.

Lemma randint_spec (a b : Z) (t : tape) :
  a ≤ b → ∃ x t', Random.randint a b t = (Ok x, t') ∧ a ≤ x ≤ b.
Proof.
  intros Hab. unfold Random.randint. replace (b <? a) with false by lia.
  destruct (next_ok t) as (n & t' & Hn). unfold bind. rewrite Hn.
  eexists _, _. split; [reflexivity|].
  pose proof (Z.mod_pos_bound (Z.of_N n) (b - a + 1)). lia.
Qed.

Lemma choice_spec {A} (l : list A) (t : tape) :
  l ≠ [] → ∃ x t', Random.choice l t = (Ok x, t') ∧ x ∈ l.
Proof.
  intros Hl. destruct l as [|x0 l0]; [done|]. unfold Random.choice.
  destruct (next_ok t) as (n & t' & Hn). unfold bind. rewrite Hn.
  eexists _, _. split; [reflexivity|].
  apply list_elem_of_In, nth_In.
  pose proof (Z.mod_pos_bound (Z.of_N n) (Z.of_nat (length (x0 :: l0)))).
  simpl length in *. lia.
Qed.

(** ** Structural validity *)

Lemma all_reds_range (x : Z) : x ∈ all_reds → in_range 1 33 x.
Proof. unfold all_reds, in_range. rewrite elem_of_seqZ. lia. Qed.

Lemma all_reds_NoDup : NoDup all_reds.
Proof. apply NoDup_seqZ. Qed.

Lemma sorted_valid (l : list Z) :
  length l = 6%nat → NoDup l → (∀ x, x ∈ l → in_range 1 33 x) → ValidReds (sorted l).
Proof.
  intros Hl Hnd Hr. pose proof (sorted_perm l) as Hp. repeat split.
  - by rewrite (Permutation_length Hp).
  - by rewrite Hp.
  - apply Forall_forall. intros x Hx. apply Hr. by rewrite <- Hp.
  - apply sorted_Sorted.
Qed.

Lemma filter_all_reds_NoDup (P : Z → Prop) `{∀ x, Decision (P x)} :
  NoDup (filter P all_reds).
Proof. apply NoDup_filter, all_reds_NoDup. Qed.

Lemma draw_reds_valid (self : RandomLotteryModel.t) (t : tape) :
  ∃ reds t', RandomLotteryModel.draw_reds self t = (Ok reds, t') ∧ ValidReds reds.
Proof.
  unfold RandomLotteryModel.draw_reds.
  destruct (truthy (RandomLotteryModel.prefer_odd_red self)).
  - destruct (randint_spec 3 4 t) as (k & t1 & Hk & Hr); [lia|].
    set (odds := filter (λ x, Is_true (is_odd x)) all_reds).
    set (evens := filter (λ x, Is_true (x mod 2 =? 0)) all_reds).
    assert (Ho : length odds = 17%nat) by reflexivity.
    assert (He : length evens = 16%nat) by reflexivity.
    destruct (sample_spec odds k t1) as (so & t2 & Hso & Hlo & Hndo & Hsubo);
      [lia|apply filter_all_reds_NoDup|].
    destruct (sample_spec evens (6 - k) t2) as (se & t3 & Hse & Hle & Hnde & Hsube);
      [lia|apply filter_all_reds_NoDup|].
    exists (sorted (so ++ se)), t3. split.
    + unfold bind. rewrite Hk, Hso, Hse. reflexivity.
    + apply sorted_valid.
      * rewrite length_app. lia.
      * apply NoDup_app. split; [done|]. split; [|done].
        intros x Hx1 Hx2. apply Hsubo in Hx1. apply Hsube in Hx2.
        apply list_elem_of_filter in Hx1 as [Hx1 _].
        apply list_elem_of_filter in Hx2 as [Hx2 _].
        unfold is_odd in Hx1. apply Is_true_true in Hx1, Hx2. lia.
      * intros x Hx. apply elem_of_app in Hx as [Hx|Hx];
          [apply Hsubo in Hx|apply Hsube in Hx];
          apply list_elem_of_filter in Hx as [_ Hx]; by apply all_reds_range.
  - destruct (sample_spec all_reds 6 t) as (xs & t1 & Hxs & Hl & Hnd & Hsub);
      [done|apply all_reds_NoDup|].
    exists (sorted xs), t1. split.
    + unfold bind. rewrite Hxs. reflexivity.
    + apply sorted_valid; [lia|done|]. intros x Hx. by apply all_reds_range, Hsub.
Qed.

Lemma pick_blue_valid (v : pyval) (t : tape) :
  ∃ b t', RandomLotteryModel.pick_blue v t = (Ok b, t') ∧ in_range 1 16 b.
Proof.
  unfold RandomLotteryModel.pick_blue. destruct (truthy v).
  - set (odd_blues := filter (λ b, Is_true (is_odd b)) (seqZ 1 16)).
    destruct odd_blues as [|b0 bs] eqn:E; [by apply randint_spec|].
    destruct (choice_spec (b0 :: bs) t) as (x & t' & Hc & Hx); [done|].
    exists x, t'. split; [done|]. rewrite <- E in Hx. subst odd_blues.
    apply list_elem_of_filter in Hx as [_ Hx]. apply elem_of_seqZ in Hx.
    unfold in_range. lia.
  - by apply randint_spec.
Qed.

(** The loop keeps a valid combination as soon as it has made one pass, as
    long as the constraint check returns. *)
Lemma attempt_loop_valid (self : RandomLotteryModel.t) :
  (∀ reds, ∃ b, RandomLotteryModel._check_constraints self reds = Ok b) →
  ∀ (passes : nat) (attempt : Z) (st : option (list Z * Z)) (t : tape),
  (∀ p, st = Some p → ValidReds (fst p)) →
  ∃ st' t', RandomLotteryModel.attempt_loop self passes attempt st t = (Ok st', t')
            ∧ (∀ p, st' = Some p → ValidReds (fst p))
            ∧ (passes ≠ O → is_Some st').
Proof.
  intros Hc. induction passes as [|passes IH]; intros attempt st t Hst.
  - exists st, t. split; [done|]. split; [done|]. done.
  - cbn [RandomLotteryModel.attempt_loop].
    destruct (draw_reds_valid self t) as (reds & t1 & Hd & Hv).
    destruct (Hc reds) as [b Hb].
    unfold bind at 1. rewrite Hd. unfold bind at 1, lift. rewrite Hb.
    destruct b.
    + eexists _, _. split; [reflexivity|]. split; [|eauto].
      by intros p [= <-].
    + destruct (IH (attempt + 1) (Some (reds, attempt)) t1) as (st' & t' & Heq & Hv' & Hs).
      { by intros p [= <-]. }
      exists st', t'. split; [done|]. split; [done|]. intros _.
      destruct passes; [|by apply Hs]. simpl in Heq. inversion Heq. eauto.
Qed.

(** ** The constraint check *)

Lemma Qle_bool_inject (a b : Z) : Qle_bool (inject_Z a) (inject_Z b) = (a <=? b).
Proof.
  destruct (a <=? b) eqn:E.
  - apply Qle_bool_iff. rewrite <- Zle_Qle. lia.
  - apply not_true_is_false. intros H%Qle_bool_iff. rewrite <- Zle_Qle in H. lia.
Qed.

Lemma Qlt_bool_iff (a b : Q) : Qlt_bool a b = true ↔ (a < b)%Q.
Proof.
  unfold Qlt_bool. rewrite negb_true_iff. split.
  - intros H. apply Qnot_le_lt. intros Hle. apply Qle_bool_iff in Hle. congruence.
  - intros H. apply not_true_is_false. intros H'%Qle_bool_iff. by apply Qlt_not_le in H.
Qed.

Lemma Qlt_bool_false (a b : Q) : Qlt_bool a b = false ↔ (b <= a)%Q.
Proof.
  unfold Qlt_bool. rewrite negb_false_iff. apply Qle_bool_iff.
Qed.

Lemma adjacent_pairs_nonneg (l : list Z) : 0 ≤ adjacent_pairs l.
Proof.
  induction l as [|x [|y l] IH]; simpl in *; try lia.
  destruct (y - x =? 1); lia.
Qed.

Lemma adjacent_pairs_cons2 (x y : Z) (l : list Z) :
  adjacent_pairs (x :: y :: l) = (if y - x =? 1 then 1 else 0) + adjacent_pairs (y :: l).
Proof. reflexivity. Qed.

Lemma consecutive_loop_cons2 (p : gmap string pyval) (c x y : Z) (l : list Z) :
  RandomLotteryModel.consecutive_loop p c (x :: y :: l) =
  if y - x =? 1 then
    let? m := getnum p "max_consecutive" in
    if Qlt_bool m (inject_Z (c + 1)) then Ok false
    else RandomLotteryModel.consecutive_loop p (c + 1) (y :: l)
  else RandomLotteryModel.consecutive_loop p c (y :: l).
Proof. reflexivity. Qed.

Lemma consecutive_loop_spec (p : gmap string pyval) (m : Q) :
  getnum p "max_consecutive" = Ok m →
  ∀ (l : list Z) (c : Z),
  RandomLotteryModel.consecutive_loop p c l =
  Ok ((adjacent_pairs l =? 0) || Qle_bool (inject_Z (c + adjacent_pairs l)) m).
Proof.
  intros Hm. induction l as [|x [|y l] IH]; intros c; [done|done|].
  rewrite consecutive_loop_cons2, adjacent_pairs_cons2.
  pose proof (adjacent_pairs_nonneg (y :: l)) as Hnn.
  set (a := adjacent_pairs (y :: l)) in *.
  destruct (y - x =? 1).
  - rewrite Hm. cbn [rbind]. destruct (Qlt_bool m (inject_Z (c + 1))) eqn:E.
    + apply Qlt_bool_iff in E. f_equal. symmetry.
      replace (1 + a =? 0) with false by lia. cbn [orb].
      apply not_true_is_false. intros H%Qle_bool_iff.
      assert (inject_Z (c + 1) <= inject_Z (c + (1 + a)))%Q
        by (rewrite <- Zle_Qle; lia).
      lra.
    + apply Qlt_bool_false in E. rewrite IH. fold a. f_equal.
      replace (1 + a =? 0) with false by lia. cbn [orb].
      replace (c + (1 + a)) with (c + 1 + a) by lia.
      destruct (a =? 0) eqn:E0; [|done]. cbn [orb].
      symmetry. apply Qle_bool_iff. by replace (c + 1 + a) with (c + 1) by lia.
  - rewrite IH. by fold a.
Qed.

Lemma check_constraints_spec (self : RandomLotteryModel.t) (lo hi smin smax mc : Q) (reds : list Z) :
  getnum (RandomLotteryModel.params self) "min_odd_count" = Ok lo →
  getnum (RandomLotteryModel.params self) "max_odd_count" = Ok hi →
  getnum (RandomLotteryModel.params self) "min_sum" = Ok smin →
  getnum (RandomLotteryModel.params self) "max_sum" = Ok smax →
  getnum (RandomLotteryModel.params self) "max_consecutive" = Ok mc →
  RandomLotteryModel._check_constraints self reds = Ok (accepts lo hi smin smax mc reds).
Proof.
  intros H1 H2 H3 H4 H5.
  unfold RandomLotteryModel._check_constraints, accepts, count_and_sum_ok, pairs_ok.
  destruct (Nat.eqb (length reds) 6); [|done]. cbn [negb andb].
  rewrite H1, H2, H3, H4. cbn [rbind]. unfold Qlt_bool.
  destruct (Qle_bool lo _); cbn [negb rbind andb]; [|done].
  destruct (Qle_bool _ hi); cbn [negb rbind andb]; [|done].
  destruct (Qle_bool smin _); cbn [negb rbind andb]; [|done].
  destruct (Qle_bool _ smax); cbn [negb rbind andb]; [|done].
  by rewrite (consecutive_loop_spec _ mc H5).
Qed.

(** ** The random baseline *)

Lemma generate_valid (self : RandomLotteryModel.t) (n : Z) :
  int (RandomLotteryModel.max_attempts self) = Ok n → 1 ≤ n →
  (∀ reds, ∃ b, RandomLotteryModel._check_constraints self reds = Ok b) →
  ∀ t, ∃ c t', RandomLotteryModel.generate self t = (Ok c, t') ∧ ValidCandidate c.
Proof.
  intros Hn Hpos Hc t. unfold RandomLotteryModel.generate.
  unfold bind at 1, lift. rewrite Hn.
  destruct (attempt_loop_valid self Hc (Z.to_nat n) 0 None t) as (st & t1 & Hl & Hv & Hs);
    [done|].
  destruct Hs as [[reds a] ->]; [lia|].
  specialize (Hv _ eq_refl). cbn [fst] in Hv.
  unfold bind at 1. rewrite Hl. unfold bind at 1, ret at 1.
  destruct (pick_blue_valid (RandomLotteryModel.prefer_odd_blue self) t1) as (b & t2 & Hb & Hbr).
  unfold bind at 1. rewrite Hb.
  destruct reds as [|r0 reds']; [by destruct Hv|].
  unfold bind, ret. eexists _, _. split; [reflexivity|]. by split.
Qed.

Lemma default_self :
  RandomLotteryModel.init [] ∅ =
  Ok (RandomLotteryModel.Self [] RandomLotteryModel.default_params
        (VBool false) (VBool false) (VInt 50)).
Proof.
  unfold RandomLotteryModel.init, merge_params. rewrite (left_id_L ∅ (∪)). reflexivity.
Qed.

Lemma random_baseline_valid (t : tape) :
  ∃ c t', RandomLotteryModel.generate_default t = (Ok c, t') ∧ ValidCandidate c.
Proof.
  unfold RandomLotteryModel.generate_default, bind at 1, lift. rewrite default_self.
  apply (generate_valid _ 50); [done|lia|].
  intros reds. eexists. by apply (check_constraints_spec _ 2 4 70 140 2).
Qed.



(** ** Fusion and the selection manager *)

Lemma fusion_generate_list (models : list instance) (weights : list pyval) (t : tape) :
  ∀ v t', FusionEngine.generate models weights t = (Ok v, t') → ∃ l, v = VList l.
Proof.
  intros v t'. unfold FusionEngine.generate, bind, lift, ret.
  destruct (FusionEngine.weighted_results _ t) as [[w|e] t1]; [|done].
  destruct (FusionEngine._combine_results w); [|done].
  intros [= <- <-]. eauto.
Qed.

Lemma fused_falls_back (models : list instance) (weights : list pyval) (t : tape) :
  ∃ t1, ModelManager.fused models weights t = ModelManager.random_baseline t1.
Proof.
  unfold ModelManager.fused, catch.
  match goal with |- context [match ?b t with _ => _ end] => set (body := b) end.
  destruct (body t) as [[v|e] t1] eqn:E; [|eauto].
  exfalso. subst body. unfold bind at 1 in E.
  destruct (FusionEngine.generate models weights t) as [[r|e] t2] eqn:G; [|done].
  apply fusion_generate_list in G as [l ->].
  unfold bind, lift in E. simpl in E. done.
Qed.

Lemma random_baseline_ok (t : tape) :
  ∃ c t', ModelManager.random_baseline t = (Ok (candidate_value c), t') ∧ ValidCandidate c.
Proof.
  destruct (random_baseline_valid t) as (c & t' & Hg & Hv).
  exists c, t'. split; [|done]. unfold ModelManager.random_baseline, bind. by rewrite Hg.
Qed.

Lemma load_models_none (_models : gmap string model_class) (history : list draw)
    (gp : gmap string pyval) (permissions : list perm) :
  Forall (λ p, ¬ resolves _models history gp p) permissions →
  ModelManager.load_models _models history gp permissions = ([], []).
Proof.
  induction 1 as [|p ps Hp _ IH]; [done|]. simpl. rewrite IH.
  destruct (ModelRegistry.get _ _) as [cls|] eqn:G; [|done].
  destruct (cls_new cls history _) as [m|e] eqn:N; [|done].
  exfalso. apply Hp. by exists cls, m.
Qed.

Lemma load_models_length (_models : gmap string model_class) (history : list draw)
    (gp : gmap string pyval) (permissions : list perm) :
  length (fst (ModelManager.load_models _models history gp permissions)) =
  length (snd (ModelManager.load_models _models history gp permissions)).
Proof.
  induction permissions as [|p ps IH]; [done|]. simpl.
  destruct (ModelRegistry.get _ _) as [cls|]; [|done].
  destruct (cls_new cls history _); [|done]. simpl. by rewrite IH.
Qed.

(** C7: when the history is empty or no permission resolves (an empty
    permission list included), [execute] returns the result of the random
    baseline built without history and overrides; that baseline never
    raises and its candidate is structurally valid. *)
Theorem zero_strategies_floor (role : string) (history : list draw) (permissions : list perm)
    (_models : gmap string model_class) (gp : gmap string pyval) (t : tape) :
  history = [] ∨ Forall (λ p, ¬ resolves _models history gp p) permissions →
  ∃ c t', ModelManager.execute role history permissions _models gp t
          = (Ok (candidate_value c), t')
          ∧ RandomLotteryModel.generate_default t = (Ok c, t')
          ∧ ValidCandidate c.
Proof.
  intros H. destruct (random_baseline_valid t) as (c & t' & Hg & Hv).
  exists c, t'. split; [|done].
  assert (Hb : ModelManager.random_baseline t = (Ok (candidate_value c), t')).
  { unfold ModelManager.random_baseline, bind. by rewrite Hg. }
  unfold ModelManager.execute. destruct (String.eqb role "normal"); [done|].
  destruct H as [->|H]; [done|]. destruct history; [done|].
  destruct permissions; [done|]. by rewrite load_models_none.
Qed.

(** C3: when two or more strategies resolve, [execute] never returns a
    fused result: the fusion branch always ends in its exception handler and
    the caller receives the plain random-baseline candidate, without the
    list of contributing codes and weights. *)
Theorem fusion_never_returned (role : string) (history : list draw) (permissions : list perm)
    (_models : gmap string model_class) (gp : gmap string pyval) (t : tape) :
  (2 ≤ length (fst (ModelManager.load_models _models history gp permissions)))%nat →
  ∃ c t1 t', ModelManager.execute role history permissions _models gp t
             = (Ok (candidate_value c), t')
             ∧ RandomLotteryModel.generate_default t1 = (Ok c, t')
             ∧ ValidCandidate c.
Proof.
  intros Hlen.
  assert (∃ t1, ModelManager.execute role history permissions _models gp t
                = ModelManager.random_baseline t1) as [t1 He].
  { unfold ModelManager.execute. destruct (String.eqb role "normal"); [eauto|].
    destruct history; [eauto|]. destruct permissions; [eauto|].
    pose proof (load_models_length _models (d :: history) gp (p :: permissions)) as Hl.
    destruct (ModelManager.load_models _ _ _ _) as [ms ws]. simpl in *.
    destruct ms as [|m1 [|m2 ms]]; simpl in Hlen; [lia|lia|].
    apply fused_falls_back. }
  destruct (random_baseline_valid t1) as (c & t' & Hg & Hv).
  exists c, t1, t'. split; [|done]. rewrite He.
  unfold ModelManager.random_baseline, bind. by rewrite Hg.
Qed.



(** ** Parameter merging *)

Lemma odd_even_init_default (history : list draw) :
  OddEvenBalanceModel.init history ∅ =
  Ok (OddEvenBalanceModel.Self history OddEvenBalanceModel.default_params
        (VInt 3) (VInt 1) (VBool true) (VInt 50) (VBool false)).
Proof.
  unfold OddEvenBalanceModel.init, merge_params. rewrite (left_id_L ∅ (∪)). reflexivity.
Qed.

(** C2: the defaults of the odd/even-balance model do not define
    ["min_odd_count"] (nor ["max_odd_count"]), which [generate] reads: built
    from its own defaults, on every non-empty history and whatever the
    random draws, [generate] raises [KeyError] for ["min_odd_count"]. *)
Theorem odd_even_generate_missing_key (d : draw) (history : list draw) (t : tape) :
  ∃ self, OddEvenBalanceModel.init (d :: history) ∅ = Ok self
          ∧ OddEvenBalanceModel.generate self t = (Raise (KeyError "min_odd_count"), t).
Proof.
  eexists. split; [apply odd_even_init_default|].
  unfold OddEvenBalanceModel.generate. cbn [OddEvenBalanceModel.history].
  unfold OddEvenBalanceModel._get_historical_odd_preference.
  cbn [OddEvenBalanceModel.history OddEvenBalanceModel.use_history_trend
       OddEvenBalanceModel.history_window OddEvenBalanceModel.target_odd
       OddEvenBalanceModel.params truthy negb int rbind].
  destruct (OddEvenBalanceModel.odd_ratios _); reflexivity.
Qed.

(** ** The genetic fitness *)

Lemma genetic_init_default (history : list draw) :
  GeneticModel.init history ∅ =
  Ok (GeneticModel.Self history GeneticModel.default_params 120 60 (VFloat (85 # 100))
        (8 # 100) (12 # 100) 80 (45 # 100) (25 # 100) (15 # 100) (10 # 100) (5 # 100) 14).
Proof.
  unfold GeneticModel.init, merge_params. rewrite (left_id_L ∅ (∪)). reflexivity.
Qed.

(** C10: on a history of exactly three draws the trend term passes the
    guard [len(recent) >= 3] and then reads [recent[-4]]: [_fitness] raises
    [IndexError] for every combination, so there is no fitness value in
    [0.01, 1.0]. *)
Theorem fitness_three_draws (d1 d2 d3 : draw) (reds : list Z) :
  ∃ self, GeneticModel.init [d1; d2; d3] ∅ = Ok self
          ∧ GeneticModel._fitness self reds = Raise IndexError.
Proof.
  eexists. split; [apply genetic_init_default|].
  reflexivity.
Qed.



(** ** Sums and counts over an appended list *)

Lemma fl_eq (q : Q) : (fl q == q)%Q.
Proof. apply Qred_correct. Qed.

Lemma sumZ_app (l k : list Z) : sumZ (l ++ k) = sumZ l + sumZ k.
Proof. induction l as [|x l IH]; simpl; lia. Qed.

Lemma sumQ_app (l k : list Q) : (sumQ (l ++ k) == sumQ l + sumQ k)%Q.
Proof. induction l as [|x l IH]; simpl; [lra|]. rewrite IH. lra. Qed.

Lemma count_if_app {A} (p : A → bool) (l k : list A) :
  count_if p (l ++ k) = count_if p l + count_if p k.
Proof. unfold count_if. rewrite filter_app, length_app. lia. Qed.

Lemma count_if_cons {A} (p : A → bool) (x : A) (l : list A) :
  count_if p (x :: l) = (if p x then 1 else 0) + count_if p l.
Proof.
  unfold count_if. rewrite filter_cons. destruct (p x) eqn:E.
  - rewrite decide_True by (by apply Is_true_true). simpl length. lia.
  - rewrite decide_False by (by apply Is_true_false). lia.
Qed.

Lemma count_if_nonneg {A} (p : A → bool) (l : list A) : 0 ≤ count_if p l.
Proof. unfold count_if. lia. Qed.

Lemma count_if_le_length {A} (p : A → bool) (l : list A) :
  count_if p l ≤ Z.of_nat (length l).
Proof. unfold count_if. pose proof (length_filter (λ x, Is_true (p x)) l). lia. Qed.

(** ** The replay loop *)

Lemma longest_streak_go_foldl (curve : list curve_point) : ∀ cur best,
  Curve.longest_streak_go cur best curve = snd (foldl Replay.streak_step (cur, best) curve).
Proof.
  induction curve as [|c curve IH]; intros cur best; [done|].
  simpl. unfold Replay.streak_step at 2. simpl. destruct (3 <=? c_red_hit c); apply IH.
Qed.

Lemma inv_run0 (bet : Q) : Replay.Inv bet BacktestService.run0.
Proof. split; simpl; try done; try lra. Qed.

Lemma inv_score (bet : Q) (actual : kaijiang) (pred : prediction) (st : BacktestService.run) :
  Replay.Inv bet st → Replay.Inv bet (BacktestService.score bet actual pred st).
Proof.
  intros [H1 H2 H3 H4 H5 H6]. unfold BacktestService.score.
  set (red_hit := overlap_count _ _). split; cbn.
  - by rewrite map_app, H1.
  - rewrite count_if_app, count_if_cons, H2.
    change (count_if _ []) with 0. cbn [c_red_hit].
    destruct (3 <=? red_hit); lia.
  - etransitivity; [apply fl_eq|]. rewrite length_app. simpl length.
    rewrite Nat2Z.inj_add, inject_Z_plus. change (inject_Z (Z.of_nat 1)) with 1%Q.
    etransitivity; [apply Qplus_comp; [exact H3|reflexivity]|]. ring.
  - etransitivity; [apply fl_eq|]. rewrite map_app.
    change (foldr Qplus 0%Q) with sumQ. rewrite sumQ_app. simpl. lra.
  - apply Forall_app. split; [done|]. constructor; [|done]. done.
  - rewrite foldl_app, <- H6. simpl. unfold Replay.streak_step. simpl.
    by destruct (3 <=? red_hit).
Qed.

Lemma score_length (bet : Q) (actual : kaijiang) (pred : prediction) (st : BacktestService.run) :
  length (BacktestService.curve (BacktestService.score bet actual pred st))
  = S (length (BacktestService.curve st)).
Proof. simpl. rewrite length_app. simpl. lia. Qed.

Lemma replay_inv (engine : BacktestService.engine_t) (all_draws : list kaijiang)
    (params : gmap string pyval) (bet : Q) (mode : string) (idxs : list Z) :
  ∀ st t st' t',
  BacktestService.replay engine all_draws params bet mode idxs st t = (Ok st', t') →
  Replay.Inv bet st →
  Replay.Inv bet st'
  ∧ length (BacktestService.curve st') = (length (BacktestService.curve st) + length idxs)%nat.
Proof.
  induction idxs as [|i idxs IH]; intros st t st' t' Hr Hinv.
  - inversion Hr; subst. split; [done|]. simpl. lia.
  - cbn [BacktestService.replay] in Hr. unfold bind at 1 in Hr.
    destruct (BacktestService.period _ _ _ _ _ _ _ t) as [[st1|e] t1] eqn:Hp; [|done].
    unfold BacktestService.period, bind, lift, ret in Hp.
    destruct (index all_draws i) as [actual|]; [|done].
    destruct (engine _ _ _ t) as [[pred|] t2]; [|done].
    inversion Hp; subst st1 t2.
    apply IH in Hr as [Hi Hl]; [|by apply inv_score].
    split; [done|]. rewrite Hl, score_length. simpl. lia.
Qed.


(** A run that raises writes nothing. *)
Lemma execute_backtest_raise (engine : BacktestService.engine_t) (all_draws : list kaijiang)
    (now : Z) (db : DB) (id : Z) (version : string) (bet : Q) (mode : string)
    (t : tape) (e : exn) (db' : DB) (t' : tape) :
  BacktestService.execute_backtest engine all_draws now db id version bet mode t
  = (Raise e, db', t') → db' = db.
Proof.
  unfold BacktestService.execute_backtest.
  destruct (Nat.ltb _ _); [by intros [= _ <- _]|].
  destruct (int _); [|by intros [= _ <- _]].
  destruct (BacktestService.replay _ _ _ _ _ _ _ _) as [[st|e1] t1]; [done|].
  by intros [= _ <- _].
Qed.

(** C5: when the backtest task ends with an exception, the database is
    left exactly as it was: a record that was ["running"] is still
    ["running"], not ["failed"], and none of its statistics is written. *)
Theorem failed_run_leaves_record (engine : BacktestService.engine_t)
    (all_draws : list kaijiang) (now : Z) (db : DB) (id retries : Z) (version : string)
    (bet : Q) (mode : string) (t : tape) (e : exn) (db' : DB) (t' : tape) :
  BacktestTasks.run_backtest_task engine all_draws now db id retries version bet mode t
  = (Raise e, db', t') →
  db' = db ∧ (∀ r, records db !! id = Some r → status r = "running" →
              ∃ r', records db' !! id = Some r' ∧ status r' = "running"
                    ∧ status r' ≠ "failed" ∧ finished_at r' = finished_at r).
Proof.
  unfold BacktestTasks.run_backtest_task.
  destruct (BacktestService.execute_backtest _ _ _ _ _ _ _ _ _) as [[[s|e1] db1] t1] eqn:E;
    [done|].
  intros [= _ <- _]. apply execute_backtest_raise in E as ->.
  split; [done|]. intros r Hr Hs. exists r. rewrite Hs. by repeat split.
Qed.



(** ** Rounding respects the value of a float *)

Lemma Qlt_bool_comp (a b c d : Q) : (a == c)%Q → (b == d)%Q → Qlt_bool a b = Qlt_bool c d.
Proof.
  intros H1 H2. destruct (Qlt_bool c d) eqn:E.
  - apply Qlt_bool_iff. apply Qlt_bool_iff in E. by rewrite H1, H2.
  - apply Qlt_bool_false. apply Qlt_bool_false in E. by rewrite H1, H2.
Qed.

Lemma pyround_comp (x y : Q) : (x == y)%Q → pyround x = pyround y.
Proof.
  intros H. unfold pyround. rewrite (Qfloor_comp _ _ H).
  rewrite (Qlt_bool_comp (x - inject_Z (Qfloor y)) (1 # 2) (y - inject_Z (Qfloor y)) (1 # 2))
    by (rewrite ?H; reflexivity).
  rewrite (Qlt_bool_comp (1 # 2) (x - inject_Z (Qfloor y)) (1 # 2) (y - inject_Z (Qfloor y)))
    by (rewrite ?H; reflexivity).
  reflexivity.
Qed.


(** ** The statistics of a completed run *)





Lemma slice_to_nonneg {A} (l : list A) (i : Z) : 0 ≤ i → slice_to i l = take (Z.to_nat i) l.
Proof. intros Hi. unfold slice_to. by replace (i <? 0) with false by lia. Qed.

Lemma memZ_true (x : Z) (l : list Z) : memZ x l = true ↔ x ∈ l.
Proof.
  unfold memZ. rewrite existsb_exists. split.
  - intros (y & Hy & E). apply Z.eqb_eq in E as ->. by apply list_elem_of_In.
  - intros H. exists x. split; [by apply list_elem_of_In|apply Z.eqb_refl].
Qed.


Lemma remove_dups_id (l : list Z) : NoDup l → remove_dups l = l.
Proof.
  induction 1 as [|x l Hx _ IH]; [done|]. simpl.
  destruct (decide_rel elem_of x l); [done|]. by rewrite IH.
Qed.












(** ** Rounding to float64 *)

Lemma pyround_between (q : Q) (a b : Z) :
  (inject_Z a <= q)%Q → (q <= inject_Z b)%Q → a ≤ pyround q ≤ b.
Proof.
  intros Ha Hb. unfold pyround.
  pose proof (Qfloor_le q) as Hf. pose proof (Qlt_floor q) as Hf'.
  assert (a ≤ Qfloor q).
  { rewrite <- (Qfloor_Z a). by apply Qfloor_resp_le. }
  assert (Qfloor q ≤ b).
  { rewrite <- (Qfloor_Z b). by apply Qfloor_resp_le. }
  assert (Hup : (0 < q - inject_Z (Qfloor q))%Q → Qfloor q + 1 ≤ b).
  { intros Hpos. assert (inject_Z (Qfloor q) < inject_Z b)%Q by lra.
    rewrite <- Zlt_Qlt in *. lia. }
  destruct (Qlt_bool (q - inject_Z (Qfloor q)) (1 # 2)) eqn:E1; [lia|].
  apply Qlt_bool_false in E1.
  destruct (Qlt_bool (1 # 2) (q - inject_Z (Qfloor q))) eqn:E2.
  - apply Qlt_bool_iff in E2. assert (Qfloor q + 1 ≤ b) by (apply Hup; lra). lia.
  - destruct (Z.even (Qfloor q)); [lia|].
    assert (Qfloor q + 1 ≤ b) by (apply Hup; lra). lia.
Qed.

Lemma pyround_ge (q : Q) (a : Z) : (inject_Z a <= q)%Q → a ≤ pyround q.
Proof.
  intros H. apply (pyround_between q a (Qfloor q + 1)); [done|].
  apply Qlt_le_weak, Qlt_floor.
Qed.

Lemma pyround_le (q : Q) (b : Z) : (q <= inject_Z b)%Q → pyround q ≤ b.
Proof.
  intros H. apply (pyround_between q (Qfloor q) b); [apply Qfloor_le|done].
Qed.

Lemma pyround_mono (x y : Q) : (x <= y)%Q → pyround x ≤ pyround y.
Proof.
  intros H. pose proof (Qfloor_resp_le _ _ H) as Hf.
  destruct (decide (Qfloor x = Qfloor y)) as [E|Hne].
  - unfold pyround. rewrite E.
    set (f := Qfloor y). set (rx := (x - inject_Z f)%Q). set (ry := (y - inject_Z f)%Q).
    assert (Hr : (rx <= ry)%Q) by (subst rx ry; lra).
    destruct (Qlt_bool rx (1 # 2)) eqn:X1.
    { destruct (Qlt_bool ry (1 # 2)); [lia|].
      destruct (Qlt_bool (1 # 2) ry); [lia|]. destruct (Z.even f); lia. }
    apply Qlt_bool_false in X1.
    destruct (Qlt_bool ry (1 # 2)) eqn:Y1; [apply Qlt_bool_iff in Y1; lra|].
    destruct (Qlt_bool (1 # 2) rx) eqn:X2.
    { apply Qlt_bool_iff in X2.
      destruct (Qlt_bool (1 # 2) ry) eqn:Y2; [lia|]. apply Qlt_bool_false in Y2. lra. }
    destruct (Qlt_bool (1 # 2) ry); [destruct (Z.even f); lia|lia].
  - assert (pyround x ≤ Qfloor x + 1)
      by (apply pyround_le, Qlt_le_weak, Qlt_floor).
    assert (Qfloor y ≤ pyround y) by (apply pyround_ge, Qfloor_le). lia.
Qed.

Lemma pow2_pos (e : Z) : 0 ≤ e → 0 < 2 ^ e.
Proof. intros. by apply Z.pow_pos_nonneg. Qed.

Lemma inject_pow2_pos (e : Z) : 0 ≤ e → (0 < inject_Z (2 ^ e))%Q.
Proof.
  intros He. change 0%Q with (inject_Z 0). rewrite <- Zlt_Qlt. by apply pow2_pos.
Qed.

Lemma ulp_exp_nonneg (X : Q) : 0 ≤ ulp_exp X.
Proof. unfold ulp_exp. lia. Qed.

Lemma round53_nonneg (X : Q) : (0 <= X)%Q → 0 ≤ round53 X.
Proof.
  intros HX. unfold round53. pose proof (pow2_pos _ (ulp_exp_nonneg X)).
  apply Z.mul_nonneg_nonneg; [|lia]. apply pyround_ge.
  change (inject_Z 0) with 0%Q. apply Qle_shift_div_l; [by apply inject_pow2_pos, ulp_exp_nonneg|]. lra.
Qed.

Lemma round53_lower (Y : Q) :
  (0 <= Y)%Q → 1 ≤ ulp_exp Y → 2 ^ Z.log2 (Qfloor Y) ≤ round53 Y.
Proof.
  intros HY He. unfold round53. unfold ulp_exp in *.
  set (k := Z.log2 (Qfloor Y)) in *. assert (Hk : 53 ≤ k) by lia.
  replace (Z.max 0 (k - 52)) with (k - 52) by lia.
  assert (Hf : 0 < Qfloor Y).
  { destruct (Z_lt_le_dec 0 (Qfloor Y)) as [?|Hle]; [done|].
    assert (k = 0); [|lia]. subst k. by apply Z.log2_nonpos. }
  pose proof (Z.log2_spec _ Hf) as [Hlo _]. fold k in Hlo.
  replace (2 ^ k) with (2 ^ 52 * 2 ^ (k - 52)) at 1
    by (rewrite <- Z.pow_add_r by lia; f_equal; lia).
  apply Z.mul_le_mono_nonneg_r; [pose proof (pow2_pos (k - 52)); lia|].
  apply pyround_ge. apply Qle_shift_div_l; [apply inject_pow2_pos; lia|].
  rewrite <- inject_Z_mult, <- Z.pow_add_r by lia. replace (52 + (k - 52)) with k by lia.
  apply Qle_trans with (inject_Z (Qfloor Y)); [by rewrite <- Zle_Qle|apply Qfloor_le].
Qed.

Lemma round53_upper (X : Q) :
  (0 <= X)%Q → round53 X ≤ 2 ^ (Z.log2 (Qfloor X) + 1).
Proof.
  intros HX. unfold round53, ulp_exp.
  set (k := Z.log2 (Qfloor X)). assert (Hk : 0 ≤ k) by apply Z.log2_nonneg.
  set (e := Z.max 0 (k - 52)). assert (He : 0 ≤ e ≤ k) by lia.
  assert (Hf : Qfloor X + 1 ≤ 2 ^ (k + 1)).
  { destruct (Z_lt_le_dec 0 (Qfloor X)) as [Hpos|Hle].
    - pose proof (Z.log2_spec _ Hpos) as [_ Hhi]. fold k in Hhi.
      replace (Z.succ k) with (k + 1) in Hhi by lia. lia.
    - pose proof (pow2_pos (k + 1)). lia. }
  replace (2 ^ (k + 1)) with (2 ^ (k + 1 - e) * 2 ^ e)
    by (rewrite <- Z.pow_add_r by lia; f_equal; lia).
  apply Z.mul_le_mono_nonneg_r; [pose proof (pow2_pos e); lia|].
  apply pyround_le. apply Qle_shift_div_r; [apply inject_pow2_pos; lia|].
  rewrite <- inject_Z_mult, <- Z.pow_add_r by lia. replace (k + 1 - e + e) with (k + 1) by lia.
  apply Qle_trans with (inject_Z (Qfloor X + 1)); [apply Qlt_le_weak, Qlt_floor|].
  by rewrite <- Zle_Qle.
Qed.

Lemma round53_mono (X Y : Q) : (0 <= X)%Q → (X <= Y)%Q → round53 X ≤ round53 Y.
Proof.
  intros HX HXY. assert (HY : (0 <= Y)%Q) by lra.
  assert (Hfx : 0 ≤ Qfloor X).
  { rewrite <- (Qfloor_Z 0). by apply Qfloor_resp_le. }
  pose proof (Qfloor_resp_le _ _ HXY) as Hf.
  pose proof (Z.log2_le_mono _ _ Hf) as Hk.
  destruct (decide (ulp_exp X = ulp_exp Y)) as [E|Hne].
  - unfold round53. rewrite E. pose proof (pow2_pos _ (ulp_exp_nonneg Y)).
    apply Z.mul_le_mono_nonneg_r; [lia|]. apply pyround_mono.
    apply Qmult_le_compat_r; [done|].
    apply Qlt_le_weak, Qinv_lt_0_compat, inject_pow2_pos, ulp_exp_nonneg.
  - assert (He : ulp_exp X < ulp_exp Y) by (unfold ulp_exp in *; lia).
    pose proof (round53_upper X HX) as Hu.
    assert (1 ≤ ulp_exp Y) by (pose proof (ulp_exp_nonneg X); lia).
    pose proof (round53_lower Y HY ltac:(done)) as Hl.
    assert (Z.log2 (Qfloor X) + 1 ≤ Z.log2 (Qfloor Y)) by (unfold ulp_exp in *; lia).
    assert (2 ^ (Z.log2 (Qfloor X) + 1) ≤ 2 ^ Z.log2 (Qfloor Y)).
    { apply Z.pow_le_mono_r; [lia|done]. }
    lia.
Qed.

Lemma round53_comp (X Y : Q) : (X == Y)%Q → round53 X = round53 Y.
Proof.
  intros H. unfold round53, ulp_exp. rewrite (Qfloor_comp _ _ H).
  f_equal. apply pyround_comp. by rewrite H.
Qed.

Lemma fl64_unfold (x : Q) :
  (fl64 x == inject_Z (if Qlt_bool x 0
                       then - round53 (Qabs x * inject_Z (2 ^ 1074))
                       else round53 (Qabs x * inject_Z (2 ^ 1074)))
             / inject_Z (2 ^ 1074))%Q.
Proof. unfold fl64. cbv zeta. apply Qred_correct. Qed.

Lemma fl64_comp (x y : Q) : (x == y)%Q → fl64 x = fl64 y.
Proof.
  intros H. unfold fl64. cbv zeta. apply Qred_complete.
  assert (E : (Qabs x * inject_Z (2 ^ 1074) == Qabs y * inject_Z (2 ^ 1074))%Q) by (by rewrite H).
  rewrite (round53_comp _ _ E). rewrite (Qlt_bool_comp x 0 y 0 H ltac:(reflexivity)).
  reflexivity.
Qed.

Lemma fl64_0 : fl64 0 = 0%Q.
Proof. vm_compute. reflexivity. Qed.

Lemma scale_pos : (0 < inject_Z (2 ^ 1074))%Q.
Proof. apply inject_pow2_pos. lia. Qed.

Lemma fl64_mono (x y : Q) : (x <= y)%Q → (fl64 x <= fl64 y)%Q.
Proof.
  intros H. rewrite (fl64_unfold x), (fl64_unfold y).
  pose proof scale_pos as HS.
  apply Qmult_le_compat_r; [|apply Qlt_le_weak, Qinv_lt_0_compat, HS].
  rewrite <- Zle_Qle.
  set (S := inject_Z (2 ^ 1074)) in *.
  assert (Hx : (0 <= Qabs x * S)%Q) by (pose proof (Qabs_nonneg x); nra).
  assert (Hy : (0 <= Qabs y * S)%Q) by (pose proof (Qabs_nonneg y); nra).
  pose proof (round53_nonneg _ Hx). pose proof (round53_nonneg _ Hy).
  destruct (Qlt_bool x 0) eqn:X; destruct (Qlt_bool y 0) eqn:Y.
  - apply Qlt_bool_iff in X, Y.
    assert (round53 (Qabs y * S) ≤ round53 (Qabs x * S)); [|lia].
    apply round53_mono; [done|].
    rewrite (Qabs_neg x), (Qabs_neg y) by lra. nra.
  - lia.
  - apply Qlt_bool_false in X. apply Qlt_bool_iff in Y. lra.
  - apply Qlt_bool_false in X, Y. apply round53_mono; [done|].
    rewrite (Qabs_pos x), (Qabs_pos y) by done. nra.
Qed.

Lemma fl64_nonneg (x : Q) : (0 <= x)%Q → (0 <= fl64 x)%Q.
Proof. intros H. apply fl64_mono in H. by rewrite fl64_0 in H. Qed.

Lemma pyround_Z (n : Z) : pyround (inject_Z n) = n.
Proof.
  pose proof (pyround_between (inject_Z n) n n ltac:(apply Qle_refl) ltac:(apply Qle_refl)). lia.
Qed.

Lemma round53_Z_scaled (m e : Z) :
  0 ≤ e → 0 < m → Z.log2 m - 52 ≤ 0 → (1 ≤ e → Z.log2 m = 52) →
  round53 (inject_Z (m * 2 ^ e)) = m * 2 ^ e.
Proof.
  intros He Hm Hlog Hnorm. unfold round53, ulp_exp. rewrite Qfloor_Z.
  rewrite Z.log2_mul_pow2 by lia.
  assert (E : Z.max 0 (e + Z.log2 m - 52) = e).
  { destruct (decide (e = 0)) as [->|Hne]; [lia|]. rewrite Hnorm by lia. lia. }
  rewrite E. f_equal.
  rewrite (pyround_comp _ (inject_Z m)); [apply pyround_Z|].
  rewrite inject_Z_mult. field.
  pose proof (inject_pow2_pos e He). lra.
Qed.

Lemma round53_pow2 (j : Z) : 53 ≤ j → round53 (inject_Z (2 ^ j)) = 2 ^ j.
Proof.
  intros Hj. replace (2 ^ j) with (2 ^ 52 * 2 ^ (j - 52))
    by (rewrite <- Z.pow_add_r by lia; f_equal; lia).
  apply round53_Z_scaled; [lia|by apply pow2_pos| |].
  - rewrite Z.log2_pow2 by lia. lia.
  - intros _. by rewrite Z.log2_pow2 by lia.
Qed.

Lemma round53_idem (X : Q) :
  (0 <= X)%Q → round53 (inject_Z (round53 X)) = round53 X.
Proof.
  intros HX. unfold round53 at 2 3.
  set (e := ulp_exp X). set (m := pyround (X / inject_Z (2 ^ e))).
  assert (He : 0 ≤ e) by apply ulp_exp_nonneg.
  pose proof (round53_nonneg X HX) as Hnn. unfold round53 in Hnn. fold e m in Hnn.
  pose proof (pow2_pos e He) as Hp.
  assert (Hm0 : 0 ≤ m) by nia.
  set (k := Z.log2 (Qfloor X)).
  assert (Hk : 0 ≤ k) by apply Z.log2_nonneg.
  assert (Hek : e = Z.max 0 (k - 52)) by reflexivity.
  assert (Hup : m ≤ 2 ^ (k + 1 - e)).
  { pose proof (round53_upper X HX) as Hu. unfold round53 in Hu. fold e m k in Hu.
    replace (2 ^ (k + 1)) with (2 ^ (k + 1 - e) * 2 ^ e) in Hu
      by (rewrite <- Z.pow_add_r by lia; f_equal; lia).
    nia. }
  assert (Hup' : m ≤ 2 ^ 53).
  { etransitivity; [exact Hup|]. apply Z.pow_le_mono_r; lia. }
  assert (Hlo : 1 ≤ e → 2 ^ 52 ≤ m).
  { intros H1. pose proof (round53_lower X HX H1) as Hl. unfold round53 in Hl.
    fold e m k in Hl.
    replace (2 ^ k) with (2 ^ 52 * 2 ^ e) in Hl
      by (rewrite <- Z.pow_add_r by lia; f_equal; lia).
    nia. }
  destruct (decide (m = 0)) as [->|Hne].
  { rewrite Z.mul_0_l. vm_compute. reflexivity. }
  destruct (decide (m = 2 ^ 53)) as [->|Hne'].
  { rewrite <- Z.pow_add_r by lia. apply round53_pow2. lia. }
  apply round53_Z_scaled; [done|lia| |].
  - assert (Z.log2 m < 53); [|lia]. apply Z.log2_lt_pow2; lia.
  - intros H1. specialize (Hlo H1).
    apply Z.le_antisymm.
    + assert (Z.log2 m < 53); [|lia]. apply Z.log2_lt_pow2; lia.
    + apply Z.log2_le_pow2; lia.
Qed.

Lemma fl64_idem (x : Q) : is_float (fl64 x).
Proof.
  unfold is_float.
  pose proof scale_pos as HS. set (S := inject_Z (2 ^ 1074)) in *.
  assert (HX : (0 <= Qabs x * S)%Q) by (pose proof (Qabs_nonneg x); nra).
  set (R := round53 (Qabs x * S)).
  pose proof (round53_nonneg _ HX) as HR. fold R in HR.
  assert (HRq : (0 <= inject_Z R)%Q) by (change 0%Q with (inject_Z 0); by rewrite <- Zle_Qle).
  assert (HRS : (0 <= inject_Z R / S)%Q) by (apply Qle_shift_div_l; lra).
  assert (Hy : (fl64 x == inject_Z (if Qlt_bool x 0 then - R else R) / S)%Q)
    by apply fl64_unfold.
  set (y := fl64 x) in *.
  assert (Hneg : (inject_Z (- R) / S == - (inject_Z R / S))%Q)
    by (rewrite inject_Z_opp; field; lra).
  assert (Habs : (Qabs y * S == inject_Z R)%Q).
  { destruct (Qlt_bool x 0).
    - rewrite Hneg in Hy. rewrite (Qabs_wd _ _ Hy), Qabs_opp, Qabs_pos by done. field. lra.
    - rewrite (Qabs_wd _ _ Hy), Qabs_pos by done. field. lra. }
  etransitivity; [apply fl64_unfold|]. fold S.
  rewrite (round53_comp _ _ Habs). unfold R at 1 2. rewrite (round53_idem _ HX). fold R.
  etransitivity; [|symmetry; exact Hy].
  apply Qmult_comp; [|reflexivity].
  destruct (Qlt_bool y 0) eqn:Y; destruct (Qlt_bool x 0) eqn:X; try reflexivity.
  - apply Qlt_bool_iff in Y. lra.
  - apply Qlt_bool_false in Y. rewrite Hneg in Hy.
    assert (Hz : (inject_Z R / S == 0)%Q) by lra.
    assert (Hz' : (inject_Z R == 0)%Q).
    { assert (E : (inject_Z R == inject_Z R / S * S)%Q) by (field; lra).
      rewrite E, Hz. ring. }
    assert (R = 0) as ->; [|reflexivity].
    apply (proj1 (inject_Z_injective R 0)). exact Hz'.
Qed.

(** ** The Dirichlet posterior *)

Lemma count_red_length (counts : list Q) (r : Z) :
  length (BayesianModel.count_red counts r) = length counts.
Proof. unfold BayesianModel.count_red. destruct (_ && _); [apply length_alter|done]. Qed.

Lemma count_red_lookup (counts : list Q) (x r : Z) (c : Q) :
  1 ≤ r ≤ 33 → counts !! Z.to_nat (r - 1) = Some c →
  ∃ c', BayesianModel.count_red counts x !! Z.to_nat (r - 1) = Some c'
        ∧ (c' == c + inject_Z (if r =? x then 1 else 0))%Q.
Proof.
  intros Hr Hc. unfold BayesianModel.count_red.
  destruct ((1 <=? x) && (x <=? 33)) eqn:E.
  - destruct (decide (x = r)) as [->|Hne].
    + rewrite list_lookup_alter_eq, Hc. eexists. split; [done|].
      rewrite Z.eqb_refl. change (inject_Z 1) with 1%Q. lra.
    + rewrite list_lookup_alter_ne by lia. exists c. split; [done|].
      replace (r =? x) with false by lia. change (inject_Z 0) with 0%Q. lra.
  - exists c. split; [done|]. replace (r =? x) with false by lia.
    change (inject_Z 0) with 0%Q. lra.
Qed.

Lemma count_reds_lookup (reds : list Z) : ∀ (counts : list Q) (r : Z) (c : Q),
  1 ≤ r ≤ 33 → counts !! Z.to_nat (r - 1) = Some c →
  ∃ c', foldl BayesianModel.count_red counts reds !! Z.to_nat (r - 1) = Some c'
        ∧ (c' == c + inject_Z (count_if (Z.eqb r) reds))%Q.
Proof.
  induction reds as [|x reds IH]; intros counts r c Hr Hc.
  - exists c. split; [done|]. change (count_if _ []) with 0.
    change (inject_Z 0) with 0%Q. lra.
  - destruct (count_red_lookup counts x r c Hr Hc) as (c1 & H1 & E1).
    destruct (IH _ r c1 Hr H1) as (c2 & H2 & E2).
    exists c2. split; [done|]. rewrite count_if_cons, inject_Z_plus, E2, E1.
    rewrite (Z.eqb_sym r x). lra.
Qed.

Lemma count_draws_lookup (recent : list draw) : ∀ (counts : list Q) (r : Z) (c : Q),
  1 ≤ r ≤ 33 → counts !! Z.to_nat (r - 1) = Some c →
  ∃ c', foldl (λ counts d, foldl BayesianModel.count_red counts (get_reds d)) counts recent
          !! Z.to_nat (r - 1) = Some c'
        ∧ (c' == c + inject_Z (occurrences r recent))%Q.
Proof.
  induction recent as [|d recent IH]; intros counts r c Hr Hc.
  - exists c. split; [done|]. unfold occurrences. cbn [map sumZ foldr].
    change (inject_Z 0) with 0%Q. lra.
  - destruct (count_reds_lookup (get_reds d) counts r c Hr Hc) as (c1 & H1 & E1).
    destruct (IH _ r c1 Hr H1) as (c2 & H2 & E2).
    exists c2. split; [done|]. unfold occurrences in *. cbn [map sumZ foldr].
    fold (sumZ (map (λ d, count_if (Z.eqb r) (get_reds d)) recent)).
    rewrite inject_Z_plus, E2, E1. lra.
Qed.

Lemma count_draws_length (recent : list draw) : ∀ counts : list Q,
  length (foldl (λ counts d, foldl BayesianModel.count_red counts (get_reds d)) counts recent)
  = length counts.
Proof.
  induction recent as [|d recent IH]; intros counts; [done|]. simpl. rewrite IH.
  generalize (get_reds d). intros l. revert counts.
  induction l as [|x l IHl]; intros counts; [done|]. simpl. by rewrite IHl, count_red_length.
Qed.

Lemma count_window_lookup (recent : list draw) (r : Z) :
  1 ≤ r ≤ 33 →
  ∃ c, BayesianModel.count_window recent !! Z.to_nat (r - 1) = Some c
       ∧ (c == inject_Z (occurrences r recent))%Q.
Proof.
  intros Hr. unfold BayesianModel.count_window.
  destruct (count_draws_lookup recent (replicate 33 0%Q) r 0%Q Hr) as (c & Hc & E).
  { apply lookup_replicate_2. lia. }
  exists c. split; [done|]. rewrite E. lra.
Qed.

Lemma posterior_lookup (history : list draw) (pa lw hw : pyval) (a w : Q) (recent : list draw) :
  num pa = Ok a → num lw = Ok w → BayesianModel.recent_window history hw = Ok recent →
  ∃ post, BayesianModel._build_red_posterior history pa lw hw = Ok post
          ∧ length post = 33%nat
          ∧ ∀ r, 1 ≤ r ≤ 33 →
              post !! Z.to_nat (r - 1)
              = Some (fl64 (fl64 a + fl64 (inject_Z (occurrences r recent) * fl64 w))).
Proof.
  intros Ha Hw Hrec. unfold BayesianModel._build_red_posterior.
  rewrite Ha, Hrec, Hw. cbn [rbind]. eexists. split; [done|]. split.
  - rewrite length_zip_with, length_replicate.
    unfold BayesianModel.count_window. rewrite count_draws_length, length_replicate. lia.
  - intros r Hr. destruct (count_window_lookup recent r Hr) as (c & Hc & E).
    rewrite lookup_zip_with, lookup_replicate_2 by lia. cbn. rewrite Hc. cbn.
    f_equal. apply fl64_comp.
    rewrite (fl64_comp (c * fl64 w) (inject_Z (occurrences r recent) * fl64 w));
      [reflexivity|by rewrite E].
Qed.

(** C8 (as amended): every entry of the Dirichlet posterior is the float64
    value of [prior_alpha + occurrences * likelihood_weight], the product
    and the sum each rounded; with no occurrence of any number in the window
    every entry equals the prior as a float64, which is the prior itself
    when the prior is a float64 value; and for a non-negative weight the
    entry of a number never decreases when the number occurs more often.
    It need not increase: a small weight is lost in the rounding. *)
Theorem bayes_posterior (history history' : list draw) (pa lw hw : pyval) (a w : Q)
    (recent recent' : list draw) :
  num pa = Ok a → num lw = Ok w →
  BayesianModel.recent_window history hw = Ok recent →
  BayesianModel.recent_window history' hw = Ok recent' →
  ∃ post post',
    BayesianModel._build_red_posterior history pa lw hw = Ok post
    ∧ BayesianModel._build_red_posterior history' pa lw hw = Ok post'
    ∧ length post = 33%nat
    ∧ (∀ r, 1 ≤ r ≤ 33 →
         post !! Z.to_nat (r - 1)
         = Some (fl64 (fl64 a + fl64 (inject_Z (occurrences r recent) * fl64 w))))
    ∧ ((∀ r, 1 ≤ r ≤ 33 → occurrences r recent = 0) →
       Forall (λ x, x == fl64 a)%Q post ∧ (is_float a → Forall (λ x, x == a)%Q post))
    ∧ ((0 <= w)%Q → ∀ r x x', 1 ≤ r ≤ 33 →
         occurrences r recent ≤ occurrences r recent' →
         post !! Z.to_nat (r - 1) = Some x → post' !! Z.to_nat (r - 1) = Some x' →
         (x <= x')%Q).
Proof.
  intros Ha Hw Hr Hr'.
  destruct (posterior_lookup history pa lw hw a w recent Ha Hw Hr) as (post & Hp & Hl & Hx).
  destruct (posterior_lookup history' pa lw hw a w recent' Ha Hw Hr') as (post' & Hp' & Hl' & Hx').
  exists post, post'. split; [done|]. split; [done|]. split; [done|]. split; [done|]. split.
  - intros Hz.
    assert (Hall : Forall (λ x, x == fl64 a)%Q post).
    { apply Forall_lookup. intros i x Hi.
      assert (i < 33)%nat by (apply lookup_lt_Some in Hi; lia).
      specialize (Hx (Z.of_nat i + 1) ltac:(lia)).
      replace (Z.to_nat (Z.of_nat i + 1 - 1)) with i in Hx by lia.
      rewrite Hi in Hx. injection Hx as ->. rewrite Hz by lia.
      rewrite (fl64_comp (inject_Z 0 * fl64 w) 0) by (change (inject_Z 0) with 0%Q; ring).
      rewrite fl64_0. rewrite (fl64_comp (fl64 a + 0) (fl64 a)) by ring.
      apply fl64_idem. }
    split; [done|]. intros Hf. eapply Forall_impl; [exact Hall|]. cbn.
    intros x E. rewrite E. exact Hf.
  - intros Hpos r x x' Hrr Hle Hi Hi'.
    rewrite (Hx r Hrr) in Hi. rewrite (Hx' r Hrr) in Hi'.
    injection Hi as <-. injection Hi' as <-.
    apply fl64_mono. apply Qplus_le_r. apply fl64_mono.
    pose proof (fl64_nonneg w Hpos). rewrite Zle_Qle in Hle. nra.
Qed.


(** ** Pareto dominance *)

Lemma dominates_iff (a b : list Q) :
  Nsga2Model.dominates a b = true ↔
  (∀ i x y, a !! i = Some x → b !! i = Some y → (y <= x)%Q)
  ∧ (∃ i x y, a !! i = Some x ∧ b !! i = Some y ∧ (y < x)%Q).
Proof.
  unfold Nsga2Model.dominates. rewrite andb_true_iff, forallb_forall, existsb_exists.
  split.
  - intros [Hall (xy & Hin & Hlt)]. split.
    + intros i x y Ha Hb. apply Qle_bool_iff.
      apply (Hall (x, y)), list_elem_of_In, list_elem_of_lookup. exists i.
      by rewrite lookup_zip_with, Ha; cbn; rewrite Hb.
    + apply list_elem_of_In, list_elem_of_lookup in Hin as [i Hi].
      rewrite lookup_zip_with in Hi.
      destruct (a !! i) as [x|] eqn:Ha; [|done]. cbn in Hi.
      destruct (b !! i) as [y|] eqn:Hb; [|done]. cbn in Hi. injection Hi as <-.
      exists i, x, y. split; [done|]. split; [done|]. by apply Qlt_bool_iff.
  - intros [Hall (i & x & y & Ha & Hb & Hlt)]. split.
    + intros [x' y'] Hin. apply list_elem_of_In, list_elem_of_lookup in Hin as [j Hj].
      rewrite lookup_zip_with in Hj.
      destruct (a !! j) as [x''|] eqn:Ha'; [|done]. cbn in Hj.
      destruct (b !! j) as [y''|] eqn:Hb'; [|done]. cbn in Hj. injection Hj as <- <-.
      apply Qle_bool_iff. by eapply Hall.
    + exists (x, y). split; [|by apply Qlt_bool_iff].
      apply list_elem_of_In, list_elem_of_lookup. exists i.
      by rewrite lookup_zip_with, Ha; cbn; rewrite Hb.
Qed.

(** ** Crowding distance *)

Lemma map_result_length {A B} (f : A → result B) (l : list A) (l' : list B) :
  GeneticModel.map_result f l = Ok l' → length l' = length l.
Proof.
  revert l'. induction l as [|x l IH]; intros l'; simpl; [by intros [= <-]|].
  destruct (f x); [|done]. simpl.
  destruct (GeneticModel.map_result f l); [|done]. simpl. intros [= <-]. simpl.
  f_equal. by apply IH.
Qed.

Lemma map_result_ok {A B} (f : A → result B) (l : list A) :
  Forall (λ x, ∃ y, f x = Ok y) l → ∃ l', GeneticModel.map_result f l = Ok l'.
Proof.
  induction 1 as [|x l [y Hy] _ [l' IH]]; simpl; [eauto|]. rewrite Hy, IH. simpl. eauto.
Qed.

Lemma dist_add_inf (q : Q) (d : dist) : d = Inf → Nsga2Model.dist_add q d = Inf.
Proof. by intros ->. Qed.

Lemma interior_cons3 (w : Q) (a b c : nat * Q) (s : list (nat * Q)) (d : list dist) :
  Nsga2Model.interior w (a :: b :: c :: s) d =
  Nsga2Model.interior w (b :: c :: s)
    (alter (Nsga2Model.dist_add ((snd c - snd a) / w)) (fst b) d).
Proof. reflexivity. Qed.

Lemma interior_length (w : Q) (s : list (nat * Q)) : ∀ d,
  length (Nsga2Model.interior w s d) = length d.
Proof.
  induction s as [|a [|b [|c s]] IH]; intros d; try done.
  rewrite interior_cons3, IH. apply length_alter.
Qed.

Lemma interior_inf (w : Q) (s : list (nat * Q)) : ∀ d i,
  d !! i = Some Inf → Nsga2Model.interior w s d !! i = Some Inf.
Proof.
  induction s as [|a [|b [|c s]] IH]; intros d i Hi; try done.
  rewrite interior_cons3. apply IH.
  destruct (decide (fst b = i)) as [->|Hne].
  - by rewrite list_lookup_alter_eq, Hi.
  - by rewrite list_lookup_alter_ne.
Qed.

Lemma objective_pass_length (keys : list Q) (d : list dist) :
  length (Nsga2Model.objective_pass keys d) = length d.
Proof.
  unfold Nsga2Model.objective_pass.
  destruct (Nsga2Model.sorted_idx keys) as [|lo s]; [done|].
  destruct (last (lo :: s)) as [hi|]; [|done].
  destruct (Qeq_bool _ _); rewrite ?interior_length, !length_insert; done.
Qed.

Lemma insert_inf (d : list dist) (i j : nat) :
  d !! i = Some Inf → <[j := Inf]> d !! i = Some Inf.
Proof.
  intros Hi. destruct (decide (j = i)) as [->|Hne].
  - apply list_lookup_insert_eq. by apply lookup_lt_Some in Hi.
  - by rewrite list_lookup_insert_ne.
Qed.

Lemma objective_pass_inf (keys : list Q) (d : list dist) (i : nat) :
  d !! i = Some Inf → Nsga2Model.objective_pass keys d !! i = Some Inf.
Proof.
  intros Hi. unfold Nsga2Model.objective_pass.
  destruct (Nsga2Model.sorted_idx keys) as [|lo s]; [done|].
  destruct (last (lo :: s)) as [hi|]; [|done].
  destruct (Qeq_bool _ _); [|apply interior_inf]; by do 2 apply insert_inf.
Qed.

Lemma objective_pass_ends (keys : list Q) (d : list dist) (lo hi : nat * Q) :
  head (Nsga2Model.sorted_idx keys) = Some lo →
  last (Nsga2Model.sorted_idx keys) = Some hi →
  (fst lo < length d)%nat → (fst hi < length d)%nat →
  Nsga2Model.objective_pass keys d !! fst lo = Some Inf
  ∧ Nsga2Model.objective_pass keys d !! fst hi = Some Inf.
Proof.
  intros Hlo Hhi Hl Hh. unfold Nsga2Model.objective_pass.
  destruct (Nsga2Model.sorted_idx keys) as [|lo' s] eqn:E; [done|].
  injection Hlo as ->. rewrite Hhi.
  assert (<[fst hi := Inf]> (<[fst lo := Inf]> d) !! fst lo = Some Inf).
  { apply insert_inf, list_lookup_insert_eq. done. }
  assert (<[fst hi := Inf]> (<[fst lo := Inf]> d) !! fst hi = Some Inf).
  { apply list_lookup_insert_eq. by rewrite length_insert. }
  destruct (Qeq_bool _ _); [done|]. split; by apply interior_inf.
Qed.


Lemma sorted_idx_perm (keys : list Q) :
  Permutation (Nsga2Model.sorted_idx keys) (zip (seq 0 (length keys)) keys).
Proof. apply sorted_by_perm. Qed.

Lemma elem_of_indexed (keys : list Q) (j : nat) (k : Q) :
  (j, k) ∈ zip (seq 0 (length keys)) keys ↔ keys !! j = Some k.
Proof.
  rewrite list_elem_of_lookup. split.
  - intros [i Hi]. rewrite lookup_zip_with in Hi.
    destruct (seq 0 (length keys) !! i) as [j'|] eqn:Hs; [|done]. cbn in Hi.
    destruct (keys !! i) as [k'|] eqn:Hk; [|done]. cbn in Hi. injection Hi as -> ->.
    apply lookup_seq in Hs as [-> _]. done.
  - intros Hk. exists j. rewrite lookup_zip_with.
    rewrite lookup_seq_lt by (by apply lookup_lt_Some in Hk). cbn. by rewrite Hk.
Qed.

Lemma elem_of_sorted_idx (keys : list Q) (j : nat) (k : Q) :
  (j, k) ∈ Nsga2Model.sorted_idx keys ↔ keys !! j = Some k.
Proof. by rewrite sorted_idx_perm, elem_of_indexed. Qed.

Lemma sorted_idx_strongly (keys : list Q) : StronglySorted key_le (Nsga2Model.sorted_idx keys).
Proof.
  apply Sorted_StronglySorted.
  - intros a b c Hab Hbc. unfold key_le in *. lra.
  - apply (sorted_by_sorted _ key_le).
    + intros x y H. by apply Qle_bool_iff.
    + intros x y H. unfold key_le.
      destruct (Qlt_le_dec (snd y) (snd x)) as [Hlt|Hle]; [lra|].
      apply Qle_bool_iff in Hle. congruence.
Qed.

Lemma strongly_sorted_last {A} (R : A → A → Prop) (l : list A) (hi : A) :
  StronglySorted R l → last l = Some hi → ∀ x, x ∈ l → x = hi ∨ R x hi.
Proof.
  induction 1 as [|y l Hs IH Hall]; [done|]. intros Hlast x Hx.
  destruct l as [|z l'].
  - injection Hlast as <-. apply list_elem_of_singleton in Hx. by left.
  - change (last (z :: l') = Some hi) in Hlast.
    apply elem_of_cons in Hx as [->|Hx]; [|by apply IH].
    right. apply (proj1 (Forall_forall _ _) Hall). by apply last_Some_elem_of.
Qed.

Lemma strict_min_head (keys : list Q) (i : nat) (k : Q) (lo : nat * Q) :
  keys !! i = Some k →
  (∀ j k', j ≠ i → keys !! j = Some k' → (k < k')%Q) →
  head (Nsga2Model.sorted_idx keys) = Some lo → fst lo = i.
Proof.
  intros Hk Hmin Hlo. pose proof (sorted_idx_strongly keys) as Hs.
  assert (Hin : (i, k) ∈ Nsga2Model.sorted_idx keys) by (by apply elem_of_sorted_idx).
  destruct (Nsga2Model.sorted_idx keys) as [|lo' s] eqn:E; [done|].
  injection Hlo as ->. destruct lo as [j kj].
  assert (Hj : keys !! j = Some kj) by (apply elem_of_sorted_idx; rewrite E; left).
  destruct (decide (j = i)) as [->|Hne]; [done|]. exfalso.
  specialize (Hmin j kj Hne Hj).
  apply elem_of_cons in Hin as [Heq|Hin]; [congruence|].
  apply StronglySorted_inv in Hs as [_ Hall].
  apply (proj1 (Forall_forall _ _) Hall) in Hin. unfold key_le in Hin. simpl in Hin. lra.
Qed.

Lemma strict_max_last (keys : list Q) (i : nat) (k : Q) (hi : nat * Q) :
  keys !! i = Some k →
  (∀ j k', j ≠ i → keys !! j = Some k' → (k' < k)%Q) →
  last (Nsga2Model.sorted_idx keys) = Some hi → fst hi = i.
Proof.
  intros Hk Hmax Hhi. pose proof (sorted_idx_strongly keys) as Hs.
  assert (Hin : (i, k) ∈ Nsga2Model.sorted_idx keys) by (by apply elem_of_sorted_idx).
  destruct hi as [j kj].
  assert (Hj : keys !! j = Some kj) by (by apply elem_of_sorted_idx, last_Some_elem_of).
  destruct (decide (j = i)) as [->|Hne]; [done|]. exfalso.
  specialize (Hmax j kj Hne Hj).
  destruct (strongly_sorted_last _ _ _ Hs Hhi _ Hin) as [Heq|Hle]; [congruence|].
  unfold key_le in Hle. simpl in Hle. lra.
Qed.

Lemma sorted_idx_bound (keys : list Q) (p : nat * Q) :
  p ∈ Nsga2Model.sorted_idx keys → (fst p < length keys)%nat.
Proof.
  destruct p as [j k]. rewrite elem_of_sorted_idx. intros H. by apply lookup_lt_Some in H.
Qed.

Lemma objectives_spec (ff : list (list Q)) (objs : list nat) : ∀ d d',
  Nsga2Model.objectives ff objs d = Ok d' → length d = length ff →
  length d' = length d
  ∧ (∀ i, d !! i = Some Inf → d' !! i = Some Inf)
  ∧ ∀ obj keys, obj ∈ objs → Nsga2Model.column ff obj = Ok keys →
      (∀ lo, head (Nsga2Model.sorted_idx keys) = Some lo → d' !! fst lo = Some Inf)
      ∧ (∀ hi, last (Nsga2Model.sorted_idx keys) = Some hi → d' !! fst hi = Some Inf).
Proof.
  induction objs as [|o objs IH]; intros d d' Ho Hlen.
  - injection Ho as <-. split; [done|]. split; [done|].
    intros obj keys Hin. by apply elem_of_nil in Hin.
  - cbn [Nsga2Model.objectives] in Ho.
    destruct (Nsga2Model.column ff o) as [ks|] eqn:Hc; [|done]. cbn [rbind] in Ho.
    apply IH in Ho as (Hl & Hinf & Hends); [|by rewrite objective_pass_length].
    rewrite objective_pass_length in Hl. split; [done|]. split.
    + intros i Hi. by apply Hinf, objective_pass_inf.
    + intros obj keys Hin Hcol. apply elem_of_cons in Hin as [->|Hin]; [|by apply (Hends obj keys)].
      rewrite Hc in Hcol. injection Hcol as ->.
      assert (Hkl : length keys = length d) by (apply map_result_length in Hc; lia).
      assert (Hb : ∀ p, p ∈ Nsga2Model.sorted_idx keys → (fst p < length d)%nat).
      { intros p Hp. rewrite <- Hkl. by apply sorted_idx_bound. }
      destruct (Nsga2Model.sorted_idx keys) as [|lo s] eqn:E.
      { split; intros ? ?; done. }
      destruct (last (lo :: s)) as [hi|] eqn:Hlast.
      2:{ by apply last_None in Hlast. }
      destruct (objective_pass_ends keys d lo hi) as [H1 H2].
      * by rewrite E.
      * by rewrite E.
      * apply Hb. left.
      * apply Hb. by apply last_Some_elem_of.
      * split; [intros ? [= <-]|intros ? [= <-]]; by apply Hinf.
Qed.

Lemma objectives_ok (ff : list (list Q)) (objs : list nat) : ∀ d,
  Forall (λ obj, ∃ keys, Nsga2Model.column ff obj = Ok keys) objs →
  ∃ d', Nsga2Model.objectives ff objs d = Ok d'.
Proof.
  induction objs as [|o objs IH]; intros d Hall; [by exists d|].
  apply Forall_cons in Hall as [[keys Hk] Hall].
  cbn [Nsga2Model.objectives]. rewrite Hk. cbn [rbind]. by apply IH.
Qed.

Lemma column_ok (ff : list (list Q)) (m obj : nat) :
  Forall (λ v, length v = m) ff → (obj < m)%nat →
  ∃ keys, Nsga2Model.column ff obj = Ok keys.
Proof.
  intros Hall Hobj. apply map_result_ok. eapply Forall_impl; [exact Hall|].
  intros v Hv. cbn in *. destruct (lookup_lt_is_Some_2 v obj) as [x ->]; [lia|]. eauto.
Qed.

Lemma crowding_boundaries (ff : list (list Q)) (m : nat) :
  Forall (λ v, length v = m) ff →
  ∃ distance,
    Nsga2Model._crowding_distance ff = Ok distance
    ∧ length distance = length ff
    ∧ ((length ff ≤ 2)%nat → Forall (λ d, d = Inf) distance)
    ∧ ((2 < length ff)%nat → ∀ obj keys, (obj < m)%nat →
         Nsga2Model.column ff obj = Ok keys →
         (∀ lo, head (Nsga2Model.sorted_idx keys) = Some lo → distance !! fst lo = Some Inf)
         ∧ (∀ hi, last (Nsga2Model.sorted_idx keys) = Some hi → distance !! fst hi = Some Inf)
         ∧ (∀ i k, keys !! i = Some k →
              (∀ j k', j ≠ i → keys !! j = Some k' → (k < k')%Q) →
              distance !! i = Some Inf)
         ∧ (∀ i k, keys !! i = Some k →
              (∀ j k', j ≠ i → keys !! j = Some k' → (k' < k)%Q) →
              distance !! i = Some Inf)).
Proof.
  intros Hall. unfold Nsga2Model._crowding_distance.
  destruct (Nat.leb (length ff) 2) eqn:E.
  - apply Nat.leb_le in E. eexists. split; [done|]. rewrite length_replicate.
    split; [done|]. split; [|lia]. intros _. by apply Forall_replicate.
  - apply Nat.leb_gt in E. destruct ff as [|v0 rest] eqn:Hff; [simpl in E; lia|].
    rewrite <- Hff in *.
    assert (Hm : length v0 = m).
    { rewrite Hff in Hall. by apply Forall_cons in Hall as [? _]. }
    rewrite Hm.
    destruct (objectives_ok ff (seq 0 m) (replicate (length ff) (Fin 0))) as [d' Hd'].
    { apply Forall_forall. intros obj Hobj. apply elem_of_seq in Hobj.
      apply (column_ok ff m); [done|lia]. }
    exists d'. split; [done|].
    apply objectives_spec in Hd' as (Hl & _ & Hends); [|by rewrite length_replicate].
    rewrite length_replicate in Hl. split; [done|]. split; [lia|].
    intros _ obj keys Hobj Hcol.
    destruct (Hends obj keys) as [Hlo Hhi]; [apply elem_of_seq; lia|done|].
    assert (Hkl : length keys = length ff) by (by apply map_result_length in Hcol).
    split; [done|]. split; [done|]. split.
    + intros i k Hk Hmin.
      destruct (head (Nsga2Model.sorted_idx keys)) as [lo|] eqn:Hh.
      * rewrite <- (strict_min_head keys i k lo Hk Hmin Hh). by apply Hlo.
      * apply head_None in Hh. apply (f_equal length) in Hh.
        unfold Nsga2Model.sorted_idx in Hh.
        rewrite sorted_by_length, length_zip_with, length_seq in Hh. simpl in Hh. lia.
    + intros i k Hk Hmax.
      destruct (last (Nsga2Model.sorted_idx keys)) as [hi|] eqn:Hh.
      * rewrite <- (strict_max_last keys i k hi Hk Hmax Hh). by apply Hhi.
      * apply last_None in Hh. apply (f_equal length) in Hh.
        unfold Nsga2Model.sorted_idx in Hh.
        rewrite sorted_by_length, length_zip_with, length_seq in Hh. simpl in Hh. lia.
Qed.


(** The crossover on its own: at point 1 the two parents share the value 3
    across the cut and the second child has five entries. *)
Lemma crossover_short_child :
  GeneticModel._crossover [2; 3; 8; 15; 20; 27] [3; 4; 15; 20; 27; 32] [0%N]
  = (Ok ([2; 4; 15; 20; 27; 32], [3; 8; 15; 20; 27]), []).
Proof. reflexivity. Qed.

(** C1: with the default parameters, a valid history of ten draws and the
    random outcomes of [GeneticRun], the single-objective genetic model
    returns the five reds [3, 8, 15, 20, 27]: the de-duplication of the
    crossover shortened a child, which then became the best individual. *)
Theorem genetic_generate_five_reds :
  ∃ self c t',
    GeneticModel.init GeneticRun.history ∅ = Ok self
    ∧ GeneticModel.generate self GeneticRun.outcomes = (Ok c, t')
    ∧ reds c = [3; 8; 15; 20; 27]
    ∧ ¬ ValidCandidate c.
Proof.
  set (self := GeneticModel.Self GeneticRun.history GeneticModel.default_params
                 120 60 (VFloat (85 # 100)) (8 # 100) (12 # 100) 80 (45 # 100)
                 (25 # 100) (15 # 100) (10 # 100) (5 # 100) 14).
  assert (H : match fst (GeneticModel.generate self GeneticRun.outcomes) with
              | Ok c => Some (reds c)
              | Raise _ => None
              end = Some [3; 8; 15; 20; 27]) by (vm_compute; reflexivity).
  exists self.
  destruct (GeneticModel.generate self GeneticRun.outcomes) as [[c|e] t'];
    [|discriminate H].
  exists c, t'. split; [apply genetic_init_default|]. split; [reflexivity|].
  injection H as H. split; [exact H|].
  intros [[Hlen _] _]. rewrite H in Hlen. discriminate Hlen.
Qed.


Lemma bayes_check_constraints_spec (self : BayesianModel.t) (lo hi smin smax mc : Q) (reds : list Z) :
  getnum (BayesianModel.params self) "min_odd_count" = Ok lo →
  getnum (BayesianModel.params self) "max_odd_count" = Ok hi →
  getnum (BayesianModel.params self) "min_sum" = Ok smin →
  getnum (BayesianModel.params self) "max_sum" = Ok smax →
  getnum (BayesianModel.params self) "max_consecutive" = Ok mc →
  BayesianModel._check_constraints self reds
  = Ok (zones_hit reds && accepts lo hi smin smax mc reds).
Proof.
  intros H1 H2 H3 H4 H5.
  unfold BayesianModel._check_constraints, accepts, count_and_sum_ok, pairs_ok, zones_hit.
  destruct (Nat.eqb (length reds) 6); [|by rewrite andb_false_r]. cbn [negb andb].
  rewrite H1, H2, H3, H4. cbn [rbind]. unfold Qlt_bool.
  destruct (Qle_bool lo _); cbn [negb rbind andb]; [|by rewrite andb_false_r].
  destruct (Qle_bool _ hi); cbn [negb rbind andb]; [|by rewrite andb_false_r].
  destruct (_ =? 0); cbn [negb orb andb]; [done|].
  destruct (_ =? 0); cbn [negb orb andb]; [done|].
  destruct (_ =? 0); cbn [negb orb andb]; [done|].
  destruct (Qle_bool smin _); cbn [negb rbind andb]; [|done].
  destruct (Qle_bool _ smax); cbn [negb rbind andb]; [|done].
  by rewrite (consecutive_loop_spec _ mc H5).
Qed.

Lemma pairs_ok_two (mc : Q) (reds : list Z) :
  (mc == 2)%Q → pairs_ok mc reds = (adjacent_pairs reds <=? 2).
Proof.
  intros Hmc. unfold pairs_ok. change 2%Q with (inject_Z 2) in Hmc.
  assert (E : Qle_bool (inject_Z (adjacent_pairs reds)) mc = (adjacent_pairs reds <=? 2)).
  { rewrite <- Qle_bool_inject. destruct (Qle_bool _ (inject_Z 2)) eqn:E2.
    - apply Qle_bool_iff. apply Qle_bool_iff in E2. by rewrite Hmc.
    - apply not_true_is_false. intros E1%Qle_bool_iff. rewrite Hmc in E1.
      apply Qle_bool_iff in E1. congruence. }
  rewrite E. pose proof (adjacent_pairs_nonneg reds).
  destruct (adjacent_pairs reds =? 0) eqn:E0; simpl; lia.
Qed.

(** C4 (as amended): both constraint checks count the adjacent pairs of the
    whole combination, without a reset at a break, and reject exactly when
    that count exceeds [max_consecutive] (the other rules passing); with the
    default 2 this accepts up to two adjacent pairs, a run of three
    consecutive values included. *)
Theorem check_counts_all_pairs (p : gmap string pyval) (lo hi smin smax mc : Q)
    (rself : RandomLotteryModel.t) (bself : BayesianModel.t) (reds : list Z) :
  getnum p "min_odd_count" = Ok lo → getnum p "max_odd_count" = Ok hi →
  getnum p "min_sum" = Ok smin → getnum p "max_sum" = Ok smax →
  getnum p "max_consecutive" = Ok mc →
  RandomLotteryModel.params rself = p → BayesianModel.params bself = p →
  RandomLotteryModel._check_constraints rself reds
  = Ok (count_and_sum_ok lo hi smin smax reds && pairs_ok mc reds)
  ∧ BayesianModel._check_constraints bself reds
    = Ok (zones_hit reds && (count_and_sum_ok lo hi smin smax reds && pairs_ok mc reds))
  ∧ ((mc == 2)%Q → pairs_ok mc reds = (adjacent_pairs reds <=? 2)).
Proof.
  intros H1 H2 H3 H4 H5 Hr Hb.
  split; [apply check_constraints_spec; by rewrite Hr|].
  split; [apply bayes_check_constraints_spec; by rewrite Hb|].
  apply pairs_ok_two.
Qed.

Lemma check_counts_all_pairs_witness :
  RandomLotteryModel._check_constraints
    (RandomLotteryModel.Self [] RandomLotteryModel.default_params
       (VBool false) (VBool false) (VInt 50))
    [10; 11; 12; 20; 25; 31] = Ok true
  ∧ BayesianModel._check_constraints
      (BayesianModel.Self [] RandomLotteryModel.default_params (VFloat 1) (VFloat 1)
         (VFloat 1) (VFloat (1 # 1000)) (VInt 100) [] (0%Q, 0%Q))
      [10; 11; 12; 20; 25; 31] = Ok true.
Proof.
  destruct (check_counts_all_pairs RandomLotteryModel.default_params 2 4 70 140 2
              (RandomLotteryModel.Self [] RandomLotteryModel.default_params
                 (VBool false) (VBool false) (VInt 50))
              (BayesianModel.Self [] RandomLotteryModel.default_params (VFloat 1) (VFloat 1)
                 (VFloat 1) (VFloat (1 # 1000)) (VInt 100) [] (0%Q, 0%Q))
              [10; 11; 12; 20; 25; 31]) as (H1 & H2 & _); try reflexivity.
  split; [exact H1|exact H2].
Defined.

(** C4, counterexample: under the default parameters a run of three
    consecutive values is accepted, and of two combinations with the same
    longest run the one with three separate pairs is rejected while the one
    with a single pair is accepted. *)
Lemma run_of_three_accepted :
  ∃ rself bself,
    RandomLotteryModel.init [] ∅ = Ok rself ∧ BayesianModel.init [] ∅ = Ok bself
    ∧ RandomLotteryModel._check_constraints rself [10; 11; 12; 20; 25; 31] = Ok true
    ∧ BayesianModel._check_constraints bself [10; 11; 12; 20; 25; 31] = Ok true
    ∧ longest_run [1; 2; 12; 13; 30; 31] = longest_run [1; 2; 12; 14; 29; 31]
    ∧ RandomLotteryModel._check_constraints rself [1; 2; 12; 13; 30; 31] = Ok false
    ∧ RandomLotteryModel._check_constraints rself [1; 2; 12; 14; 29; 31] = Ok true
    ∧ BayesianModel._check_constraints bself [1; 2; 12; 13; 30; 31] = Ok false
    ∧ BayesianModel._check_constraints bself [1; 2; 12; 14; 29; 31] = Ok true.
Proof.
  eexists _, _. split; [apply default_self|]. split; [vm_compute; reflexivity|].
  repeat split; vm_compute; reflexivity.
Qed.


(** C9 (as amended): [a] dominates [b] iff [a >= b] in every objective and
    [a > b] in at least one; [1,1,1,1,1] dominates [0,0,0,0,0] and neither
    of [1,0] and [0,1] dominates the other; the crowding distance of a front
    of at most two individuals is infinite everywhere, and in a larger front
    the individuals sorted first and last by an objective, hence every
    individual that is the only minimum or the only maximum of an objective,
    receive infinite distance. *)
Theorem pareto_ranking :
  (∀ a b, Nsga2Model.dominates a b = true ↔
     (∀ i x y, a !! i = Some x → b !! i = Some y → (y <= x)%Q)
     ∧ (∃ i x y, a !! i = Some x ∧ b !! i = Some y ∧ (y < x)%Q))
  ∧ Nsga2Model.dominates [1; 1; 1; 1; 1]%Q [0; 0; 0; 0; 0]%Q = true
  ∧ Nsga2Model.dominates [1; 0]%Q [0; 1]%Q = false
  ∧ Nsga2Model.dominates [0; 1]%Q [1; 0]%Q = false
  ∧ (∀ (ff : list (list Q)) (m : nat),
       Forall (λ v, length v = m) ff →
       ∃ distance,
         Nsga2Model._crowding_distance ff = Ok distance
         ∧ length distance = length ff
         ∧ ((length ff ≤ 2)%nat → Forall (λ d, d = Inf) distance)
         ∧ ((2 < length ff)%nat → ∀ obj keys, (obj < m)%nat →
              Nsga2Model.column ff obj = Ok keys →
              (∀ lo, head (Nsga2Model.sorted_idx keys) = Some lo →
                 distance !! fst lo = Some Inf)
              ∧ (∀ hi, last (Nsga2Model.sorted_idx keys) = Some hi →
                   distance !! fst hi = Some Inf)
              ∧ (∀ i k, keys !! i = Some k →
                   (∀ j k', j ≠ i → keys !! j = Some k' → (k < k')%Q) →
                   distance !! i = Some Inf)
              ∧ (∀ i k, keys !! i = Some k →
                   (∀ j k', j ≠ i → keys !! j = Some k' → (k' < k)%Q) →
                   distance !! i = Some Inf))).
Proof.
  split; [apply dominates_iff|]. do 3 (split; [reflexivity|]).
  apply crowding_boundaries.
Qed.

Lemma pareto_ranking_witness :
  ∃ distance,
    Nsga2Model._crowding_distance [[0; 5]; [1; 4]; [2; 3]]%Q = Ok distance
    ∧ distance !! 0%nat = Some Inf ∧ distance !! 2%nat = Some Inf.
Proof.
  destruct pareto_ranking as (_ & _ & _ & _ & H).
  destruct (H [[0; 5]; [1; 4]; [2; 3]]%Q 2%nat) as (distance & Hd & _ & _ & Hb).
  { repeat constructor. }
  exists distance. split; [exact Hd|].
  destruct (Hb ltac:(simpl; lia) 0%nat [0; 1; 2]%Q ltac:(lia) eq_refl) as (_ & _ & Hmin & Hmax).
  split.
  - apply (Hmin 0%nat 0%Q eq_refl). intros [|[|[|j]]] k' Hj; simpl; intros [= <-]; done.
  - apply (Hmax 2%nat 2%Q eq_refl). intros [|[|[|j]]] k' Hj; simpl; intros [= <-]; done.
Defined.

(** C9, counterexample: three mutually non-dominated vectors in which the
    second ties with the first for the minimum of objective 0 (and all three
    tie in objectives 3 and 4); the second receives a finite distance. *)
Lemma tied_minimum_finite_distance :
  let ff := [[0; 5; 1; 0; 0]; [0; 4; 2; 0; 0]; [1; 3; 3; 0; 0]]%Q in
  Nsga2Model.first_front ff = [0; 1; 2]%nat
  ∧ (∀ v k, v ∈ ff → v !! 0%nat = Some k → (0 <= k)%Q)
  ∧ ∃ q, Nsga2Model._crowding_distance ff = Ok [Inf; Fin q; Inf] ∧ (q == 3)%Q.
Proof.
  intros ff. split; [reflexivity|]. split.
  - intros v k Hv Hk. subst ff.
    repeat (apply elem_of_cons in Hv as [->|Hv]; [injection Hk as <-; done|]).
    by apply elem_of_nil in Hv.
  - eexists. split; [vm_compute; reflexivity|]. reflexivity.
Qed.

(** C3, witness: the random baseline and the odd/even model both resolve;
    the result is the plain baseline candidate. *)
Lemma fusion_never_returned_witness :
  ∃ c t1 t',
    ModelManager.execute "vip" [Draw (Some [1; 2; 3; 4; 5; 6]) None (Some 1)]
      [Perm "random" (VFloat (1 # 2)) None; Perm "odd_even_balance" (VFloat (1 # 2)) None]
      Classes.registered ∅ []
    = (Ok (candidate_value c), t')
    ∧ RandomLotteryModel.generate_default t1 = (Ok c, t')
    ∧ ValidCandidate c.
Proof.
  apply fusion_never_returned. vm_compute. lia.
Defined.

Lemma zero_strategies_floor_witness :
  ∃ c t',
    ModelManager.execute "vip" [Draw (Some [1; 2; 3; 4; 5; 6]) None (Some 1)]
      [Perm "no_such_model" (VFloat 1) None] Classes.registered ∅ []
    = (Ok (candidate_value c), t')
    ∧ RandomLotteryModel.generate_default [] = (Ok c, t')
    ∧ ValidCandidate c.
Proof.
  apply zero_strategies_floor. right. constructor; [|constructor].
  intros (cls & m & Hg & _). vm_compute in Hg. discriminate Hg.
Defined.

Lemma failed_run_leaves_record_witness :
  ∃ r', records Fixture.db0 !! 1 = Some r' ∧ status r' = "running"
        ∧ status r' ≠ "failed" ∧ finished_at r' = None.
Proof.
  destruct (failed_run_leaves_record (failing_engine ValueError) Fixture.draws 7
              Fixture.db0 1 0 "v1" 2 "entropy" [] (Retry ValueError) Fixture.db0 [])
    as [_ H]; [vm_compute; reflexivity|].
  apply (H Fixture.record0); reflexivity.
Defined.

Lemma bayes_posterior_witness :
  ∃ post post',
    BayesianModel._build_red_posterior [Draw (Some [8; 9]) None None]
      (VFloat 1) (VFloat 1) (VInt 100) = Ok post
    ∧ BayesianModel._build_red_posterior
        [Draw (Some [7; 9]) None None; Draw (Some [7]) None None]
        (VFloat 1) (VFloat 1) (VInt 100) = Ok post'
    ∧ length post = 33%nat.
Proof.
  destruct (bayes_posterior [Draw (Some [8; 9]) None None]
              [Draw (Some [7; 9]) None None; Draw (Some [7]) None None]
              (VFloat 1) (VFloat 1) (VInt 100) 1 1
              [Draw (Some [8; 9]) None None]
              [Draw (Some [7; 9]) None None; Draw (Some [7]) None None])
    as (post & post' & H1 & H2 & H3 & _); try reflexivity.
  by exists post, post'.
Defined.

(** C8, counterexample: with prior 1.0 and likelihood weight 1e-17 the
    number 7 occurs once in the first window and twice in the second, the
    weight is positive, and the posterior entry of 7 is 1.0 in both: the
    entry does not increase with the count. *)
Lemma small_weight_absorbed :
  let h := [Draw (Some [7; 9; 14; 21; 26; 33]) None (Some 5)] in
  let h' := [Draw (Some [7; 9; 14; 21; 26; 33]) None (Some 5);
             Draw (Some [7; 10; 15; 22; 27; 32]) None (Some 6)] in
  let w := VFloat (1 # 100000000000000000) in
  ∃ post post',
    BayesianModel._build_red_posterior h (VFloat 1) w (VInt 100) = Ok post
    ∧ BayesianModel._build_red_posterior h' (VFloat 1) w (VInt 100) = Ok post'
    ∧ occurrences 7 h = 1 ∧ occurrences 7 h' = 2
    ∧ (0 < fl64 (1 # 100000000000000000))%Q
    ∧ post !! 6%nat = Some 1%Q ∧ post' !! 6%nat = Some 1%Q.
Proof.
  intros h h' w.
  eexists _, _. split; [vm_compute; reflexivity|]. split; [vm_compute; reflexivity|].
  repeat split; vm_compute; reflexivity.
Qed.

(** * Further properties of the code *)

Lemma valid_reds_sample : ValidReds [2; 9; 14; 21; 26; 33].
Proof.
  split; [reflexivity|]. split.
  - repeat (apply NoDup_cons; split; [rewrite ?elem_of_cons, elem_of_nil; lia|]). constructor.
  - split; [repeat constructor; unfold in_range; lia|].
    repeat constructor; lia.
Qed.


(** ** compute/random_model.py: the attempt loop *)

(** X1: the random baseline built from any history and any overrides that
    leave ["max_attempts"] an integer of at least 1 and the five constraint
    bounds numeric returns, whatever the random draws and whether or not an
    attempt passes the constraints, a candidate with six distinct ascending
    reds of 1..33 and a blue of 1..16.  This covers the [prefer_odd_red]
    branch, which draws three or four odd and the remaining even numbers. *)
Theorem random_generate_valid (history : list draw) (overrides : gmap string pyval)
    (self : RandomLotteryModel.t) (n : Z) (lo hi smin smax mc : Q) (t : tape) :
  RandomLotteryModel.init history overrides = Ok self →
  getint (RandomLotteryModel.params self) "max_attempts" = Ok n → 1 ≤ n →
  getnum (RandomLotteryModel.params self) "min_odd_count" = Ok lo →
  getnum (RandomLotteryModel.params self) "max_odd_count" = Ok hi →
  getnum (RandomLotteryModel.params self) "min_sum" = Ok smin →
  getnum (RandomLotteryModel.params self) "max_sum" = Ok smax →
  getnum (RandomLotteryModel.params self) "max_consecutive" = Ok mc →
  ∃ c t', RandomLotteryModel.generate self t = (Ok c, t') ∧ ValidCandidate c.
Proof.
  intros Hi Hn Hpos H1 H2 H3 H4 H5.
  apply (generate_valid self n); [|done|].
  - unfold RandomLotteryModel.init in Hi.
    destruct (getitem _ "prefer_odd_red"); [|done]. cbn [rbind] in Hi.
    destruct (getitem _ "prefer_odd_blue"); [|done]. cbn [rbind] in Hi.
    destruct (getitem _ "max_attempts") as [v|] eqn:E; [|done]. cbn [rbind] in Hi.
    injection Hi as <-. cbn in *. unfold getint in Hn. rewrite E in Hn. exact Hn.
  - intros reds. eexists. by apply (check_constraints_spec _ lo hi smin smax mc).
Qed.

Lemma random_generate_valid_witness :
  ∃ c t',
    RandomLotteryModel.generate
      (RandomLotteryModel.Self [] RandomLotteryModel.default_params
         (VBool false) (VBool false) (VInt 50)) [] = (Ok c, t')
    ∧ ValidCandidate c.
Proof.
  apply (random_generate_valid [] ∅ _ 50 2 4 70 140 2 []);
    [apply default_self|reflexivity|lia|reflexivity..].
Defined.

(** X2: with [max_attempts <= 0] the attempt loop never runs, the fallback
    fills [reds], and the returned dict evaluates [attempt + 1] for a loop
    variable that was never bound: [generate] raises [NameError] (Python's
    [UnboundLocalError]) on every sequence of random draws. *)
Theorem random_generate_no_attempt (self : RandomLotteryModel.t) (n : Z) (t : tape) :
  int (RandomLotteryModel.max_attempts self) = Ok n → n ≤ 0 →
  ∃ t', RandomLotteryModel.generate self t = (Raise NameError, t').
Proof.
  intros Hn Hle. unfold RandomLotteryModel.generate. unfold bind at 1, lift. rewrite Hn.
  replace (Z.to_nat n) with O by lia. cbn [RandomLotteryModel.attempt_loop].
  unfold bind at 1, ret at 1.
  destruct (sample_spec all_reds 6 t) as (xs & t1 & Hxs & Hl & _ & _);
    [done|apply all_reds_NoDup|].
  unfold bind at 1. unfold bind at 1. rewrite Hxs. unfold ret at 1.
  destruct (pick_blue_valid (RandomLotteryModel.prefer_odd_blue self) t1) as (b & t2 & Hb & _).
  unfold bind at 1. rewrite Hb.
  assert (Hs : length (sorted xs) = 6%nat) by (rewrite (Permutation_length (sorted_perm xs)); lia).
  destruct (sorted xs) as [|x0 rest]; [done|].
  unfold bind, raise. eauto.
Qed.

Lemma random_generate_no_attempt_witness :
  ∃ t',
    RandomLotteryModel.generate
      (RandomLotteryModel.Self [] RandomLotteryModel.default_params
         (VBool false) (VBool false) (VInt 0)) [5%N] = (Raise NameError, t').
Proof.
  apply (random_generate_no_attempt _ 0); [reflexivity|lia].
Defined.

(** ** compute/genetic_model.py: fitness, selection, crossover, mutation *)

Lemma pymax_bounds (a b : Q) : (a <= pymax a b)%Q ∧ (b <= pymax a b)%Q.
Proof.
  unfold pymax. destruct (Qlt_bool a b) eqn:E.
  - apply Qlt_bool_iff in E. lra.
  - apply Qlt_bool_false in E. lra.
Qed.

Lemma pymax_le (a b c : Q) : (a <= c)%Q → (b <= c)%Q → (pymax a b <= c)%Q.
Proof. intros. unfold pymax. by destruct (Qlt_bool a b). Qed.

Lemma pymin_le_l (a b : Q) : (pymin a b <= a)%Q.
Proof.
  unfold pymin. destruct (Qlt_bool b a) eqn:E; [|lra].
  apply Qlt_bool_iff in E. lra.
Qed.

Lemma fitness_range (self : GeneticModel.t) (reds : list Z) (v : Q) :
  GeneticModel._fitness self reds = Ok v → (1 # 100 <= v)%Q ∧ (v <= 1)%Q.
Proof.
  unfold GeneticModel._fitness.
  destruct (GeneticModel.history_score self reds) as [hs|]; [|done]. cbn [rbind].
  destruct (GeneticModel.sum_score self _) as [ss|]; [|done]. cbn [rbind].
  intros [= <-]. rewrite fl_eq. split.
  - apply pymax_bounds.
  - apply pymax_le; [lra|apply pymin_le_l].
Qed.

Lemma sum_score_ok (self : GeneticModel.t) (lo hi total : Q) :
  getnum (GeneticModel.params self) "min_sum" = Ok lo →
  getnum (GeneticModel.params self) "max_sum" = Ok hi →
  ∃ s, GeneticModel.sum_score self total = Ok s.
Proof.
  intros H1 H2. unfold GeneticModel.sum_score. rewrite H1, H2. cbn [rbind].
  destruct (Qle_bool lo total); cbn [rbind]; [destruct (Qle_bool total hi)|]; eauto.
Qed.

Lemma slice_from_neg_length {A} (w : Z) (l : list A) :
  0 < w → length (slice_from (- w) l) = Nat.min (Z.to_nat w) (length l).
Proof.
  intros Hw. unfold slice_from. replace (- w <? 0) with true by lia.
  rewrite length_drop. lia.
Qed.

(** X3: every value [_fitness] returns lies in [0.01, 1.0]; and it does
    return a value when the history is empty, and when the history holds at
    least four draws with a non-empty ["reds"] each and the window is at
    least 4 (the sum bounds being numeric). *)
Theorem fitness_bounds (self : GeneticModel.t) (reds : list Z) (lo hi : Q) :
  getnum (GeneticModel.params self) "min_sum" = Ok lo →
  getnum (GeneticModel.params self) "max_sum" = Ok hi →
  (∀ v, GeneticModel._fitness self reds = Ok v → (1 # 100 <= v)%Q ∧ (v <= 1)%Q)
  ∧ (GeneticModel.history self = [] → ∃ v, GeneticModel._fitness self reds = Ok v)
  ∧ (4 ≤ GeneticModel.history_window self →
     (4 ≤ length (GeneticModel.history self))%nat →
     Forall (λ d, ∃ x l, d_reds d = Some (x :: l)) (GeneticModel.history self) →
     ∃ v, GeneticModel._fitness self reds = Ok v).
Proof.
  intros H1 H2. split; [apply fitness_range|].
  assert (Hs : ∀ total, ∃ s, GeneticModel.sum_score self total = Ok s)
    by (intros; by eapply sum_score_ok).
  split.
  - intros Hh. unfold GeneticModel._fitness, GeneticModel.history_score. rewrite Hh.
    cbn [rbind]. destruct (Hs (inject_Z (sumZ reds))) as [s ->]. cbn [rbind]. eauto.
  - intros Hw Hlen Hall. unfold GeneticModel._fitness, GeneticModel.history_score.
    destruct (GeneticModel.history self) as [|d0 h0] eqn:Hh; [simpl in Hlen; lia|].
    rewrite <- Hh in *. set (recent := slice_from _ _).
    assert (Hrl : (4 ≤ length recent)%nat).
    { subst recent. rewrite slice_from_neg_length by lia. lia. }
    assert (Hsub : ∀ d, d ∈ recent → ∃ x l, d_reds d = Some (x :: l)).
    { intros d Hd. apply (proj1 (Forall_forall _ _) Hall).
      subst recent. unfold slice_from in Hd. replace (- _ <? 0) with true in Hd by lia.
      eapply elem_of_sublist; [exact Hd|apply sublist_drop]. }
    assert (Hidx : ∀ k, (1 ≤ k ≤ 4) → ∃ d, index recent (- k) = Ok d ∧ d ∈ recent).
    { intros k Hk. unfold index. replace (- k <? 0) with true by lia.
      replace (Z.of_nat (length recent) + - k <? 0) with false by lia.
      destruct (lookup_lt_is_Some_2 recent (Z.to_nat (Z.of_nat (length recent) + - k)))
        as [d Hd]; [lia|].
      rewrite Hd. exists d. split; [done|]. by eapply list_elem_of_lookup_2. }
    destruct (Hidx 1) as (d1 & E1 & _); [lia|]. change (- (1)) with (-1) in E1.
    rewrite E1. cbn [rbind].
    replace (3 <=? Z.of_nat (length recent)) with true by lia.
    destruct (Hidx 4) as (d4 & E4 & Hd4); [lia|]. change (- (4)) with (-4) in E4.
    rewrite E4. cbn [rbind].
    destruct (Hsub d4 Hd4) as (x & l & Hr).
    unfold item_reds. rewrite Hr. cbn [rbind].
    destruct (Hs (inject_Z (sumZ reds))) as [s ->]. cbn [rbind]. eauto.
Qed.

Lemma fitness_bounds_witness :
  ∃ v,
    GeneticModel._fitness
      (GeneticModel.Self [] GeneticModel.default_params 120 60 (VFloat (85 # 100))
         (8 # 100) (12 # 100) 80 (45 # 100) (25 # 100) (15 # 100) (10 # 100) (5 # 100) 14)
      [2; 9; 14; 21; 26; 33] = Ok v
    ∧ (1 # 100 <= v)%Q ∧ (v <= 1)%Q.
Proof.
  destruct (fitness_bounds
              (GeneticModel.Self [] GeneticModel.default_params 120 60 (VFloat (85 # 100))
                 (8 # 100) (12 # 100) 80 (45 # 100) (25 # 100) (15 # 100) (10 # 100)
                 (5 # 100) 14)
              [2; 9; 14; 21; 26; 33] 70 140 eq_refl eq_refl) as (Hb & He & _).
  destruct (He eq_refl) as [v Hv]. exists v. split; [exact Hv|]. apply Hb, Hv.
Defined.

Lemma pysum_foldl (l : list Q) : ∀ acc, (foldl (λ a b, fl (a + b)) acc l == acc + sumQ l)%Q.
Proof.
  induction l as [|x l IH]; intros acc; simpl; [lra|].
  rewrite IH, fl_eq. lra.
Qed.

Lemma pysum_sumQ (l : list Q) : (pysum l == sumQ l)%Q.
Proof. unfold pysum. rewrite pysum_foldl. lra. Qed.

Lemma sumQ_pos (l : list Q) :
  l ≠ [] → Forall (λ f, 1 # 100 <= f)%Q l → (0 < sumQ l)%Q.
Proof.
  intros Hne Hall. destruct Hall as [|x l Hx Hl]; [done|]. simpl.
  assert (0 <= sumQ l)%Q.
  { clear Hne Hx. induction Hl as [|y l Hy _ IH]; simpl; lra. }
  lra.
Qed.

Lemma roulette_member (pick : Q) (pairs : list (list Z * Q)) : ∀ current ind,
  GeneticModel.roulette pick current pairs = Some ind → ind ∈ map fst pairs.
Proof.
  induction pairs as [|[i f] pairs IH]; intros current ind; [done|]. simpl.
  destruct (Qle_bool pick _).
  - intros [= <-]. left.
  - intros H. right. by eapply IH.
Qed.

Lemma index_last {A} (l : list A) : l ≠ [] → ∃ x, index l (-1) = Ok x ∧ x ∈ l.
Proof.
  intros Hne. assert (0 < length l)%nat by (destruct l; [done|simpl; lia]).
  unfold index. change (-1 <? 0) with true. cbv iota.
  replace (Z.of_nat (length l) + -1 <? 0) with false by lia.
  destruct (lookup_lt_is_Some_2 l (Z.to_nat (Z.of_nat (length l) + -1))) as [x Hx]; [lia|].
  rewrite Hx. exists x. split; [done|]. by eapply list_elem_of_lookup_2.
Qed.

(** X4: roulette selection over a non-empty population whose fitness values
    are all at least 0.01 (what [_fitness] guarantees) sees a positive total,
    reads one random number and returns a member of the population; the
    [population[-1]] fallback after the loop is a member too. *)
Theorem select_member (population : list (list Z)) (fitnesses : list Q) (t : tape) :
  population ≠ [] → length fitnesses = length population →
  Forall (λ f, 1 # 100 <= f)%Q fitnesses →
  (0 < pysum fitnesses)%Q
  ∧ ∃ ind t', GeneticModel._select population fitnesses t = (Ok ind, t')
              ∧ ind ∈ population ∧ length t' = pred (length t).
Proof.
  intros Hne Hlen Hall.
  assert (Hpos : (0 < pysum fitnesses)%Q).
  { rewrite pysum_sumQ. apply sumQ_pos; [|done]. intros ->. by destruct population. }
  split; [done|]. unfold GeneticModel._select.
  assert (Qle_bool (pysum fitnesses) 0 = false) as ->.
  { apply not_true_is_false. intros H%Qle_bool_iff. lra. }
  unfold Random.uniform, Random.random.
  destruct (next_ok t) as (n & t1 & Hn). unfold bind. rewrite Hn. unfold ret.
  assert (Ht : length t1 = pred (length t)).
  { unfold next in Hn. destruct t; injection Hn as _ <-; done. }
  destruct (GeneticModel.roulette _ _ _) as [ind|] eqn:R.
  - exists ind, t1. split; [done|]. split; [|done].
    apply roulette_member in R. apply list_elem_of_fmap in R as ([i f] & -> & Hin).
    by apply elem_of_zip_l in Hin.
  - destruct (index_last population Hne) as (x & Hx & Hin).
    unfold lift. rewrite Hx. by exists x, t1.
Qed.

Lemma select_member_witness :
  (0 < pysum [1 # 2; 1 # 4])%Q
  ∧ ∃ ind t',
      GeneticModel._select [[2; 9; 14; 21; 26; 33]; [1; 2; 3; 4; 5; 6]] [1 # 2; 1 # 4] [7%N]
      = (Ok ind, t')
      ∧ ind ∈ [[2; 9; 14; 21; 26; 33]; [1; 2; 3; 4; 5; 6]] ∧ length t' = 0%nat.
Proof.
  apply (select_member [[2; 9; 14; 21; 26; 33]; [1; 2; 3; 4; 5; 6]] [1 # 2; 1 # 4] [7%N]);
    [discriminate|reflexivity|].
  repeat constructor; apply Qle_bool_iff; reflexivity.
Defined.

Lemma remove_dups_length_le (l : list Z) : (length (remove_dups l) ≤ length l)%nat.
Proof.
  induction l as [|x l IH]; [done|]. simpl.
  destruct (decide_rel elem_of x l); simpl; lia.
Qed.

Lemma remove_dups_length_NoDup (l : list Z) :
  length (remove_dups l) = length l ↔ NoDup l.
Proof.
  split; [|by intros H; rewrite remove_dups_id].
  induction l as [|x l IH]; [constructor|]. simpl.
  pose proof (remove_dups_length_le l).
  destruct (decide_rel elem_of x l) as [Hin|Hnin]; simpl; [lia|].
  intros H'. constructor; [done|apply IH; lia].
Qed.

Lemma sorted_set_spec (l : list Z) :
  NoDup (sorted_set l) ∧ Sorted Z.le (sorted_set l)
  ∧ (∀ x, x ∈ sorted_set l ↔ x ∈ l)
  ∧ (length (sorted_set l) ≤ length l)%nat
  ∧ (length (sorted_set l) = length l ↔ NoDup l).
Proof.
  unfold sorted_set. pose proof (sorted_perm (remove_dups l)) as Hp.
  split; [rewrite Hp; apply NoDup_remove_dups|]. split; [apply sorted_Sorted|].
  split; [intros x; by rewrite Hp, elem_of_remove_dups|].
  rewrite (Permutation_length Hp).
  split; [apply remove_dups_length_le|apply remove_dups_length_NoDup].
Qed.

Lemma crossover_mix_length (p1 p2 : list Z) (point : Z) :
  length p1 = 6%nat → length p2 = 6%nat → 1 ≤ point ≤ 5 →
  length (slice_to point p1 ++ slice_from point p2) = 6%nat.
Proof.
  intros H1 H2 Hp. unfold slice_to, slice_from. replace (point <? 0) with false by lia.
  rewrite length_app, length_take, length_drop. lia.
Qed.

(** X5: single-point crossover of two six-number parents cuts at a point of
    1..5 and returns two children that are ascending, free of duplicates
    and made of the parents' numbers only; a child is never longer than six
    and has six numbers exactly when the head of one parent and the tail of
    the other share no number, so a shared number makes it shorter. *)
Theorem crossover_children (p1 p2 : list Z) (t : tape) :
  length p1 = 6%nat → length p2 = 6%nat →
  ∃ point c1 c2 t',
    1 ≤ point ≤ 5
    ∧ GeneticModel._crossover p1 p2 t = (Ok (c1, c2), t')
    ∧ NoDup c1 ∧ Sorted Z.le c1 ∧ (∀ x, x ∈ c1 → x ∈ p1 ∨ x ∈ p2)
    ∧ NoDup c2 ∧ Sorted Z.le c2 ∧ (∀ x, x ∈ c2 → x ∈ p1 ∨ x ∈ p2)
    ∧ (length c1 ≤ 6)%nat ∧ (length c2 ≤ 6)%nat
    ∧ (length c1 = 6%nat ↔ NoDup (slice_to point p1 ++ slice_from point p2))
    ∧ (length c2 = 6%nat ↔ NoDup (slice_to point p2 ++ slice_from point p1)).
Proof.
  intros H1 H2. destruct (randint_spec 1 5 t) as (point & t' & Hr & Hp); [lia|].
  unfold GeneticModel._crossover, bind. rewrite Hr. unfold ret.
  exists point. eexists _, _, t'. split; [done|]. split; [reflexivity|].
  pose proof (crossover_mix_length p1 p2 point H1 H2 Hp) as L1.
  pose proof (crossover_mix_length p2 p1 point H2 H1 Hp) as L2.
  destruct (sorted_set_spec (slice_to point p1 ++ slice_from point p2))
    as (N1 & S1 & M1 & Le1 & Eq1).
  destruct (sorted_set_spec (slice_to point p2 ++ slice_from point p1))
    as (N2 & S2 & M2 & Le2 & Eq2).
  rewrite L1 in Le1, Eq1. rewrite L2 in Le2, Eq2.
  assert (Hsub : ∀ (a b : list Z) x,
            x ∈ slice_to point a ++ slice_from point b → x ∈ a ∨ x ∈ b).
  { intros a b x Hx. unfold slice_to, slice_from in Hx.
    replace (point <? 0) with false in Hx by lia.
    apply elem_of_app in Hx as [Hx|Hx].
    - left. eapply elem_of_sublist; [exact Hx|apply sublist_take].
    - right. eapply elem_of_sublist; [exact Hx|apply sublist_drop]. }
  repeat split; try done.
  - intros x Hx. apply M1 in Hx. by apply Hsub.
  - intros x Hx. apply M2 in Hx. apply Hsub in Hx. tauto.
  - by apply Eq1.
  - by apply Eq1.
  - by apply Eq2.
  - by apply Eq2.
Qed.

Lemma crossover_children_witness :
  ∃ point c1 c2 t',
    1 ≤ point ≤ 5
    ∧ GeneticModel._crossover [1; 2; 3; 4; 5; 6] [2; 9; 14; 21; 26; 33] [] = (Ok (c1, c2), t')
    ∧ NoDup c1 ∧ NoDup c2 ∧ (length c1 ≤ 6)%nat ∧ (length c2 ≤ 6)%nat.
Proof.
  destruct (crossover_children [1; 2; 3; 4; 5; 6] [2; 9; 14; 21; 26; 33] [] eq_refl eq_refl)
    as (point & c1 & c2 & t' & Hp & Hc & N1 & _ & _ & N2 & _ & _ & L1 & L2 & _).
  exists point, c1, c2, t'. repeat split; try done; lia.
Defined.

Lemma insert_NoDup (l : list Z) (i : nat) (v : Z) :
  NoDup l → v ∉ l → NoDup (<[i := v]> l).
Proof.
  intros Hnd Hv. destruct (decide (i < length l)%nat) as [Hi|Hi];
    [|by rewrite list_insert_ge by lia].
  rewrite insert_take_drop by done.
  rewrite <- (take_drop i l) in Hnd, Hv.
  apply NoDup_app in Hnd as (N1 & Hd & N2).
  apply NoDup_app. split; [done|]. split.
  - intros x Hx Hx'. apply elem_of_cons in Hx' as [->|Hx'].
    + apply Hv, elem_of_app. by left.
    + apply (Hd x Hx). eapply elem_of_sublist; [exact Hx'|].
      replace (S i) with (i + 1)%nat by lia. rewrite <- drop_drop. apply sublist_drop.
  - constructor.
    + intros Hx. apply Hv, elem_of_app. right.
      eapply elem_of_sublist; [exact Hx|].
      replace (S i) with (i + 1)%nat by lia. rewrite <- drop_drop. apply sublist_drop.
    + eapply sublist_NoDup; [exact N2|].
      replace (S i) with (i + 1)%nat by lia. rewrite <- drop_drop. apply sublist_drop.
Qed.

Lemma fresh_number_spec (ind : list Z) (t : tape) :
  ∃ r t', GeneticModel.fresh_number ind t = (r, t')
          ∧ (r = Raise NonTermination ∨ ∃ v, r = Ok v ∧ (v ∉ ind) ∧ in_range 1 33 v).
Proof.
  induction t as [|n t IH]; simpl.
  - destruct (memZ 1 ind) eqn:E; eexists _, _; (split; [reflexivity|]); [by left|].
    right. exists 1. split; [done|]. split; [|unfold in_range; lia].
    intros H. apply memZ_true in H. congruence.
  - destruct (memZ _ ind) eqn:E; [exact IH|]. eexists _, _. split; [reflexivity|].
    right. eexists. split; [done|]. split.
    + intros H. apply memZ_true in H. congruence.
    + unfold in_range. pose proof (Z.mod_pos_bound (Z.of_N n) 33). lia.
Qed.

Lemma mutate_loop_spec (passes : nat) : ∀ (ind : list Z) (t : tape),
  Individual ind →
  ∃ r t', GeneticModel.mutate_loop passes ind t = (r, t')
          ∧ (r = Raise NonTermination ∨ ∃ ind', r = Ok ind' ∧ Individual ind').
Proof.
  induction passes as [|passes IH]; intros ind t Hind.
  - eexists _, _. split; [reflexivity|]. right. by exists ind.
  - cbn [GeneticModel.mutate_loop].
    destruct (randint_spec 0 5 t) as (idx & t1 & Hr & Hidx); [lia|].
    unfold bind at 1. rewrite Hr.
    destruct (fresh_number_spec ind t1) as (r & t2 & Hf & [->|(v & -> & Hv & Hvr)]).
    { eexists _, _. unfold bind. rewrite Hf. split; [reflexivity|]. by left. }
    unfold bind at 1. rewrite Hf.
    destruct Hind as (Hl & Hnd & Hr').
    assert (Hs : GeneticModel.setitem ind idx v = Ok (<[Z.to_nat idx := v]> ind)).
    { unfold GeneticModel.setitem. replace (idx <? 0) with false by lia.
      replace ((idx <? 0) || (Z.of_nat (length ind) <=? idx)) with false by lia. done. }
    unfold bind at 1, lift. rewrite Hs.
    apply IH. split; [by rewrite length_insert|]. split; [by apply insert_NoDup|].
    apply Forall_insert; done.
Qed.

(** X6: mutation keeps an individual well-formed: from six distinct
    ascending numbers of 1..33, [_mutate] replaces one or two positions by
    numbers not yet present and returns six distinct ascending numbers of
    1..33 again (or the inner [while] loop is still drawing when the given
    random draws run out). *)
Theorem mutate_valid (ind : list Z) (t : tape) :
  ValidReds ind →
  ∃ r t', GeneticModel._mutate ind t = (r, t')
          ∧ (r = Raise NonTermination ∨ ∃ ind', r = Ok ind' ∧ ValidReds ind').
Proof.
  intros (Hl & Hnd & Hr & _). unfold GeneticModel._mutate.
  destruct (randint_spec 1 2 t) as (n & t1 & Hn & _); [lia|].
  unfold bind at 1. rewrite Hn.
  destruct (mutate_loop_spec (Z.to_nat n) ind t1) as (r & t2 & Hm & [->|(ind' & -> & Hi)]);
    [done| |].
  - eexists _, _. unfold bind. rewrite Hm. split; [reflexivity|]. by left.
  - eexists _, _. unfold bind, ret. rewrite Hm. split; [reflexivity|]. right.
    eexists. split; [reflexivity|].
    destruct Hi as (Hl' & Hnd' & Hr'). apply sorted_valid; [done|done|].
    intros x Hx. by apply (proj1 (Forall_forall _ _) Hr').
Qed.

Lemma mutate_valid_witness :
  ∃ r t', GeneticModel._mutate [2; 9; 14; 21; 26; 33] [0; 3; 11]%N = (r, t')
          ∧ (r = Raise NonTermination ∨ ∃ ind', r = Ok ind' ∧ ValidReds ind').
Proof.
  apply mutate_valid, valid_reds_sample.
Defined.

(** ** compute/genetic_model.py: the generations *)

Lemma breed_length (self : GeneticModel.t) (gen : Z) (population : list (list Z))
    (fitnesses : list Q) (fuel : nat) :
  ∀ new_population t r t',
  GeneticModel.breed self gen population fitnesses fuel new_population t = (Ok r, t') →
  GeneticModel.pop_size self ≤ Z.of_nat (length r).
Proof.
  induction fuel as [|fuel IH]; intros np t r t'; simpl.
  - destruct (GeneticModel.pop_size self <=? Z.of_nat (length np)) eqn:E; [|done].
    intros [= <- <-]. lia.
  - destruct (GeneticModel.pop_size self <=? Z.of_nat (length np)) eqn:E.
    { intros [= <- <-]. lia. }
    unfold bind at 1. destruct (GeneticModel._select _ _ t) as [[p1|] t1]; [|done].
    unfold bind at 1. destruct (GeneticModel._select _ _ t1) as [[p2|] t2]; [|done].
    unfold bind at 1. destruct (GeneticModel._crossover _ _ t2) as [[cs|] t3]; [|done].
    unfold bind at 1. destruct (Random.random t3) as [[r1|] t4]; [|done].
    unfold bind at 1.
    match goal with
    | |- context [(if ?c then ?a else ?b) t4] =>
        destruct ((if c then a else b) t4) as [[c1|] t5]; [|done]
    end.
    unfold bind at 1. destruct (Random.random t5) as [[r2|] t6]; [|done].
    unfold bind at 1.
    match goal with
    | |- context [(if ?c then ?a else ?b) t6] =>
        destruct ((if c then a else b) t6) as [[c2|] t7]; [|done]
    end.
    apply IH.
Qed.

Lemma argmax_go_spec (l : list Q) : ∀ best_i best i,
  (best <= snd (GeneticModel.argmax_go best_i best i l))%Q
  ∧ Forall (λ x, x <= snd (GeneticModel.argmax_go best_i best i l))%Q l.
Proof.
  induction l as [|x l IH]; intros bi b i; simpl; [split; [lra|constructor]|].
  destruct (Qlt_bool b x) eqn:E.
  - apply Qlt_bool_iff in E. destruct (IH i x (S i)) as [H1 H2].
    split; [lra|]. by constructor.
  - apply Qlt_bool_false in E. destruct (IH bi b (S i)) as [H1 H2].
    split; [done|]. constructor; [lra|done].
Qed.

Lemma index_of_max_spec (l : list Q) (mx : nat * Q) :
  GeneticModel.index_of_max l = Ok mx → Forall (λ x, x <= snd mx)%Q l.
Proof.
  destruct l as [|x l]; [done|]. intros [= <-].
  destruct (argmax_go_spec l 0%nat x 1%nat) as [H1 H2]. by constructor.
Qed.

Lemma generation_step (self : GeneticModel.t) (gen : Z) (st st' : GeneticModel.search_state)
    (t t' : tape) :
  GeneticModel.generation self gen st t = (Ok st', t') →
  0 ≤ GeneticModel.pop_size self →
  length (GeneticModel.population st') = Z.to_nat (GeneticModel.pop_size self)
  ∧ (GeneticModel.best_fitness st <= GeneticModel.best_fitness st')%Q
  ∧ ∃ fitnesses,
      GeneticModel.map_result (GeneticModel._fitness self) (GeneticModel.population st)
      = Ok fitnesses
      ∧ Forall (λ f, f <= GeneticModel.best_fitness st')%Q fitnesses.
Proof.
  unfold GeneticModel.generation. intros H Hp.
  unfold bind at 1, lift at 1 in H.
  destruct (GeneticModel.map_result _ _) as [fitnesses|] eqn:Hf; [|done].
  unfold bind at 1, lift at 1 in H.
  destruct (GeneticModel.index_of_max fitnesses) as [mx|] eqn:Hm; [|done].
  unfold bind at 1 in H.
  destruct (GeneticModel.breed _ _ _ _ _ _ t) as [[np|] t1] eqn:Hb; [|done].
  unfold ret in H. injection H as <- <-. cbn [GeneticModel.population GeneticModel.best_fitness].
  apply breed_length in Hb. apply index_of_max_spec in Hm.
  split; [rewrite slice_to_nonneg by done; rewrite length_take; lia|].
  destruct (Qlt_bool (GeneticModel.best_fitness st) (snd mx)) eqn:E;
    cbn [GeneticModel.best_fitness].
  - apply Qlt_bool_iff in E. split; [lra|]. by exists fitnesses.
  - apply Qlt_bool_false in E. split; [lra|]. exists fitnesses. split; [done|].
    eapply Forall_impl; [exact Hm|]. cbn. intros x Hx. lra.
Qed.

(** X7: over any number of generations the best fitness on record never
    decreases; after at least one generation the population holds exactly
    [pop_size] individuals (elites and children, cut at [pop_size]) and the
    recorded best fitness bounds the fitness of every individual of the
    starting population. *)
Theorem evolve_invariants (self : GeneticModel.t) (gens : nat) (gen : Z)
    (st st' : GeneticModel.search_state) (t t' : tape) :
  GeneticModel.evolve self gens gen st t = (Ok st', t') →
  0 ≤ GeneticModel.pop_size self →
  (GeneticModel.best_fitness st <= GeneticModel.best_fitness st')%Q
  ∧ (gens ≠ O →
     length (GeneticModel.population st') = Z.to_nat (GeneticModel.pop_size self))
  ∧ (gens ≠ O →
     ∃ fitnesses,
       GeneticModel.map_result (GeneticModel._fitness self) (GeneticModel.population st)
       = Ok fitnesses
       ∧ Forall (λ f, f <= GeneticModel.best_fitness st')%Q fitnesses).
Proof.
  intros H Hp. revert gen st t H.
  induction gens as [|gens IH]; intros gen st t H.
  - injection H as <- <-. split; [lra|]. split; done.
  - cbn [GeneticModel.evolve] in H. unfold bind at 1 in H.
    destruct (GeneticModel.generation self gen st t) as [[st1|] t1] eqn:Hg; [|done].
    apply generation_step in Hg as (Hl & Hb & fitnesses & Hf & Hall); [|done].
    assert (Hlen : length (GeneticModel.population st')
                   = Z.to_nat (GeneticModel.pop_size self)).
    { destruct gens as [|gens']; [by injection H as <- _|].
      apply IH in H as (_ & Hl' & _). by apply Hl'. }
    apply IH in H as (Hb' & _ & _).
    split; [lra|]. split; [done|].
    intros _. exists fitnesses. split; [done|].
    eapply Forall_impl; [exact Hall|]. cbn. intros x Hx. lra.
Qed.

Lemma evolve_invariants_witness :
  let self := GeneticModel.Self [] GeneticModel.default_params 4 2 (VFloat (85 # 100))
                (8 # 100) (12 # 100) 80 (45 # 100) (25 # 100) (15 # 100) (10 # 100)
                (5 # 100) 2 in
  let st := GeneticModel.SearchState
              [[2; 9; 14; 21; 26; 33]; [3; 4; 15; 20; 27; 32];
               [5; 10; 15; 20; 25; 30]; [4; 8; 16; 23; 24; 31]] None (-1) in
  let out := GeneticModel.evolve self 2 0 st
               (replicate 40 GeneticRun.half) in
  ∃ st', fst out = Ok st'
         ∧ length (GeneticModel.population st') = 4%nat
         ∧ (-1 <= GeneticModel.best_fitness st')%Q.
Proof.
  intros self st out.
  set (st' := match fst out with Ok s => s | Raise _ => st end).
  assert (E : out = (Ok st', snd out)) by (vm_compute; reflexivity).
  destruct (evolve_invariants self 2 0 st st' _ _ E ltac:(simpl; lia)) as (Hb & Hl & _).
  exists st'. split; [by rewrite E|]. split; [by apply Hl|exact Hb].
Defined.

(** ** compute/markov_model.py: differential mutation and the first front *)

Lemma others_length (n idx : nat) :
  (idx < n)%nat → length (filter (λ i, i ≠ idx) (seq 0 n)) = pred n.
Proof.
  intros Hi.
  assert (H : ∀ s k, length (filter (λ i, i ≠ idx) (seq s k))
                     = (k - (if decide (s ≤ idx < s + k)%nat then 1 else 0))%nat).
  { intros s k. revert s. induction k as [|k IH]; intros s; [by case_decide|].
    cbn [seq]. rewrite filter_cons.
    destruct (decide (s ≠ idx)); cbn [length]; rewrite IH; repeat case_decide; lia. }
  rewrite H. case_decide; lia.
Qed.

Lemma others_NoDup (n idx : nat) : NoDup (filter (λ i, i ≠ idx) (seq 0 n)).
Proof. apply NoDup_filter, NoDup_seq. Qed.

Lemma de_entry_range (s : Q) (a b c : list Z) (i : nat) (v : Z) :
  Nsga2Model.de_entry s a b c i = Ok v → in_range 1 33 v.
Proof.
  unfold Nsga2Model.de_entry.
  destruct (a !! i); [|done]. destruct (b !! i); [|done]. destruct (c !! i); [|done].
  intros [= <-]. unfold in_range. lia.
Qed.

Lemma map_result_Forall {A B} (f : A → result B) (P : B → Prop) (l : list A) (l' : list B) :
  (∀ x y, f x = Ok y → P y) → GeneticModel.map_result f l = Ok l' → Forall P l'.
Proof.
  intros Hf. revert l'. induction l as [|x l IH]; intros l'; simpl; [by intros [= <-]|].
  destruct (f x) eqn:E; [|done]. simpl.
  destruct (GeneticModel.map_result f l); [|done]. simpl. intros [= <-].
  constructor; [by eapply Hf|by apply IH].
Qed.

(** X8: differential mutation needs three partners other than the
    individual itself: in a population of fewer than four it raises
    [ValueError] (from [random.sample]) without consuming randomness, and in
    a population of at least four six-number individuals it returns six
    ascending numbers of 1..33. *)
Theorem differential_mutation_shape (de_scale : Q) (population : list (list Z))
    (idx : nat) (t : tape) :
  (idx < length population)%nat →
  ((length population < 4)%nat →
   Nsga2Model._differential_mutation de_scale population idx t = (Raise ValueError, t))
  ∧ ((4 ≤ length population)%nat → Forall (λ p, length p = 6%nat) population →
     ∃ mutant t',
       Nsga2Model._differential_mutation de_scale population idx t = (Ok mutant, t')
       ∧ length mutant = 6%nat ∧ Forall (in_range 1 33) mutant ∧ Sorted Z.le mutant).
Proof.
  intros Hidx. unfold Nsga2Model._differential_mutation.
  set (others := filter (λ i, i ≠ idx) (seq 0 (length population))).
  assert (Hol : length others = pred (length population)) by (by apply others_length).
  split.
  - intros Hsmall. unfold bind, Random.sample.
    replace ((3 <? 0) || (Z.of_nat (length others) <? 3)) with true by lia. done.
  - intros Hbig Hall.
    destruct (sample_spec others 3 t) as (abc & t' & Hs & Hl & _ & Hsub);
      [lia|apply others_NoDup|].
    unfold bind at 1. rewrite Hs.
    destruct abc as [|a [|b [|c [|? ?]]]]; simpl in Hl; try lia.
    assert (Hin : ∀ i, i ∈ [a; b; c] → ∃ p, population !! i = Some p ∧ length p = 6%nat).
    { intros i Hi. apply Hsub in Hi. apply list_elem_of_filter in Hi as [_ Hi].
      apply elem_of_seq in Hi. destruct (lookup_lt_is_Some_2 population i) as [p Hp]; [lia|].
      exists p. split; [done|]. apply (proj1 (Forall_forall _ _) Hall).
      by eapply list_elem_of_lookup_2. }
    destruct (Hin a) as (pa & -> & La); [set_solver|].
    destruct (Hin b) as (pb & -> & Lb); [set_solver|].
    destruct (Hin c) as (pc & -> & Lc); [set_solver|].
    destruct (map_result_ok (Nsga2Model.de_entry de_scale pa pb pc) (seq 0 6)) as [m Hm].
    { apply Forall_forall. intros i Hi. apply elem_of_seq in Hi.
      unfold Nsga2Model.de_entry.
      destruct (lookup_lt_is_Some_2 pa i) as [x ->]; [lia|].
      destruct (lookup_lt_is_Some_2 pb i) as [y ->]; [lia|].
      destruct (lookup_lt_is_Some_2 pc i) as [z ->]; [lia|]. eauto. }
    unfold bind, lift, ret. rewrite Hm. exists (sorted m), t'. split; [done|].
    pose proof (sorted_perm m) as Hp. split; [|split].
    + rewrite (Permutation_length Hp). by apply map_result_length in Hm.
    + rewrite Hp. eapply map_result_Forall; [|exact Hm]. intros i v. apply de_entry_range.
    + apply sorted_Sorted.
Qed.

Lemma differential_mutation_shape_witness :
  ∃ mutant t',
    Nsga2Model._differential_mutation (1 # 2)
      [[1; 2; 3; 4; 5; 6]; [2; 9; 14; 21; 26; 33]; [3; 4; 5; 6; 7; 8]; [5; 10; 15; 20; 25; 30]]
      0 [] = (Ok mutant, t')
    ∧ length mutant = 6%nat ∧ Forall (in_range 1 33) mutant ∧ Sorted Z.le mutant.
Proof.
  destruct (differential_mutation_shape (1 # 2)
              [[1; 2; 3; 4; 5; 6]; [2; 9; 14; 21; 26; 33]; [3; 4; 5; 6; 7; 8];
               [5; 10; 15; 20; 25; 30]] 0 []) as [_ H]; [simpl; lia|].
  apply H; [simpl; lia|repeat constructor].
Defined.

Lemma dominates_irrefl (a : list Q) : Nsga2Model.dominates a a = false.
Proof.
  apply not_true_is_false. intros H. apply dominates_iff in H as [_ (i & x & y & Hx & Hy & Hlt)].
  rewrite Hx in Hy. injection Hy as <-. lra.
Qed.

Lemma dominates_asym (a b : list Q) :
  Nsga2Model.dominates a b = true → Nsga2Model.dominates b a = false.
Proof.
  intros H. apply not_true_is_false. intros H'.
  apply dominates_iff in H as [_ (i & x & y & Hx & Hy & Hlt)].
  apply dominates_iff in H' as [Hall _]. specialize (Hall i y x Hy Hx). lra.
Qed.

Lemma dominates_trans (a b c : list Q) :
  length a = length b → length b = length c →
  Nsga2Model.dominates a b = true → Nsga2Model.dominates b c = true →
  Nsga2Model.dominates a c = true.
Proof.
  intros L1 L2 H H'.
  apply dominates_iff in H as [Hab (i & x & y & Hx & Hy & Hlt)].
  apply dominates_iff in H' as [Hbc _]. apply dominates_iff. split.
  - intros j u w Hu Hw.
    destruct (lookup_lt_is_Some_2 b j) as [v Hv].
    { apply lookup_lt_Some in Hu. lia. }
    specialize (Hab j u v Hu Hv). specialize (Hbc j v w Hv Hw). lra.
  - destruct (lookup_lt_is_Some_2 c i) as [z Hz].
    { apply lookup_lt_Some in Hy. lia. }
    exists i, x, z. split; [done|]. split; [done|].
    specialize (Hbc i y z Hy Hz). lra.
Qed.

(** X9: Pareto dominance as the selection computes it is a strict partial
    order: no vector dominates itself, two vectors never dominate each
    other, and on vectors of one length dominance is transitive. *)
Theorem dominates_strict_order (a b c : list Q) :
  Nsga2Model.dominates a a = false
  ∧ (Nsga2Model.dominates a b = true → Nsga2Model.dominates b a = false)
  ∧ (length a = length b → length b = length c →
     Nsga2Model.dominates a b = true → Nsga2Model.dominates b c = true →
     Nsga2Model.dominates a c = true).
Proof.
  split; [apply dominates_irrefl|]. split; [apply dominates_asym|apply dominates_trans].
Qed.

Lemma dominates_strict_order_witness :
  Nsga2Model.dominates [1; 1]%Q [1; 0]%Q = true
  ∧ Nsga2Model.dominates [1; 0]%Q [1; 1]%Q = false
  ∧ Nsga2Model.dominates [2; 1]%Q [0; 0]%Q = true.
Proof.
  destruct (dominates_strict_order [2; 1]%Q [1; 1]%Q [0; 0]%Q) as (_ & _ & Ht).
  destruct (dominates_strict_order [1; 1]%Q [1; 0]%Q []) as (_ & Ha & _).
  split; [reflexivity|]. split; [apply Ha; reflexivity|].
  apply Ht; reflexivity.
Defined.

Lemma elem_of_enumerate {A} (l : list A) (j : nat) (x : A) :
  (j, x) ∈ zip (seq 0 (length l)) l ↔ l !! j = Some x.
Proof.
  rewrite list_elem_of_lookup. split.
  - intros [i Hi]. rewrite lookup_zip_with in Hi.
    destruct (seq 0 (length l) !! i) as [j'|] eqn:Hs; [|done]. cbn in Hi.
    destruct (l !! i) as [k'|] eqn:Hk; [|done]. cbn in Hi. injection Hi as -> ->.
    apply lookup_seq in Hs as [-> _]. done.
  - intros Hk. exists j. rewrite lookup_zip_with.
    rewrite lookup_seq_lt by (by apply lookup_lt_Some in Hk). cbn. by rewrite Hk.
Qed.

Lemma count_if_zero {A} (p : A → bool) (l : list A) :
  count_if p l = 0 ↔ Forall (λ x, p x = false) l.
Proof.
  induction l as [|x l IH]; [split; [constructor|done]|].
  rewrite count_if_cons, Forall_cons. pose proof (count_if_nonneg p l).
  destruct (p x); split.
  - lia.
  - intros [? _]. done.
  - intros E. split; [done|]. apply IH. lia.
  - intros [_ E]. apply IH in E. lia.
Qed.

Lemma first_front_spec (fv : list (list Q)) (i : nat) :
  i ∈ Nsga2Model.first_front fv ↔
  ∃ vi, fv !! i = Some vi ∧ ∀ vj, vj ∈ fv → Nsga2Model.dominates vj vi = false.
Proof.
  unfold Nsga2Model.first_front. rewrite list_elem_of_fmap. split.
  - intros ([j vi] & -> & Hin). apply list_elem_of_filter in Hin as [Hc Hin]. cbn in *.
    apply elem_of_enumerate in Hin. exists vi. split; [done|].
    apply Is_true_true, Z.eqb_eq in Hc. unfold Nsga2Model.domination_count in Hc.
    apply count_if_zero in Hc. intros vj Hvj.
    apply list_elem_of_lookup in Hvj as [k Hk].
    pose proof (proj1 (Forall_forall _ _) Hc (k, vj)
                  (proj2 (elem_of_enumerate fv k vj) Hk)) as Hp.
    cbn in Hp. destruct (Nat.eqb j k) eqn:E.
    + apply Nat.eqb_eq in E as <-. rewrite Hin in Hk. injection Hk as <-.
      apply dominates_irrefl.
    + cbn in Hp. destruct (Nsga2Model.dominates vj vi) eqn:D; [|done].
      rewrite (dominates_asym _ _ D) in Hp. done.
  - intros (vi & Hi & Hmax). exists (i, vi). split; [done|].
    apply list_elem_of_filter. split; [|by apply elem_of_enumerate]. cbn.
    apply Is_true_true, Z.eqb_eq. unfold Nsga2Model.domination_count.
    apply count_if_zero, Forall_forall. intros [k vj] Hk. cbn.
    apply elem_of_enumerate in Hk. rewrite (Hmax vj) by (by eapply list_elem_of_lookup_2).
    by rewrite andb_false_r.
Qed.

Lemma maximal_exists (m : nat) (fv : list (list Q)) :
  fv ≠ [] → Forall (λ v, length v = m) fv →
  ∃ v, v ∈ fv ∧ ∀ w, w ∈ fv → Nsga2Model.dominates w v = false.
Proof.
  induction fv as [|x fv IH]; [done|]. intros _ Hall.
  apply Forall_cons in Hall as [Hx Hall].
  destruct fv as [|y fv'].
  { exists x. split; [by left|]. intros w Hw. apply list_elem_of_singleton in Hw as ->.
    apply dominates_irrefl. }
  destruct (IH ltac:(done) Hall) as (v & Hv & Hmax).
  destruct (Nsga2Model.dominates x v) eqn:D.
  - exists x. split; [by left|]. intros w Hw. apply elem_of_cons in Hw as [->|Hw].
    + apply dominates_irrefl.
    + apply not_true_is_false. intros D'.
      assert (Nsga2Model.dominates w v = true).
      { apply (dominates_trans w x v); try done.
        - rewrite Hx. by apply (proj1 (Forall_forall _ _) Hall).
        - rewrite Hx. symmetry. by apply (proj1 (Forall_forall _ _) Hall). }
      rewrite (Hmax w Hw) in H. done.
  - exists v. split; [by right|]. intros w Hw. apply elem_of_cons in Hw as [->|Hw]; [done|].
    by apply Hmax.
Qed.

(** X10: the first front of the non-dominated sort holds exactly the
    indices of the fitness vectors that no vector of the population
    dominates; for a non-empty population of vectors of one length it is not
    empty, and no member of it dominates another. *)
Theorem first_front_maximal (m : nat) (fv : list (list Q)) :
  Forall (λ v, length v = m) fv →
  (∀ i, i ∈ Nsga2Model.first_front fv ↔
        ∃ vi, fv !! i = Some vi ∧ ∀ vj, vj ∈ fv → Nsga2Model.dominates vj vi = false)
  ∧ (fv ≠ [] → ∃ i, i ∈ Nsga2Model.first_front fv)
  ∧ (∀ i j vi vj, i ∈ Nsga2Model.first_front fv → j ∈ Nsga2Model.first_front fv →
       fv !! i = Some vi → fv !! j = Some vj → Nsga2Model.dominates vi vj = false).
Proof.
  intros Hall. split; [apply first_front_spec|]. split.
  - intros Hne. destruct (maximal_exists m fv Hne Hall) as (v & Hv & Hmax).
    apply list_elem_of_lookup in Hv as [i Hi]. exists i. apply first_front_spec. eauto.
  - intros i j vi vj _ Hj Hi Hvj. apply first_front_spec in Hj as (vj' & Hj' & Hmax).
    rewrite Hvj in Hj'. injection Hj' as <-. apply Hmax. by eapply list_elem_of_lookup_2.
Qed.

Lemma first_front_maximal_witness :
  ∃ i, i ∈ Nsga2Model.first_front [[1; 0]; [0; 1]; [0; 0]]%Q.
Proof.
  destruct (first_front_maximal 2 [[1; 0]; [0; 1]; [0; 0]]%Q) as (_ & H & _);
    [repeat constructor|].
  apply H. discriminate.
Defined.

(** ** models/registry.py and compute/model_manager.py *)

(** X11: registration and lookup agree on the normalised code (stripped,
    lower case): after [register] a lookup by any spelling of the model's
    code returns the registered class, unless the same class (told by its
    name) was registered before under that code, in which case the registry
    is left as it was and the lookup returns that earlier registration;
    lookups of other codes are not affected. *)
Theorem register_then_get (_models : gmap string model_class) (model_cls : model_class)
    (code : string) :
  ModelRegistry.normalize code = ModelRegistry.normalize (model_code model_cls) →
  (snd (ModelRegistry.register _models model_cls) = ModelRegistry.Skipped →
   fst (ModelRegistry.register _models model_cls) = _models
   ∧ ∃ old, ModelRegistry.get _models code = Some old
            ∧ cls_name old = cls_name model_cls)
  ∧ (snd (ModelRegistry.register _models model_cls) ≠ ModelRegistry.Skipped →
     ModelRegistry.get (fst (ModelRegistry.register _models model_cls)) code
     = Some model_cls)
  ∧ (∀ other, ModelRegistry.normalize other ≠ ModelRegistry.normalize (model_code model_cls) →
     ModelRegistry.get (fst (ModelRegistry.register _models model_cls)) other
     = ModelRegistry.get _models other).
Proof.
  intros Hc. unfold ModelRegistry.register, ModelRegistry.get. rewrite Hc.
  destruct (_models !! ModelRegistry.normalize (model_code model_cls)) as [old|] eqn:E.
  - destruct (String.eqb (cls_name old) (cls_name model_cls)) eqn:N; cbn.
    + split; [|split; [done|done]]. intros _. split; [done|]. exists old.
      split; [done|]. by apply String.eqb_eq.
    + split; [done|]. split; [intros _; apply lookup_insert_eq|].
      intros other Ho. by apply lookup_insert_ne.
  - cbn. split; [done|]. split; [intros _; apply lookup_insert_eq|].
    intros other Ho. by apply lookup_insert_ne.
Qed.

Lemma register_then_get_witness :
  ModelRegistry.get (fst (ModelRegistry.register ∅ Classes.RandomLotteryModel)) " Random "
  = Some Classes.RandomLotteryModel.
Proof.
  destruct (register_then_get ∅ Classes.RandomLotteryModel " Random ") as (_ & H & _);
    [vm_compute; reflexivity|].
  apply H. vm_compute. discriminate.
Defined.

Lemma dict_get_set_eq (d : list (string * pyval)) (k : string) (x : pyval) :
  dict_get (PyOps.dict_set d k x) k = Some x.
Proof.
  induction d as [|[k' y] d IH]; simpl; [by rewrite String.eqb_refl|].
  destruct (String.eqb k k') eqn:E; simpl; [by rewrite String.eqb_refl|].
  by rewrite E.
Qed.

Lemma dict_get_set_ne (d : list (string * pyval)) (k k0 : string) (x : pyval) :
  k0 ≠ k → dict_get (PyOps.dict_set d k x) k0 = dict_get d k0.
Proof.
  intros Hne. induction d as [|[k' y] d IH]; simpl.
  - by apply String.eqb_neq in Hne as ->.
  - destruct (String.eqb k k') eqn:E; simpl; [|by rewrite IH].
    apply String.eqb_eq in E as <-. by apply String.eqb_neq in Hne as ->.
Qed.

(** X12: the single-model branch of [ModelManager.execute] returns the
    model's own result dict with ["model_used"] set to the model's code and
    ["weight"] to its weight, every other key untouched; when the model's
    [generate] raises, or returns something that takes no item assignment,
    the branch returns the random baseline instead, drawn after the random
    numbers the failed call consumed. *)
Theorem single_model_tagged (model : instance) (weight : pyval) (t : tape) :
  (∀ d t', inst_generate model t = (Ok (VDict d), t') →
     ∃ d', ModelManager.single model weight t = (Ok (VDict d'), t')
           ∧ dict_get d' "model_used" = Some (VStr (inst_code model))
           ∧ dict_get d' "weight" = Some weight
           ∧ ∀ k, k ≠ "model_used" → k ≠ "weight" → dict_get d' k = dict_get d k)
  ∧ (∀ e t', inst_generate model t = (Raise e, t') →
       ModelManager.single model weight t = ModelManager.random_baseline t')
  ∧ (∀ v t', inst_generate model t = (Ok v, t') → (∀ d, v ≠ VDict d) →
       ModelManager.single model weight t = ModelManager.random_baseline t').
Proof.
  unfold ModelManager.single, catch, bind, lift. split; [|split].
  - intros d t' ->. cbn. eexists. split; [reflexivity|].
    split; [|split].
    + rewrite dict_get_set_ne by done. apply dict_get_set_eq.
    + apply dict_get_set_eq.
    + intros k H1 H2. by rewrite !dict_get_set_ne.
  - by intros e t' ->.
  - intros v t' -> Hv. destruct v; try done. by destruct (Hv d).
Qed.

Lemma single_model_tagged_witness :
  let model := Instance "m" (ret (VDict [("reds", VList []); ("model_used", VStr "old")])) in
  ∃ d', ModelManager.single model (VFloat (1 # 2)) [] = (Ok (VDict d'), [])
        ∧ dict_get d' "model_used" = Some (VStr "m")
        ∧ dict_get d' "weight" = Some (VFloat (1 # 2))
        ∧ dict_get d' "reds" = Some (VList []).
Proof.
  intros model.
  destruct (single_model_tagged model (VFloat (1 # 2)) []) as [H _].
  destruct (H _ [] eq_refl) as (d' & Hs & Hm & Hw & Hk).
  exists d'. split; [exact Hs|]. split; [exact Hm|]. split; [exact Hw|].
  rewrite Hk; [reflexivity|discriminate|discriminate].
Defined.

(** X13: the loading loop of [ModelManager.execute] keeps [models] and
    [weights] in step: both come, in order, from the same sub-list of the
    permissions; each loaded model is the registered class of its
    permission built on the merged parameters (defaults, then the
    permission's own, then the global ones), and every permission whose
    class is registered and constructs is kept. *)
Theorem load_models_parallel (_models : gmap string model_class) (history : list draw)
    (gp : gmap string pyval) (permissions : list perm) :
  ∃ kept,
    kept `sublist_of` permissions
    ∧ snd (ModelManager.load_models _models history gp permissions) = map perm_weight kept
    ∧ Forall2 (λ p m, ∃ cls, ModelRegistry.get _models (perm_model_code p) = Some cls
                 ∧ cls_new cls history
                     (merge_params
                        (merge_params (cls_default_params cls) (default ∅ (perm_params p)))
                        gp) = Ok m)
        kept (fst (ModelManager.load_models _models history gp permissions))
    ∧ (∀ p, p ∈ permissions → resolves _models history gp p → p ∈ kept).
Proof.
  induction permissions as [|p ps (kept & Hs & Hw & Hf & Hall)].
  - exists []. split; [done|]. split; [done|]. split; [constructor|].
    intros p Hp. by apply elem_of_nil in Hp.
  - cbn [ModelManager.load_models].
    destruct (ModelRegistry.get _models (perm_model_code p)) as [cls|] eqn:G.
    + destruct (cls_new cls history _) as [m|e] eqn:N.
      * exists (p :: kept). split; [by constructor|]. split; [cbn; by rewrite Hw|].
        split; [constructor; [by exists cls|done]|].
        intros q Hq Hr. apply elem_of_cons in Hq as [->|Hq]; [left|right; by apply Hall].
      * exists kept. split; [by constructor|]. split; [done|]. split; [done|].
        intros q Hq Hr. apply elem_of_cons in Hq as [->|Hq]; [|by apply Hall].
        destruct Hr as (cls' & m & G' & N'). rewrite G in G'. injection G' as <-.
        rewrite N in N'. done.
    + exists kept. split; [by constructor|]. split; [done|]. split; [done|].
      intros q Hq Hr. apply elem_of_cons in Hq as [->|Hq]; [|by apply Hall].
      destruct Hr as (cls' & m & G' & _). rewrite G in G'. done.
Qed.

(** ** services/backtest_service.py: the stored record *)

(** X14: with fewer than 50 draws in the range [execute_backtest] raises
    [ValueError] and leaves the database and the random draws untouched, and
    the task wrapper turns this into a retry while retries remain (fewer
    than 3 so far) and re-raises it afterwards, the database unchanged in
    both cases. *)
Theorem backtest_too_few_draws (engine : BacktestService.engine_t) (all_draws : list kaijiang)
    (now : Z) (db : DB) (id retries : Z) (version : string) (bet : Q) (mode : string)
    (t : tape) :
  (length all_draws < 50)%nat →
  BacktestService.execute_backtest engine all_draws now db id version bet mode t
  = (Raise ValueError, db, t)
  ∧ BacktestTasks.run_backtest_task engine all_draws now db id retries version bet mode t
    = (Raise (if retries <? 3 then Retry ValueError else ValueError), db, t).
Proof.
  intros Hlen.
  assert (E : BacktestService.execute_backtest engine all_draws now db id version bet mode t
              = (Raise ValueError, db, t)).
  { unfold BacktestService.execute_backtest.
    by replace (Nat.ltb (length all_draws) 50) with true by (symmetry; apply Nat.ltb_lt; lia). }
  split; [done|]. unfold BacktestTasks.run_backtest_task. by rewrite E.
Qed.

Lemma backtest_too_few_draws_witness :
  BacktestService.execute_backtest (failing_engine ValueError) (take 49 Fixture.draws) 7
    Fixture.db0 1 "v1" 2 "entropy" [] = (Raise ValueError, Fixture.db0, [])
  ∧ BacktestTasks.run_backtest_task (failing_engine ValueError) (take 49 Fixture.draws) 7
      Fixture.db0 1 0 "v1" 2 "entropy" []
    = (Raise (Retry ValueError), Fixture.db0, []).
Proof.
  apply (backtest_too_few_draws (failing_engine ValueError) (take 49 Fixture.draws) 7
           Fixture.db0 1 0 "v1" 2 "entropy" []).
  vm_compute. lia.
Defined.

Lemma execute_backtest_ok (engine : BacktestService.engine_t) (all_draws : list kaijiang)
    (now : Z) (db : DB) (id : Z) (version : string) (bet : Q) (mode : string) (t : tape)
    (s : BacktestService.stats) (db' : DB) (t' : tape) :
  BacktestService.execute_backtest engine all_draws now db id version bet mode t
  = (Ok s, db', t') →
  ∃ st, Replay.Inv bet st ∧ s = BacktestService.finalize st
        ∧ db' = match records db !! id with
                | Some r => MkDB (snapshots db)
                              (<[id := BacktestService.complete now st r]> (records db))
                              (next_id db)
                | None => db
                end
        ∧ ∃ idxs st0, BacktestService.replay engine all_draws
                        (default ∅ (snapshots db !! version)) bet mode idxs
                        BacktestService.run0 st0 = (Ok st, t').
Proof.
  unfold BacktestService.execute_backtest.
  destruct (Nat.ltb _ _); [done|]. destruct (int _) as [hw|]; [|done].
  destruct (BacktestService.replay _ _ _ _ _ _ _ _) as [[st|e] t1] eqn:Hr; [|done].
  intros [= <- <- <-]. exists st.
  split; [by destruct (replay_inv _ _ _ _ _ _ _ _ _ _ Hr (inv_run0 bet))|].
  split; [done|]. split; [done|]. eauto.
Qed.

Lemma streak_bounds (curve : list curve_point) : ∀ c b,
  0 ≤ c → 0 ≤ b →
  let r := foldl Replay.streak_step (c, b) curve in
  0 ≤ fst r ∧ 0 ≤ snd r
  ∧ fst r ≤ c + count_if (λ p, 3 <=? c_red_hit p) curve
  ∧ snd r ≤ Z.max b (c + count_if (λ p, 3 <=? c_red_hit p) curve).
Proof.
  induction curve as [|p curve IH]; intros c b Hc Hb; cbn zeta.
  - change (count_if _ []) with 0. cbn [foldl fst snd]. repeat split; lia.
  - cbn [foldl]. rewrite count_if_cons.
    assert (E : Replay.streak_step (c, b) p
                = if 3 <=? c_red_hit p then (c + 1, Z.max b (c + 1)) else (0, b)) by reflexivity.
    rewrite E. clear E. destruct (3 <=? c_red_hit p).
    + specialize (IH (c + 1) (Z.max b (c + 1)) ltac:(lia) ltac:(lia)). cbn zeta in IH.
      pose proof (count_if_nonneg (λ p, 3 <=? c_red_hit p) curve) as Hk.
      revert IH Hk. generalize (foldl Replay.streak_step (c + 1, Z.max b (c + 1)) curve).
      generalize (count_if (λ p, 3 <=? c_red_hit p) curve). intros k [r1 r2]. cbn [fst snd]. lia.
    + specialize (IH 0 b ltac:(lia) Hb). cbn zeta in IH.
      pose proof (count_if_nonneg (λ p, 3 <=? c_red_hit p) curve) as Hk.
      revert IH Hk. generalize (foldl Replay.streak_step (0, b) curve).
      generalize (count_if (λ p, 3 <=? c_red_hit p) curve). intros k [r1 r2]. cbn [fst snd]. lia.
Qed.

(** X15: the [max_streak] a completed backtest stores and returns is the
    longest run of consecutive periods with at least three red hits in the
    stored curve; it is never negative and bounded by the number of such
    periods and by the number of periods. *)
Theorem backtest_max_streak (engine : BacktestService.engine_t) (all_draws : list kaijiang)
    (now : Z) (db : DB) (id : Z) (version : string) (bet : Q) (mode : string) (t : tape)
    (s : BacktestService.stats) (db' : DB) (t' : tape) (r : BacktestRecord) :
  BacktestService.execute_backtest engine all_draws now db id version bet mode t
  = (Ok s, db', t') →
  records db !! id = Some r →
  ∃ r', records db' !! id = Some r'
        ∧ max_streak r' = BacktestService.s_max_streak s
        ∧ max_streak r' = Curve.longest_streak (curve_data r')
        ∧ 0 ≤ max_streak r'
        ∧ max_streak r' ≤ count_if (λ c, 3 <=? c_red_hit c) (curve_data r')
        ∧ max_streak r' ≤ periods r'.
Proof.
  intros He Hr. apply execute_backtest_ok in He as (st & Hinv & -> & -> & _).
  rewrite Hr. eexists. split; [apply lookup_insert_eq|]. cbn.
  destruct Hinv as [_ _ _ _ _ Hs].
  unfold Curve.longest_streak. rewrite longest_streak_go_foldl, <- Hs. cbn.
  pose proof (streak_bounds (BacktestService.curve st) 0 0 ltac:(lia) ltac:(lia)) as Hb.
  cbn zeta in Hb. rewrite <- Hs in Hb. cbn in Hb.
  pose proof (count_if_le_length (λ c, 3 <=? c_red_hit c) (BacktestService.curve st)).
  repeat split; lia.
Qed.

Lemma backtest_max_streak_witness :
  let out := BacktestService.execute_backtest (perfect_engine Fixture.draws) Fixture.draws
               7 Fixture.db0 1 "v1" 2 "entropy" [] in
  ∃ r', records (snd (fst out)) !! 1 = Some r'
        ∧ max_streak r' = Curve.longest_streak (curve_data r')
        ∧ 0 ≤ max_streak r' ≤ periods r'.
Proof.
  intros out.
  set (s := match fst (fst out) with
            | Ok s => s | Raise _ => BacktestService.Stats 0 0 0 0 0 0 end).
  assert (E : out = (Ok s, snd (fst out), snd out)) by (vm_compute; reflexivity).
  destruct (backtest_max_streak _ _ _ _ _ _ _ _ _ _ _ _ Fixture.record0 E eq_refl)
    as (r' & Hr & _ & Hs & H0 & _ & Hp).
  exists r'. split; [exact Hr|]. split; [exact Hs|]. split; [exact H0|exact Hp].
Defined.

(** X16: a completed backtest changes nothing but its own record: the
    snapshots, the next id and every other record are as before; without a
    record of that id the database is unchanged; and on its record it sets
    the status to ["completed"] and the finishing time, keeping the version,
    the range, the task id, the owner, the bet and the mode. *)
Theorem backtest_frame (engine : BacktestService.engine_t) (all_draws : list kaijiang)
    (now : Z) (db : DB) (id : Z) (version : string) (bet : Q) (mode : string) (t : tape)
    (s : BacktestService.stats) (db' : DB) (t' : tape) :
  BacktestService.execute_backtest engine all_draws now db id version bet mode t
  = (Ok s, db', t') →
  snapshots db' = snapshots db ∧ next_id db' = next_id db
  ∧ (∀ other, other ≠ id → records db' !! other = records db !! other)
  ∧ (records db !! id = None → db' = db)
  ∧ (∀ r, records db !! id = Some r →
       ∃ r', records db' !! id = Some r' ∧ status r' = "completed"
             ∧ finished_at r' = Some now
             ∧ params_version r' = params_version r ∧ start_qi_shu r' = start_qi_shu r
             ∧ end_qi_shu r' = end_qi_shu r ∧ task_id r' = task_id r
             ∧ created_by r' = created_by r ∧ bet_amount r' = bet_amount r
             ∧ model_mode r' = model_mode r).
Proof.
  intros He. apply execute_backtest_ok in He as (st & _ & -> & -> & _).
  destruct (records db !! id) as [r|] eqn:Hr; cbn.
  - split; [done|]. split; [done|]. split; [intros; by rewrite lookup_insert_ne|].
    split; [done|]. intros r0 [= <-]. eexists. split; [apply lookup_insert_eq|]. done.
  - repeat split; done.
Qed.

Lemma backtest_frame_witness :
  let out := BacktestService.execute_backtest (perfect_engine Fixture.draws) Fixture.draws
               7 Fixture.db0 1 "v1" 2 "entropy" [] in
  snapshots (snd (fst out)) = snapshots Fixture.db0
  ∧ next_id (snd (fst out)) = 2
  ∧ ∃ r', records (snd (fst out)) !! 1 = Some r' ∧ status r' = "completed"
          ∧ finished_at r' = Some 7 ∧ task_id r' = Some "task".
Proof.
  intros out.
  set (s := match fst (fst out) with
            | Ok s => s | Raise _ => BacktestService.Stats 0 0 0 0 0 0 end).
  assert (E : out = (Ok s, snd (fst out), snd out)) by (vm_compute; reflexivity).
  destruct (backtest_frame _ _ _ _ _ _ _ _ _ _ _ _ E) as (H1 & H2 & _ & _ & H5).
  split; [exact H1|]. split; [exact H2|].
  destruct (H5 Fixture.record0 eq_refl) as (r' & Hr & Hs & Hf & _ & _ & _ & Ht & _).
  exists r'. split; [exact Hr|]. split; [exact Hs|]. split; [exact Hf|exact Ht].
Defined.

(** X17: [start_backtest] fails with [ValueError] on an unknown parameter
    version and writes nothing; otherwise it stores, under a fresh id, a
    record with status ["running"], no finishing time, zero periods and an
    empty curve, leaves the other records alone, and a successful
    [execute_backtest] called with that record id right after completes
    this very record (same task and owner) with the number of periods it
    returns. *)
Theorem start_then_execute (db : DB) (task : string) (user_id : Z)
    (version start_ end_ : string) (bet : Q) (mode : string) :
  (snapshots db !! version = None →
   BacktestService.start_backtest db task user_id version start_ end_ bet mode
   = (Raise ValueError, db))
  ∧ (is_Some (snapshots db !! version) →
     ∃ db1,
       BacktestService.start_backtest db task user_id version start_ end_ bet mode
       = (Ok (next_id db), db1)
       ∧ next_id db1 = next_id db + 1
       ∧ (∃ r, records db1 !! next_id db = Some r ∧ status r = "running"
               ∧ finished_at r = None ∧ periods r = 0 ∧ curve_data r = [])
       ∧ (∀ other, other ≠ next_id db → records db1 !! other = records db !! other)
       ∧ ∀ engine all_draws now bet' mode' t s db2 t',
           BacktestService.execute_backtest engine all_draws now db1 (next_id db)
             version bet' mode' t = (Ok s, db2, t') →
           ∃ r', records db2 !! next_id db = Some r' ∧ status r' = "completed"
                 ∧ periods r' = BacktestService.s_periods s
                 ∧ task_id r' = Some task ∧ created_by r' = user_id
                 ∧ finished_at r' = Some now).
Proof.
  unfold BacktestService.start_backtest. split.
  - by intros ->.
  - intros [p ->]. eexists. split; [reflexivity|]. split; [done|]. split.
    + eexists. split; [apply lookup_insert_eq|]. done.
    + split; [intros; by apply lookup_insert_ne|].
      intros engine all_draws now bet' mode' t s db2 t' He.
      apply execute_backtest_ok in He as (st & _ & -> & -> & _). cbn.
      rewrite lookup_insert_eq. eexists. split; [apply lookup_insert_eq|]. done.
Qed.

Lemma start_then_execute_witness :
  ∃ db1,
    BacktestService.start_backtest Fixture.db0 "t2" 9 "v1" "a" "b" 2 "entropy" = (Ok 2, db1)
    ∧ next_id db1 = 3
    ∧ ∃ r, records db1 !! 2 = Some r ∧ status r = "running" ∧ finished_at r = None.
Proof.
  destruct (start_then_execute Fixture.db0 "t2" 9 "v1" "a" "b" 2 "entropy") as [_ H].
  destruct H as (db1 & Hs & Hn & (r & Hr & Hst & Hf & _) & _); [by eexists|].
  exists db1. split; [exact Hs|]. split; [exact Hn|].
  exists r. split; [exact Hr|]. split; [exact Hst|exact Hf].
Defined.






(** ** compute/bayesian_model.py and compute/odd_even_balance_model.py *)

Lemma to_float_nonneg (n : PyNum.t) : (0 <= PyNum.value n)%Q → (0 <= PyNum.to_float n)%Q.
Proof. destruct n; cbn; [apply fl64_nonneg|done]. Qed.

Lemma mul_int_nonneg (c : Z) (w : PyNum.t) :
  0 ≤ c → (0 <= PyNum.value w)%Q → (0 <= PyNum.value (PyNum.mul (PyNum.Int c) w))%Q.
Proof.
  intros Hc Hw.
  assert (0 <= inject_Z c)%Q by (change 0%Q with (inject_Z 0); by rewrite <- Zle_Qle).
  destruct w as [z|q]; cbn in *.
  - rewrite inject_Z_mult. nra.
  - apply fl64_nonneg. pose proof (fl64_nonneg _ H). nra.
Qed.

Lemma mul_int_zero (w : PyNum.t) : (PyNum.value (PyNum.mul (PyNum.Int 0) w) == 0)%Q.
Proof.
  destruct w as [z|q]; cbn; [reflexivity|].
  change (inject_Z 0) with 0%Q. rewrite fl64_0.
  rewrite (fl64_comp (0 * q) 0) by ring. by rewrite fl64_0.
Qed.

Lemma to_float_value (n : PyNum.t) :
  is_float (PyNum.value n) → (PyNum.to_float n == PyNum.value n)%Q.
Proof. destruct n; cbn; [done|reflexivity]. Qed.

Lemma add_ge (a t : PyNum.t) :
  is_float (PyNum.value a) → (0 <= PyNum.value t)%Q →
  (PyNum.value a <= PyNum.value (PyNum.add a t))%Q.
Proof.
  intros Hf Ht. pose proof (to_float_nonneg t Ht) as Ht'.
  pose proof (to_float_value a Hf) as Ea.
  assert (Hgen : (PyNum.value a <= fl64 (PyNum.to_float a + PyNum.to_float t))%Q).
  { unfold is_float in Hf. rewrite <- Hf at 1. apply fl64_mono. rewrite Ea. lra. }
  destruct a as [x|p], t as [y|q]; try exact Hgen.
  cbn in *. rewrite inject_Z_plus. lra.
Qed.

Lemma add_zero (a t : PyNum.t) :
  is_float (PyNum.value a) → (PyNum.value t == 0)%Q →
  (PyNum.value (PyNum.add a t) == PyNum.value a)%Q.
Proof.
  intros Hf Ht. pose proof (to_float_value a Hf) as Ea.
  assert (Et : (PyNum.to_float t == 0)%Q).
  { destruct t as [y|q]; cbn in *; [|done].
    rewrite (fl64_comp _ 0 Ht). by rewrite fl64_0. }
  assert (Hgen : (fl64 (PyNum.to_float a + PyNum.to_float t) == PyNum.value a)%Q).
  { rewrite (fl64_comp _ (PyNum.value a)) by (rewrite Ea, Et; ring). exact Hf. }
  destruct a as [x|p], t as [y|q]; try exact Hgen.
  cbn in *. rewrite inject_Z_plus, Ht. ring.
Qed.

(** X19: the Beta posterior of the blue ball, in Python's arithmetic (exact
    on ints, float64 otherwise), for priors that are float64 values: with a
    non-negative weight neither parameter falls below its prior; [alpha]
    equals its prior exactly when no draw of the window has blue ball 1 and
    [beta] when every draw has; and when the priors and the weight are all
    ints, [alpha + beta] is the prior sum plus the weight times the number
    of draws in the window. *)
Theorem blue_posterior_counts (history : list draw) (pa pb lw hw : pyval)
    (a b w : PyNum.t) (recent : list draw) :
  PyNum.of_value pa = Ok a → PyNum.of_value pb = Ok b → PyNum.of_value lw = Ok w →
  BayesianModel.recent_window history hw = Ok recent →
  is_float (PyNum.value a) → is_float (PyNum.value b) →
  ∃ alpha beta,
    BayesianModel._build_blue_posterior history pa pb lw hw = Ok (alpha, beta)
    ∧ ((0 <= PyNum.value w)%Q → (PyNum.value a <= alpha)%Q ∧ (PyNum.value b <= beta)%Q)
    ∧ ((∀ d, d ∈ recent → d_blue d ≠ Some 1) → (alpha == PyNum.value a)%Q)
    ∧ ((∀ d, d ∈ recent → d_blue d = Some 1) → (beta == PyNum.value b)%Q)
    ∧ (∀ x y z, a = PyNum.Int x → b = PyNum.Int y → w = PyNum.Int z →
         (alpha + beta == inject_Z (x + y + Z.of_nat (length recent) * z))%Q).
Proof.
  intros Ha Hb Hw Hr Fa Fb. unfold BayesianModel._build_blue_posterior.
  rewrite Ha, Hb, Hr, Hw. cbn [rbind]. eexists _, _. split; [reflexivity|].
  set (p := λ d : draw, match d_blue d with Some b0 => b0 =? 1 | None => false end).
  pose proof (count_if_nonneg p recent) as H0.
  pose proof (count_if_le_length p recent) as H1.
  split; [|split; [|split]].
  - intros Hpos. split; apply add_ge; try done; apply mul_int_nonneg; (done || lia).
  - intros Hno. assert (count_if p recent = 0) as ->.
    { clear H0 H1 Hr. induction recent as [|d recent IH]; [done|].
      rewrite count_if_cons, IH by (intros; apply Hno; by right).
      assert (p d = false) as ->; [|done]. subst p. cbn.
      specialize (Hno d ltac:(left)). destruct (d_blue d) as [x|]; [|done].
      destruct (x =? 1) eqn:E; [|done]. apply Z.eqb_eq in E. congruence. }
    apply add_zero; [done|apply mul_int_zero].
  - intros Hall. assert (count_if p recent = Z.of_nat (length recent)) as ->.
    { clear H0 H1 Hr. induction recent as [|d recent IH]; [done|].
      rewrite count_if_cons, IH by (intros; apply Hall; by right).
      assert (p d = true) as ->; [|simpl length; lia]. subst p. cbn.
      by rewrite (Hall d ltac:(left)). }
    rewrite Z.sub_diag. apply add_zero; [done|apply mul_int_zero].
  - intros x y z -> -> ->. cbn. rewrite <- inject_Z_plus. apply inject_Z_injective. lia.
Qed.

Lemma blue_posterior_counts_witness :
  ∃ alpha beta,
    BayesianModel._build_blue_posterior
      [Draw (Some [8; 9]) None (Some 1); Draw (Some [7; 9]) None (Some 4)]
      (VFloat 1) (VFloat 1) (VFloat (1 # 10)) (VInt 100) = Ok (alpha, beta)
    ∧ (1 <= alpha)%Q ∧ (1 <= beta)%Q.
Proof.
  destruct (blue_posterior_counts
              [Draw (Some [8; 9]) None (Some 1); Draw (Some [7; 9]) None (Some 4)]
              (VFloat 1) (VFloat 1) (VFloat (1 # 10)) (VInt 100)
              (PyNum.Float 1) (PyNum.Float 1) (PyNum.Float (fl64 (1 # 10)))
              [Draw (Some [8; 9]) None (Some 1); Draw (Some [7; 9]) None (Some 4)])
    as (alpha & beta & H & Hb & _); try (vm_compute; reflexivity).
  exists alpha, beta. split; [exact H|]. apply Hb. apply fl64_nonneg. by vm_compute.
Defined.

Lemma oe_check_constraints_spec (self : OddEvenBalanceModel.t) (target tol smin smax mc : Q)
    (reds : list Z) :
  num (OddEvenBalanceModel.target_odd self) = Ok target →
  num (OddEvenBalanceModel.odd_tolerance self) = Ok tol →
  getnum (OddEvenBalanceModel.params self) "min_sum" = Ok smin →
  getnum (OddEvenBalanceModel.params self) "max_sum" = Ok smax →
  getnum (OddEvenBalanceModel.params self) "max_consecutive" = Ok mc →
  OddEvenBalanceModel._check_constraints self reds
  = Ok (Nat.eqb (length reds) 6
        && Qle_bool (Qabs (inject_Z (count_if is_odd reds) - target)) tol
        && Qle_bool smin (inject_Z (sumZ reds))
        && Qle_bool (inject_Z (sumZ reds)) smax
        && pairs_ok mc reds).
Proof.
  intros H1 H2 H3 H4 H5. unfold OddEvenBalanceModel._check_constraints, pairs_ok.
  destruct (Nat.eqb (length reds) 6); [|done]. cbn [negb andb].
  rewrite H1, H2, H3, H4. cbn [rbind]. unfold Qlt_bool.
  destruct (Qle_bool (Qabs _) tol); cbn [negb rbind andb]; [|done].
  destruct (Qle_bool smin _); cbn [negb rbind andb]; [|done].
  destruct (Qle_bool _ smax); cbn [negb rbind andb]; [|done].
  by rewrite (consecutive_loop_spec _ mc H5).
Qed.

(** X20: with numeric bounds the constraint check of the odd/even model
    returns, without raising, the conjunction of: six numbers, an odd count
    within the tolerance of the target, a sum within the bounds, and at most
    [max_consecutive] adjacent pairs of consecutive values in the whole
    combination. *)
Theorem odd_even_check_spec (self : OddEvenBalanceModel.t) (target tol smin smax mc : Q)
    (reds : list Z) :
  num (OddEvenBalanceModel.target_odd self) = Ok target →
  num (OddEvenBalanceModel.odd_tolerance self) = Ok tol →
  getnum (OddEvenBalanceModel.params self) "min_sum" = Ok smin →
  getnum (OddEvenBalanceModel.params self) "max_sum" = Ok smax →
  getnum (OddEvenBalanceModel.params self) "max_consecutive" = Ok mc →
  OddEvenBalanceModel._check_constraints self reds
  = Ok (Nat.eqb (length reds) 6
        && Qle_bool (Qabs (inject_Z (count_if is_odd reds) - target)) tol
        && Qle_bool smin (inject_Z (sumZ reds))
        && Qle_bool (inject_Z (sumZ reds)) smax
        && pairs_ok mc reds).
Proof. apply oe_check_constraints_spec. Qed.

Lemma odd_even_check_spec_witness :
  OddEvenBalanceModel._check_constraints
    (OddEvenBalanceModel.Self [] OddEvenBalanceModel.default_params
       (VInt 3) (VInt 1) (VBool true) (VInt 50) (VBool false))
    [2; 9; 14; 21; 26; 33] = Ok true.
Proof.
  rewrite (odd_even_check_spec
             (OddEvenBalanceModel.Self [] OddEvenBalanceModel.default_params
                (VInt 3) (VInt 1) (VBool true) (VInt 50) (VBool false))
             3 1 70 140 2 [2; 9; 14; 21; 26; 33] eq_refl eq_refl eq_refl eq_refl eq_refl).
  reflexivity.
Defined.

Lemma sumQ_bounds (l : list Q) :
  Forall (λ x, 0 <= x ∧ x <= 1)%Q l →
  (0 <= sumQ l)%Q ∧ (sumQ l <= inject_Z (Z.of_nat (length l)))%Q.
Proof.
  induction 1 as [|x l [H0 H1] _ [IH0 IH1]]; [split; by compute|].
  cbn [sumQ foldr length]. fold (sumQ l).
  rewrite Nat2Z.inj_succ, <- Z.add_1_r, inject_Z_plus. change (inject_Z 1) with 1%Q.
  split; lra.
Qed.

Lemma mean_bounds (l : list Q) :
  l ≠ [] → Forall (λ x, 0 <= x ∧ x <= 1)%Q l → (0 <= mean l)%Q ∧ (mean l <= 1)%Q.
Proof.
  intros Hne Hall. destruct (sumQ_bounds l Hall) as [H0 H1]. unfold mean.
  assert (Hn : (0 < inject_Z (Z.of_nat (length l)))%Q).
  { change 0%Q with (inject_Z 0). rewrite <- Zlt_Qlt. destruct l; [done|simpl; lia]. }
  split.
  - apply Qle_shift_div_l; [done|]. lra.
  - apply Qle_shift_div_r; [done|]. lra.
Qed.

Lemma count_if_odd_ratio (reds : list Z) :
  length reds = 6%nat →
  (0 <= inject_Z (count_if is_odd reds) / 6)%Q ∧ (inject_Z (count_if is_odd reds) / 6 <= 1)%Q.
Proof.
  intros Hl. pose proof (count_if_nonneg is_odd reds). pose proof (count_if_le_length is_odd reds).
  rewrite Hl in *.
  assert (0 <= inject_Z (count_if is_odd reds))%Q
    by (change 0%Q with (inject_Z 0); by rewrite <- Zle_Qle).
  assert (inject_Z (count_if is_odd reds) <= 6)%Q
    by (change 6%Q with (inject_Z 6); by rewrite <- Zle_Qle).
  split.
  - apply Qle_shift_div_l; lra.
  - apply Qle_shift_div_r; lra.
Qed.

(** X21: the historical odd preference is a ratio in [0, 1], and exactly
    0.5 on an empty history or with the trend switched off; hence the
    trend-adjusted odd count [round(target + (ratio - 0.5) * 2)] differs
    from an integer target by at most one. *)
Theorem odd_preference_bounds (self : OddEvenBalanceModel.t) (p : Q) (target : Z) :
  OddEvenBalanceModel._get_historical_odd_preference self = Ok p →
  (0 <= p)%Q ∧ (p <= 1)%Q
  ∧ (OddEvenBalanceModel.history self = []
     ∨ truthy (OddEvenBalanceModel.use_history_trend self) = false → p = (1 # 2)%Q)
  ∧ target - 1 ≤ pyround (inject_Z target + (p - (1 # 2)) * 2) ≤ target + 1.
Proof.
  intros Hp.
  assert (Hb : (0 <= p)%Q ∧ (p <= 1)%Q
               ∧ (OddEvenBalanceModel.history self = []
                  ∨ truthy (OddEvenBalanceModel.use_history_trend self) = false
                  → p = (1 # 2)%Q)).
  { unfold OddEvenBalanceModel._get_historical_odd_preference in Hp.
    destruct (OddEvenBalanceModel.history self) as [|d0 h0] eqn:Hh.
    { injection Hp as <-. split; [lra|]. split; [lra|done]. }
    rewrite <- Hh in *.
    destruct (truthy (OddEvenBalanceModel.use_history_trend self)); cbn [negb] in Hp.
    2:{ injection Hp as <-. split; [lra|]. split; [lra|done]. }
    destruct (int _) as [w|]; [|done]. cbn [rbind] in Hp.
    destruct (OddEvenBalanceModel.odd_ratios _) as [|r0 rs] eqn:Hr.
    { injection Hp as <-. split; [lra|]. split; [lra|]. intros [H|H]; [by rewrite Hh in H|done]. }
    injection Hp as <-. rewrite <- Hr.
    destruct (mean_bounds (OddEvenBalanceModel.odd_ratios (slice_from (- w) (OddEvenBalanceModel.history self))))
      as [H0 H1].
    - by rewrite Hr.
    - unfold OddEvenBalanceModel.odd_ratios. apply Forall_fmap, Forall_forall.
      intros d Hd. apply list_elem_of_filter in Hd as [Hl _]. cbn.
      by apply count_if_odd_ratio.
    - split; [done|]. split; [done|]. intros [H|H]; [by rewrite Hh in H|done]. }
  destruct Hb as (H0 & H1 & Hhalf). split; [done|]. split; [done|]. split; [done|].
  apply pyround_between.
  - unfold Zminus. rewrite inject_Z_plus, inject_Z_opp. change (inject_Z 1) with 1%Q. lra.
  - rewrite inject_Z_plus. change (inject_Z 1) with 1%Q. lra.
Qed.

Lemma odd_preference_bounds_witness :
  let self := OddEvenBalanceModel.Self
                [Draw (Some [1; 3; 5; 7; 9; 12]) None None;
                 Draw (Some [2; 3; 5; 7; 9; 11]) None None]
                OddEvenBalanceModel.default_params
                (VInt 3) (VInt 1) (VBool true) (VInt 50) (VBool false) in
  ∃ p, OddEvenBalanceModel._get_historical_odd_preference self = Ok p
       ∧ (0 <= p)%Q ∧ (p <= 1)%Q
       ∧ 2 ≤ pyround (inject_Z 3 + (p - (1 # 2)) * 2) ≤ 4.
Proof.
  intros self.
  set (p := match OddEvenBalanceModel._get_historical_odd_preference self with
            | Ok p => p | Raise _ => 0%Q end).
  assert (E : OddEvenBalanceModel._get_historical_odd_preference self = Ok p)
    by (vm_compute; reflexivity).
  destruct (odd_preference_bounds self p 3 E) as (H0 & H1 & _ & Hr).
  exists p. split; [exact E|]. split; [exact H0|]. split; [exact H1|exact Hr].
Defined.

(** X22: on a history of fewer than ten draws the genetic model, and on an
    empty history the odd/even model, return what the random baseline with
    default parameters returns on the same random draws: a structurally
    valid candidate. *)
Theorem short_history_fallback (gself : GeneticModel.t) (oself : OddEvenBalanceModel.t)
    (t : tape) :
  ((length (GeneticModel.history gself) < 10)%nat →
   ∃ c t', GeneticModel.generate gself t = (Ok c, t')
           ∧ RandomLotteryModel.generate_default t = (Ok c, t') ∧ ValidCandidate c)
  ∧ (OddEvenBalanceModel.history oself = [] →
     ∃ c t', OddEvenBalanceModel.generate oself t = (Ok c, t')
             ∧ RandomLotteryModel.generate_default t = (Ok c, t') ∧ ValidCandidate c).
Proof.
  destruct (random_baseline_valid t) as (c & t' & Hg & Hv). split.
  - intros Hl. exists c, t'. unfold GeneticModel.generate.
    by replace (Nat.ltb _ 10) with true by (symmetry; apply Nat.ltb_lt; lia).
  - intros Hh. exists c, t'. unfold OddEvenBalanceModel.generate. by rewrite Hh.
Qed.

Lemma short_history_fallback_witness :
  (∃ c t',
     GeneticModel.generate
       (GeneticModel.Self (replicate 9 (Draw (Some [3; 8; 15; 20; 27; 32]) None (Some 5)))
          GeneticModel.default_params 120 60 (VFloat (85 # 100))
          (8 # 100) (12 # 100) 80 (45 # 100) (25 # 100) (15 # 100) (10 # 100) (5 # 100) 14)
       [] = (Ok c, t') ∧ ValidCandidate c)
  ∧ (∃ c t',
       OddEvenBalanceModel.generate
         (OddEvenBalanceModel.Self [] OddEvenBalanceModel.default_params
            (VInt 3) (VInt 1) (VBool true) (VInt 50) (VBool false))
         [] = (Ok c, t') ∧ ValidCandidate c).
Proof.
  destruct (short_history_fallback
              (GeneticModel.Self (replicate 9 (Draw (Some [3; 8; 15; 20; 27; 32]) None (Some 5)))
                 GeneticModel.default_params 120 60 (VFloat (85 # 100))
                 (8 # 100) (12 # 100) 80 (45 # 100) (25 # 100) (15 # 100) (10 # 100)
                 (5 # 100) 14)
              (OddEvenBalanceModel.Self [] OddEvenBalanceModel.default_params
                 (VInt 3) (VInt 1) (VBool true) (VInt 50) (VBool false)) [])
    as [Hg Ho].
  split.
  - destruct Hg as (c & t' & H & _ & Hv); [simpl; lia|]. by exists c, t'.
  - destruct Ho as (c & t' & H & _ & Hv); [reflexivity|]. by exists c, t'.
Defined.

Lemma fresh_choice_spec (reds : list Z) (t : tape) :
  ∃ r t', OddEvenBalanceModel.fresh_choice reds t = (r, t')
          ∧ (r = Raise NonTermination ∨ ∃ v, r = Ok v ∧ (v ∉ reds) ∧ in_range 1 33 v).
Proof.
  induction t as [|n t IH]; cbn [OddEvenBalanceModel.fresh_choice].
  - destruct (memZ (nth 0 all_reds 1) reds) eqn:E; eexists _, _; (split; [reflexivity|]);
      [by left|].
    right. eexists. split; [done|]. split; [|by vm_compute].
    intros H. apply memZ_true in H. congruence.
  - set (k := Z.to_nat (Z.of_N n mod Z.of_nat (length all_reds))).
    destruct (memZ (nth k all_reds 1) reds) eqn:E; [exact IH|].
    eexists _, _. split; [reflexivity|]. right. eexists. split; [done|]. split.
    + intros H. apply memZ_true in H. congruence.
    + apply all_reds_range, list_elem_of_In, nth_In. subst k.
      pose proof (Z.mod_pos_bound (Z.of_N n) (Z.of_nat (length all_reds))) as Hb.
      assert (0 < Z.of_nat (length all_reds)) by (by vm_compute). lia.
Qed.

(** X23: the repair loop of the odd/even model keeps the combination
    well-formed: starting from six distinct ascending reds of 1..33 it ends,
    after at most the given number of replacements, with six distinct
    ascending reds of 1..33 (or its inner [while] loop is still drawing when
    the given random draws run out); a combination that already passes the
    check is returned as it is, with no random number consumed. *)
Theorem odd_even_retry_valid (self : OddEvenBalanceModel.t) (target tol smin smax mc : Q)
    (passes : nat) (reds : list Z) (t : tape) :
  num (OddEvenBalanceModel.target_odd self) = Ok target →
  num (OddEvenBalanceModel.odd_tolerance self) = Ok tol →
  getnum (OddEvenBalanceModel.params self) "min_sum" = Ok smin →
  getnum (OddEvenBalanceModel.params self) "max_sum" = Ok smax →
  getnum (OddEvenBalanceModel.params self) "max_consecutive" = Ok mc →
  ValidReds reds →
  ∃ r t', OddEvenBalanceModel.retry_loop self passes reds t = (r, t')
          ∧ (r = Raise NonTermination ∨ ∃ reds', r = Ok reds' ∧ ValidReds reds')
          ∧ (OddEvenBalanceModel._check_constraints self reds = Ok true →
             r = Ok reds ∧ t' = t).
Proof.
  intros H1 H2 H3 H4 H5. revert reds t.
  induction passes as [|passes IH]; intros reds t Hv.
  - eexists _, _. split; [reflexivity|]. split; [right; by exists reds|done].
  - cbn [OddEvenBalanceModel.retry_loop]. unfold bind at 1, lift at 1.
    rewrite (oe_check_constraints_spec self target tol smin smax mc reds H1 H2 H3 H4 H5).
    match goal with |- context [if ?b then _ else _] => destruct b eqn:Eb end.
    { eexists _, _. split; [reflexivity|]. split; [right; by exists reds|done]. }
    destruct (randint_spec 0 5 t) as (idx & t1 & Hr & Hidx); [lia|].
    unfold bind at 1. rewrite Hr.
    destruct (fresh_choice_spec reds t1) as (r & t2 & Hf & [->|(v & -> & Hnew & Hvr)]).
    { eexists _, _. unfold bind at 1. rewrite Hf. split; [reflexivity|].
      split; [by left|done]. }
    unfold bind at 1. rewrite Hf.
    destruct Hv as (Hl & Hnd & Hrg & _).
    assert (Hs : GeneticModel.setitem reds idx v = Ok (<[Z.to_nat idx := v]> reds)).
    { unfold GeneticModel.setitem. replace (idx <? 0) with false by lia.
      replace ((idx <? 0) || (Z.of_nat (length reds) <=? idx)) with false by lia. done. }
    unfold bind at 1, lift at 1. rewrite Hs.
    destruct (IH (sorted (<[Z.to_nat idx := v]> reds)) t2) as (r & t3 & Hloop & Hres & _).
    { apply sorted_valid; [by rewrite length_insert|by apply insert_NoDup|].
      assert (Hall : Forall (in_range 1 33) (<[Z.to_nat idx := v]> reds))
        by (by apply Forall_insert).
      intros x Hx. by apply (proj1 (Forall_forall _ _) Hall). }
    exists r, t3. split; [done|]. split; [done|]. intros [=].
Qed.

Lemma odd_even_retry_valid_witness :
  ∃ r t',
    OddEvenBalanceModel.retry_loop
      (OddEvenBalanceModel.Self [] OddEvenBalanceModel.default_params
         (VInt 3) (VInt 1) (VBool true) (VInt 50) (VBool false))
      20 [2; 9; 14; 21; 26; 33] [4; 17]%N = (r, t')
    ∧ (r = Raise NonTermination ∨ ∃ reds', r = Ok reds' ∧ ValidReds reds').
Proof.
  destruct (odd_even_retry_valid
              (OddEvenBalanceModel.Self [] OddEvenBalanceModel.default_params
                 (VInt 3) (VInt 1) (VBool true) (VInt 50) (VBool false))
              3 1 70 140 2 20 [2; 9; 14; 21; 26; 33] [4; 17]%N
              eq_refl eq_refl eq_refl eq_refl eq_refl valid_reds_sample)
    as (r & t' & H & Hv & _).
  exists r, t'. split; [exact H|exact Hv].
Defined.

(** ** compute/markov_model.py: the objective vector *)

Lemma ratio_bounds (n d : Z) :
  0 ≤ n ≤ d → 0 < d →
  (0 <= inject_Z n / inject_Z d)%Q ∧ (inject_Z n / inject_Z d <= 1)%Q.
Proof.
  intros [H0 H1] Hd.
  assert (0 <= inject_Z n)%Q by (change 0%Q with (inject_Z 0); by rewrite <- Zle_Qle).
  assert (inject_Z n <= inject_Z d)%Q by (by rewrite <- Zle_Qle).
  assert (0 < inject_Z d)%Q by (change 0%Q with (inject_Z 0); by rewrite <- Zlt_Qlt).
  split.
  - apply Qle_shift_div_l; [done|]. lra.
  - apply Qle_shift_div_r; [done|]. lra.
Qed.

Lemma overlap_count_bounds (a b : list Z) :
  0 ≤ overlap_count a b ≤ Z.of_nat (length a).
Proof.
  unfold overlap_count. split; [lia|].
  pose proof (remove_dups_length_le (filter (λ x, Is_true (memZ x b)) a)).
  pose proof (length_filter (λ x, Is_true (memZ x b)) a). lia.
Qed.

Lemma adjacent_pairs_le (l : list Z) : adjacent_pairs l ≤ Z.of_nat (pred (length l)).
Proof.
  induction l as [|x l IH]; [simpl; lia|].
  destruct l as [|y l']; [simpl; lia|].
  rewrite adjacent_pairs_cons2. simpl length in *. destruct (y - x =? 1); lia.
Qed.

Lemma weighted_bounds (a w : Q) :
  (0 <= a)%Q → (a <= 1)%Q → (0 <= w)%Q → (0 <= a * w)%Q ∧ (a * w <= w)%Q.
Proof. intros. split; nra. Qed.

Lemma pymin_nonneg (a b : Q) : (0 <= a)%Q → (0 <= b)%Q → (0 <= pymin a b)%Q.
Proof. intros. unfold pymin. by destruct (Qlt_bool b a). Qed.

Lemma history_match_spec (history : list draw) (params : gmap string pyval)
    (history_window : Z) (reds : list Z) (w0 : Q) :
  getnum params "history_match_weight" = Ok w0 → (0 <= w0)%Q →
  0 ≤ history_window → length reds = 6%nat →
  ∃ v0, Nsga2Fitness.history_match history params history_window reds = Ok v0
        ∧ (0 <= v0)%Q ∧ (v0 <= w0)%Q ∧ (history = [] → v0 = 0%Q).
Proof.
  intros G0 P0 Hw Hl. unfold Nsga2Fitness.history_match.
  destruct history as [|d h] eqn:Hh.
  { exists 0%Q. split; [done|]. split; [lra|]. split; [lra|done]. }
  rewrite <- Hh. cbn zeta.
  destruct (index_last (slice_from (- history_window) history)) as (last & -> & _).
  { intros E. apply (f_equal length) in E. simpl in E.
    destruct (decide (history_window = 0)) as [->|Hne].
    - change (- 0) with 0 in E. unfold slice_from in E. simpl in E.
      rewrite Hh in E. simpl in E. lia.
    - rewrite slice_from_neg_length in E by lia. rewrite Hh in E. simpl in E. lia. }
  cbn [rbind]. rewrite G0. cbn [rbind]. eexists. split; [reflexivity|].
  pose proof (overlap_count_bounds reds (get_reds last)) as Hb. rewrite Hl in Hb.
  destruct (ratio_bounds (overlap_count reds (get_reds last)) 6 Hb ltac:(lia)) as [R0 R1].
  change (inject_Z 6) with 6%Q in *.
  destruct (weighted_bounds _ w0 R0 R1 P0) as [W0 W1].
  split; [exact W0|]. split; [exact W1|]. intros E. by rewrite E in Hh.
Qed.

Lemma sum_fit_spec (params : gmap string pyval) (total w3 lo hi : Q) :
  getnum params "sum_weight" = Ok w3 →
  getnum params "min_sum" = Ok lo → getnum params "max_sum" = Ok hi →
  (0 <= w3)%Q →
  ∃ v3, Nsga2Fitness.sum_fit params total = Ok v3 ∧ (0 <= v3)%Q ∧ (v3 <= w3)%Q.
Proof.
  intros G3 Glo Ghi P3. unfold Nsga2Fitness.sum_fit. rewrite Glo, Ghi, G3. cbn [rbind].
  assert (Hout : ∃ v3, Ok (pymax 0 (1 - pymin (Qabs (total - lo)) (Qabs (total - hi)) / 50)
                           * w3)%Q = Ok v3 ∧ (0 <= v3)%Q ∧ (v3 <= w3)%Q).
  { eexists. split; [reflexivity|]. set (dist := pymin _ _).
    assert (0 <= dist)%Q by (apply pymin_nonneg; apply Qabs_nonneg).
    destruct (pymax_bounds 0 (1 - dist / 50)) as [M0 _].
    assert (M1 : (pymax 0 (1 - dist / 50) <= 1)%Q).
    { apply pymax_le; [lra|]. assert (0 <= dist / 50)%Q by (apply Qle_shift_div_l; lra). lra. }
    by apply weighted_bounds. }
  destruct (Qle_bool lo total); cbn [rbind]; [destruct (Qle_bool total hi)|]; cbn [rbind];
    try exact Hout.
  eexists. split; [reflexivity|]. split; lra.
Qed.

(** X24: with numeric, non-negative weights and numeric sum bounds, a
    non-negative history window and six reds, [_fitness_vector] returns
    (it never raises) a vector of exactly five objectives: the history
    match, the odd/even balance, the zone spread and the sum plausibility
    each lie between 0 and their weight, the consecutive-pair objective
    lies between minus five times the penalty and 0, and the history match
    is 0 on an empty history.  All fitness vectors thus have one length,
    which is what the transitivity of dominance and the non-empty first
    front ask for. *)
Theorem fitness_vector_shape (history : list draw) (params : gmap string pyval)
    (history_window : Z) (reds : list Z) (w0 w1 w2 w3 w4 lo hi : Q) :
  getnum params "history_match_weight" = Ok w0 →
  getnum params "odd_even_weight" = Ok w1 →
  getnum params "zone_weight" = Ok w2 →
  getnum params "sum_weight" = Ok w3 →
  getnum params "consecutive_penalty" = Ok w4 →
  getnum params "min_sum" = Ok lo →
  getnum params "max_sum" = Ok hi →
  (0 <= w0)%Q → (0 <= w1)%Q → (0 <= w2)%Q → (0 <= w3)%Q → (0 <= w4)%Q →
  0 ≤ history_window → length reds = 6%nat →
  ∃ v0 v1 v2 v3 v4,
    Nsga2Fitness._fitness_vector history params history_window reds
    = Ok [v0; v1; v2; v3; v4]
    ∧ (0 <= v0)%Q ∧ (v0 <= w0)%Q
    ∧ (0 <= v1)%Q ∧ (v1 <= w1)%Q
    ∧ (0 <= v2)%Q ∧ (v2 <= w2)%Q
    ∧ (0 <= v3)%Q ∧ (v3 <= w3)%Q
    ∧ (- (5) * w4 <= v4)%Q ∧ (v4 <= 0)%Q
    ∧ (history = [] → v0 = 0%Q).
Proof.
  intros G0 G1 G2 G3 G4 Glo Ghi P0 P1 P2 P3 P4 Hw Hl.
  unfold Nsga2Fitness._fitness_vector.
  destruct (history_match_spec history params history_window reds w0 G0 P0 Hw Hl)
    as (v0 & -> & B0 & B0' & Hempty).
  cbn [rbind]. rewrite G1. cbn [rbind]. rewrite G2. cbn [rbind].
  destruct (sum_fit_spec params (inject_Z (sumZ reds)) w3 lo hi G3 Glo Ghi P3)
    as (v3 & -> & B3 & B3').
  cbn [rbind]. rewrite G4. cbn [rbind].
  eexists _, _, _, _, _. split; [reflexivity|].
  split; [done|]. split; [done|].
  assert (Hodd : 0 ≤ 3 - Z.abs (count_if is_odd reds - 3) ≤ 3).
  { pose proof (count_if_nonneg is_odd reds). pose proof (count_if_le_length is_odd reds).
    rewrite Hl in *. lia. }
  destruct (ratio_bounds _ 3 Hodd ltac:(lia)) as [R0 R1].
  assert (E1 : (1 - inject_Z (Z.abs (count_if is_odd reds - 3)) / 3
                == inject_Z (3 - Z.abs (count_if is_odd reds - 3)) / inject_Z 3)%Q).
  { unfold Zminus at 2. rewrite inject_Z_plus, inject_Z_opp.
    change (inject_Z 3) with 3%Q. field. }
  rewrite <- E1 in R0, R1. destruct (weighted_bounds _ w1 R0 R1 P1).
  split; [done|]. split; [done|].
  set (zs := Z.min 1 (count_if (λ x, x <=? 11) reds)
             + Z.min 1 (count_if (λ x, (12 <=? x) && (x <=? 22)) reds)
             + Z.min 1 (count_if (λ x, 23 <=? x) reds)).
  assert (Hz : 0 ≤ zs ≤ 3).
  { subst zs.
    pose proof (count_if_nonneg (λ x, x <=? 11) reds).
    pose proof (count_if_nonneg (λ x, (12 <=? x) && (x <=? 22)) reds).
    pose proof (count_if_nonneg (λ x, 23 <=? x) reds). lia. }
  destruct (ratio_bounds zs 3 Hz ltac:(lia)) as [Z0 Z1].
  change (inject_Z 3) with 3%Q in Z0, Z1. destruct (weighted_bounds _ w2 Z0 Z1 P2).
  split; [done|]. split; [done|]. split; [done|]. split; [done|].
  pose proof (adjacent_pairs_nonneg reds) as A0. pose proof (adjacent_pairs_le reds) as A1.
  rewrite Hl in A1. simpl in A1.
  assert (0 <= inject_Z (adjacent_pairs reds))%Q
    by (change 0%Q with (inject_Z 0); by rewrite <- Zle_Qle).
  assert (inject_Z (adjacent_pairs reds) <= 5)%Q
    by (change 5%Q with (inject_Z 5); by rewrite <- Zle_Qle).
  split; [nra|]. split; [nra|done].
Qed.

Lemma fitness_vector_shape_witness :
  ∃ v0 v1 v2 v3 v4,
    Nsga2Fitness._fitness_vector [Draw (Some [2; 9; 14; 21; 26; 30]) None (Some 5)]
      (list_to_map
         [("history_match_weight", VFloat (40 # 100)); ("odd_even_weight", VFloat (18 # 100));
          ("zone_weight", VFloat (15 # 100)); ("sum_weight", VFloat (12 # 100));
          ("consecutive_penalty", VFloat (15 # 100));
          ("min_sum", VInt 70); ("max_sum", VInt 140)])
      100 [2; 9; 14; 21; 26; 33]
    = Ok [v0; v1; v2; v3; v4]
    ∧ (0 <= v0)%Q ∧ (v0 <= 40 # 100)%Q ∧ (v4 <= 0)%Q.
Proof.
  destruct (fitness_vector_shape [Draw (Some [2; 9; 14; 21; 26; 30]) None (Some 5)]
              (list_to_map
                 [("history_match_weight", VFloat (40 # 100));
                  ("odd_even_weight", VFloat (18 # 100));
                  ("zone_weight", VFloat (15 # 100)); ("sum_weight", VFloat (12 # 100));
                  ("consecutive_penalty", VFloat (15 # 100));
                  ("min_sum", VInt 70); ("max_sum", VInt 140)])
              100 [2; 9; 14; 21; 26; 33]
              (40 # 100) (18 # 100) (15 # 100) (12 # 100) (15 # 100) 70 140)
    as (v0 & v1 & v2 & v3 & v4 & H & B0 & B0' & _ & _ & _ & _ & _ & _ & _ & B4 & _);
    try (vm_compute; reflexivity); try (apply Qle_bool_iff; reflexivity); try lia.
  exists v0, v1, v2, v3, v4. split; [exact H|]. split; [exact B0|]. split; [exact B0'|exact B4].
Defined.
